(** * Compare-app: the experiment form of [frontend/src/App.js]

    The repository's client keeps an experiment (a name, a description and a
    list of techniques, each a JS object with a name, a 2x2 confusion matrix
    and a confidence level) in React state, edits it through four updaters
    ([addTechnique], [removeTechnique], [updateTechnique], [updateMatrix]) and
    submits it to the statistics service with [submitExperiment].

    The development has three layers:
    - [JS]: the ECMAScript built-ins the file calls ([String.prototype.trim],
      [parseInt], [parseFloat], [||] on numbers, the conversion to a string
      that [+] applies to a value of a JSON response), over UTF-16 code
      units and IEEE 754 binary64 numbers;
    - [App]: the state of the component and its handlers, as state passing
      with a trace of the observable effects ([alert], HTTP requests);
    - [Engine]: the statistics service behind [POST /api/experiments], which
      is not part of the client sources and is modelled from its
      specification. *)

From Stdlib Require Import ZArith QArith Lia Ascii String.
From Stdlib Require Import Floats.SpecFloat.
From stdpp Require Import gmap strings list pretty.

#[local] Set Warnings "-register-all".

(** ** ECMAScript built-ins *)

Module JS.

(** A JS string is a finite sequence of UTF-16 code units. *)
Abbreviation jsstring := (list N).

(** Source literals are written here as UTF-8 byte strings; [lit] decodes
    them to the code units a JS string holds (a surrogate pair above U+FFFF,
    nothing for a truncated sequence). *)
Fixpoint utf16_of_utf8 (bytes : list N) : jsstring :=
  let cont (b : N) := N.land b 0x3F in
  match bytes with
  | [] => []
  | b0 :: r =>
      if (b0 <? 0x80)%N then b0 :: utf16_of_utf8 r
      else if (b0 <? 0xE0)%N then
        match r with
        | b1 :: r' =>
            N.lor (N.shiftl (N.land b0 0x1F) 6) (cont b1) :: utf16_of_utf8 r'
        | _ => []
        end
      else if (b0 <? 0xF0)%N then
        match r with
        | b1 :: b2 :: r' =>
            N.lor (N.shiftl (N.land b0 0xF) 12)
              (N.lor (N.shiftl (cont b1) 6) (cont b2)) :: utf16_of_utf8 r'
        | _ => []
        end
      else
        match r with
        | b1 :: b2 :: b3 :: r' =>
            let cp := N.lor (N.shiftl (N.land b0 0x7) 18)
                        (N.lor (N.shiftl (cont b1) 12)
                           (N.lor (N.shiftl (cont b2) 6) (cont b3))) in
            let v := (cp - 0x10000)%N in
            (0xD800 + N.shiftr v 10)%N :: (0xDC00 + N.land v 0x3FF)%N
              :: utf16_of_utf8 r'
        | _ => []
        end
  end.

Definition lit (s : string) : jsstring :=
  utf16_of_utf8 (map Ascii.N_of_ascii (String.list_ascii_of_string s)).

(** *** White space (ECMA-262, WhiteSpace and LineTerminator) *)

Definition is_white_space (c : N) : bool :=
  ((c =? 0x9) || (c =? 0xB) || (c =? 0xC) || (c =? 0xFEFF)
   (* USP: the code points of general category Zs *)
   || (c =? 0x20) || (c =? 0xA0) || (c =? 0x1680)
   || ((0x2000 <=? c) && (c <=? 0x200A))
   || (c =? 0x202F) || (c =? 0x205F) || (c =? 0x3000))%N.

Definition is_line_terminator (c : N) : bool :=
  ((c =? 0xA) || (c =? 0xD) || (c =? 0x2028) || (c =? 0x2029))%N.

Definition is_str_white_space (c : N) : bool :=
  is_white_space c || is_line_terminator c.

Fixpoint trim_start (s : jsstring) : jsstring :=
  match s with
  | c :: s' => if is_str_white_space c then trim_start s' else s
  | [] => []
  end.

Definition trim_end (s : jsstring) : jsstring :=
  rev (trim_start (rev s)).

(** [String.prototype.trim] *)
Definition trim (s : jsstring) : jsstring :=
  trim_end (trim_start s).

(** [ToBoolean] on a string: only the empty string is falsy. *)
Definition string_to_boolean (s : jsstring) : bool :=
  match s with
  | [] => false
  | _ :: _ => true
  end.

(** *** Numbers: IEEE 754 binary64 *)

Abbreviation number := spec_float.

Definition prec : Z := 53.
Definition emax : Z := 1024.

Definition NaN : number := S754_nan.
Definition zero : number := S754_zero false.

(** The Number value for a mathematical integer: round to nearest, ties to
    even; integers beyond the binary64 range become an infinity. *)
Definition of_Z (z : Z) : number :=
  binary_normalize prec emax z 0 false.

(** The least magnitude that rounds to an infinity: halfway between the
    largest binary64 number, [2^1024 - 2^971], and [2^1024]. *)
Definition OVERFLOW : Z := (2 ^ 1024 - 2 ^ 970)%Z.

(** Rounding shifts a mantissa to the right, one bit at a time; [y] is [x]
    after [k] such shifts, as far as the mantissa and the bit shifted out
    last go. *)
Definition shifted (k : Z) (x y : shr_record) : Prop :=
  (0 <= shr_m x)%Z
  /\ shr_m y = (shr_m x / 2 ^ k)%Z
  /\ shr_r y = Z.odd (shr_m x / 2 ^ (k - 1)).

(** The Number value for the decimal [(-1)^neg * m * 10^e], as for a numeric
    literal: the exact value, rounded once (an integer through [of_Z], a
    fraction through one division of two exact integers). *)
Definition of_decimal (neg : bool) (m : Z) (e : Z) : number :=
  match m with
  | Z0 => S754_zero neg
  | Zpos p =>
      if (0 <=? e)%Z
      then of_Z (if neg then - (m * 10 ^ e) else m * 10 ^ e)
      else SFdiv prec emax
             (S754_finite neg p 0)
             (S754_finite false (Z.to_pos (10 ^ (- e))) 0)
  | Zneg _ => NaN
  end.

(** [ToBoolean] on a number: [NaN], [+0] and [-0] are falsy. *)
Definition number_to_boolean (x : number) : bool :=
  match x with
  | S754_nan | S754_zero _ => false
  | _ => true
  end.

(** [x || y] on numbers. *)
Definition number_or (x y : number) : number :=
  if number_to_boolean x then x else y.

(** The mathematical value of a number when it is an integer. *)
Definition integer_value (x : number) : option Z :=
  match x with
  | S754_zero _ => Some 0%Z
  | S754_finite s m e =>
      let v :=
        if (0 <=? e)%Z then Some (Z.pos m * 2 ^ e)%Z
        else if (Z.pos m mod 2 ^ (- e) =? 0)%Z
             then Some (Z.pos m / 2 ^ (- e))%Z
             else None in
      (fun z : Z => if s then (- z)%Z else z) <$> v
  | _ => None
  end.

Definition is_integer (x : number) : bool :=
  match integer_value x with Some _ => true | None => false end.

Definition is_infinite (x : number) : bool :=
  match x with S754_infinity _ => true | _ => false end.

(** [x < 0] *)
Definition is_negative (x : number) : bool :=
  SFltb x zero.

(** *** [parseInt(string)] with the radix left undefined *)

(** The value of a code unit as a digit: [0-9], [a-z], [A-Z]. *)
Definition digit_value (c : N) : option Z :=
  if ((48 <=? c) && (c <=? 57))%N then Some (Z.of_N c - 48)%Z
  else if ((97 <=? c) && (c <=? 122))%N then Some (Z.of_N c - 87)%Z
  else if ((65 <=? c) && (c <=? 90))%N then Some (Z.of_N c - 55)%Z
  else None.

Definition radix_digit (R : Z) (c : N) : option Z :=
  match digit_value c with
  | Some d => if (d <? R)%Z then Some d else None
  | None => None
  end.

(** The integer denoted by the longest prefix of radix-[R] digits; [acc] is
    [None] until a digit has been read. *)
Fixpoint parse_digits (R : Z) (s : jsstring) (acc : option Z) : option Z :=
  match s with
  | c :: s' =>
      match radix_digit R c with
      | Some d => parse_digits R s' (Some (default 0%Z acc * R + d)%Z)
      | None => acc
      end
  | [] => acc
  end.

(** The sign and the mathematical integer of the numeral a string starts
    with (after white space; [0x] and [0X] announce radix 16), [None] when
    it starts with no numeral. *)
Definition numeral (string : jsstring) : option (bool * Z) :=
  let str := trim_start string in
  let sign := match str with 45%N :: _ => true | _ => false end in
  let str := match str with
             | 43%N :: rest | 45%N :: rest => rest
             | _ => str
             end in
  let '(R, str) := match str with
                   | 48%N :: 120%N :: rest | 48%N :: 88%N :: rest =>
                       (16%Z, rest)
                   | _ => (10%Z, str)
                   end in
  match parse_digits R str None with
  | None => None
  | Some mathInt => Some (sign, mathInt)
  end.

Definition parseInt (string : jsstring) : number :=
  match numeral string with
  | None => NaN
  | Some (sign, Z0) => S754_zero sign
  | Some (sign, mathInt) => of_Z (if sign then - mathInt else mathInt)
  end.

(** The sign [parseInt] reads after the leading white space. *)
Definition has_minus_sign (v : jsstring) : bool :=
  match trim_start v with
  | 45%N :: _ => true
  | _ => false
  end.

(** *** [parseFloat(string)] *)

(** The longest prefix of decimal digits and the rest of the string. *)
Fixpoint span_digits (s : jsstring) : list Z * jsstring :=
  match s with
  | c :: s' =>
      match radix_digit 10 c with
      | Some d => let '(ds, rest) := span_digits s' in (d :: ds, rest)
      | None => ([], s)
      end
  | [] => ([], [])
  end.

Definition digits_value (ds : list Z) : Z :=
  fold_left (fun acc d => acc * 10 + d)%Z ds 0%Z.

(** The value of an ExponentPart at the head of [s], 0 when there is none. *)
Definition exponent_part (s : jsstring) : Z :=
  match s with
  | 101%N :: s' | 69%N :: s' =>
      let '(eneg, s'') := match s' with
                          | 43%N :: t => (false, t)
                          | 45%N :: t => (true, t)
                          | _ => (false, s')
                          end in
      match span_digits s'' with
      | ([], _) => 0%Z
      | (ds, _) => if eneg then (- digits_value ds)%Z else digits_value ds
      end
  | _ => 0%Z
  end.

Definition parseFloat (string : jsstring) : number :=
  let str := trim_start string in
  let '(neg, str) := match str with
                     | 43%N :: rest => (false, rest)
                     | 45%N :: rest => (true, rest)
                     | _ => (false, str)
                     end in
  if decide (take 8 str = lit "Infinity") then S754_infinity neg
  else
    let '(ip, str1) := span_digits str in
    let '(fp, str2) := match str1 with
                       | 46%N :: rest => span_digits rest
                       | _ => ([], str1)
                       end in
    match ip ++ fp with
    | [] => NaN
    | ds => of_decimal neg (digits_value ds)
              (exponent_part str2 - Z.of_nat (length fp))
    end.

(** *** [Number::toString(x)] in radix 10 *)

(** The decimal digits of a non-negative integer. *)
Definition decimal_digits (z : Z) : jsstring := lit (pretty (Z.to_N z)).

(** The [n] with [10^(n-1) <= num/den < 10^n], for a positive fraction. *)
Definition decimal_exponent (num den : Z) : Z :=
  if (den <=? num)%Z then Z.of_nat (length (decimal_digits (num / den)))
  else (1 - Z.of_nat (length (decimal_digits ((den - 1) / num))))%Z.

Definition same_number (x y : number) : bool :=
  match x, y with
  | S754_finite s m e, S754_finite s' m' e' =>
      Bool.eqb s s' && (m =? m')%positive && (e =? e')%Z
  | S754_zero s, S754_zero s' | S754_infinity s, S754_infinity s' =>
      Bool.eqb s s'
  | S754_nan, S754_nan => true
  | _, _ => false
  end.

(** Step 5 for a given number [k] of digits: the integers [s] and [n] with
    [10^(k-1) <= s < 10^k] for which [s * 10^(n-k)] rounds to [x], if there
    are any; of several [s] the one closest to [x], the even one of two
    equally close (the reading engines implement). [x] is [num/den] and
    [n0] its decimal exponent; the closest candidates are the integers
    next to [x / 10^(n0-k)]. *)
Definition with_digits (x : number) (num den n0 k : Z) : option (Z * Z) :=
  let '(ynum, yden) :=
    if (n0 <=? k)%Z then (num * 10 ^ (k - n0), den)%Z
    else (num, den * 10 ^ (n0 - k))%Z in
  let lo := (ynum / yden)%Z in
  let hi := (lo + 1)%Z in
  let '(hi, n_hi) :=
    if (hi =? 10 ^ k)%Z then (10 ^ (k - 1), n0 + 1)%Z else (hi, n0) in
  let lo_ok := same_number (of_decimal false lo (n0 - k)) x in
  let hi_ok := same_number (of_decimal false hi (n_hi - k)) x in
  match lo_ok, hi_ok with
  | true, true =>
      match (2 * ynum ?= (2 * lo + 1) * yden)%Z with
      | Lt => Some (lo, n0)
      | Gt => Some (hi, n_hi)
      | Eq => if Z.even lo then Some (lo, n0) else Some (hi, n_hi)
      end
  | true, false => Some (lo, n0)
  | false, true => Some (hi, n_hi)
  | false, false => None
  end.

(** The least [k] from [k] on, within [fuel] steps, that has such integers. *)
Fixpoint shortest (fuel : nat) (x : number) (num den n0 k : Z)
    : option (Z * Z * Z) :=
  match fuel with
  | O => None
  | S fuel' =>
      match with_digits x num den n0 k with
      | Some (s, n) => Some (s, n, k)
      | None => shortest fuel' x num den n0 (k + 1)
      end
  end.

Definition zeros (n : Z) : jsstring := replicate (Z.to_nat n) 48%N.

(** Steps 6 to 10: the digits of [s] laid out by [n] and [k]. *)
Definition layout (s n k : Z) : jsstring :=
  let ds := decimal_digits s in
  if ((k <=? n) && (n <=? 21))%Z then ds ++ zeros (n - k)
  else if ((0 <? n) && (n <=? 21))%Z
  then take (Z.to_nat n) ds ++ lit "." ++ drop (Z.to_nat n) ds
  else if ((-6 <? n) && (n <=? 0))%Z then lit "0." ++ zeros (- n) ++ ds
  else
    let e := (n - 1)%Z in
    let exponent :=
      lit "e" ++ (if (e <? 0)%Z then lit "-" else lit "+")
      ++ decimal_digits (Z.abs e) in
    if (k =? 1)%Z then ds ++ exponent
    else take 1 ds ++ lit "." ++ drop 1 ds ++ exponent.

(** Seventeen digits tell any two binary64 numbers apart, so the search
    for [k] ends within them. *)
Definition Number_toString (x : number) : jsstring :=
  match x with
  | S754_nan => lit "NaN"
  | S754_zero _ => lit "0"
  | S754_infinity s => (if s then lit "-" else []) ++ lit "Infinity"
  | S754_finite s m e =>
      let '(num, den) :=
        if (0 <=? e)%Z then (Z.pos m * 2 ^ e, 1)%Z
        else (Z.pos m, 2 ^ (- e))%Z in
      let n0 := decimal_exponent num den in
      let canonical := binary_normalize prec emax (Z.pos m) e false in
      (if s then lit "-" else [])
      ++ match shortest 17 canonical num den n0 1 with
         | Some (s, n, k) => layout s n k
         | None => lit "NaN"
         end
  end.

(** *** The values of a parsed JSON text *)

Inductive json :=
| JNull
| JBool (b : bool)
| JNumber (n : number)
| JString (s : jsstring)
| JArray (items : list json)
| JObject (properties : gmap string json).

(** [ToBoolean]: arrays and objects are truthy, also when empty. *)
Definition to_boolean (j : json) : bool :=
  match j with
  | JNull => false
  | JBool b => b
  | JNumber n => number_to_boolean n
  | JString s => string_to_boolean s
  | JArray _ | JObject _ => true
  end.

(** [Array.prototype.join] with the separator [","], on the texts of the
    elements. *)
Definition join (texts : list jsstring) : jsstring :=
  match texts with
  | [] => []
  | text :: rest => text ++ flat_map (fun t => 44%N :: t) rest
  end.

(** [ToString], as string concatenation applies it, [None] when it throws
    a [TypeError]. An array is joined over its elements, [null] counting as
    the empty string there. An object of a JSON text inherits
    [Object.prototype.toString], which answers ["[object Object]"], unless
    it has a property [toString] of its own: that holds a JSON value, which
    is not callable, and [valueOf] returns the object itself, so that no
    primitive value is found. *)
Fixpoint to_string (j : json) : option jsstring :=
  match j with
  | JNull => Some (lit "null")
  | JBool b => Some (if b then lit "true" else lit "false")
  | JNumber n => Some (Number_toString n)
  | JString s => Some s
  | JArray items =>
      join <$> mapM (fun item => match item with
                                 | JNull => Some []
                                 | _ => to_string item
                                 end) items
  | JObject properties =>
      match properties !! "toString" with
      | Some _ => None
      | None => Some (lit "[object Object]")
      end
  end.

(** A value that is, or holds in its lists, an object with a property
    [toString] of its own. *)
Fixpoint has_own_toString (j : json) : bool :=
  match j with
  | JArray items => existsb has_own_toString items
  | JObject properties => bool_decide (is_Some (properties !! "toString"))
  | _ => false
  end.

End JS.

(** ** The component state and its handlers *)

Module App.
Import JS.

(** The JS values the form holds. A technique and its matrix are plain
    objects: finite maps from property names to values. *)
Inductive value :=
| VNum (n : number)
| VStr (s : jsstring)
| VObj (o : gmap string value).

Abbreviation object := (gmap string value).

(** Object spread [{...v}] of the value found under a property ([None] is
    [undefined]): the own properties of an object, the indexed characters
    of a string, nothing for a number or [undefined]. *)
Definition spread (v : option value) : object :=
  match v with
  | Some (VObj o) => o
  | Some (VStr s) => list_to_map (imap (fun i c => (pretty i, VStr [c])) s)
  | Some (VNum _) | None => ∅
  end.

Definition AVAILABLE_TECHNIQUES : list jsstring :=
  [lit "qPCR"; lit "RPA"; lit "LAMP"; lit "PCR"; lit "NASBA"; lit "TMA";
   lit "SDA"; lit "NEAR"; lit "HDA"; lit "RT-PCR"].

(** The [value]s of the three [SelectItem]s of the confidence select. *)
Definition CONFIDENCE_ITEMS : list jsstring :=
  [lit "0.90"; lit "0.95"; lit "0.99"].

(** The property names of the four matrix inputs. *)
Definition MATRIX_FIELDS : list string :=
  ["true_positive"; "false_positive"; "false_negative"; "true_negative"].

Record Experiment := {
  experiment_name : jsstring;
  description : jsstring;
  techniques : list object
}.

(** [{ ...prev, techniques: ts }] *)
Definition with_techniques (prev : Experiment) (ts : list object) :=
  {| experiment_name := experiment_name prev;
     description := description prev;
     techniques := ts |}.

(** [Array.prototype.filter] with the two-argument callback [(x, i)]. *)
Fixpoint filter_from {A} (i : nat) (f : A -> nat -> bool) (l : list A) :=
  match l with
  | [] => []
  | x :: l' =>
      if f x i then x :: filter_from (S i) f l' else filter_from (S i) f l'
  end.

Definition Array_filter {A} (f : A -> nat -> bool) (l : list A) : list A :=
  filter_from 0 f l.

(** The four updaters. In the source each is wrapped in
    [setCurrentExperiment(prev => ...)]; the definitions here are the
    functions of [prev], and [handle] below does the wrapping.

    The matrix and the technique object [addTechnique] appends. *)
Definition new_matrix : object :=
  {[ "true_positive" := VNum (of_Z 0);
     "false_positive" := VNum (of_Z 0);
     "true_negative" := VNum (of_Z 0);
     "false_negative" := VNum (of_Z 0) ]}.

Definition new_technique : object :=
  {[ "technique_name" := VStr (lit "");
     "matrix" := VObj new_matrix;
     "confidence_level" := VNum (of_decimal false 95 (-2)) ]}.

Definition addTechnique (prev : Experiment) : Experiment :=
  with_techniques prev (techniques prev ++ [new_technique]).

(** [i !== index]: [i] is an array position; any [index] that is not the
    number of a position (negative, too large) differs from all of them. *)
Definition removeTechnique (index : Z) (prev : Experiment) : Experiment :=
  with_techniques prev
    (Array_filter (fun _ i => negb (Z.of_nat i =? index)%Z) (techniques prev)).

Definition updateTechnique (index : Z) (field : string) (v : value)
    (prev : Experiment) : Experiment :=
  with_techniques prev
    (imap (fun i tech =>
             if (Z.of_nat i =? index)%Z then <[field := v]> tech else tech)
       (techniques prev)).

Definition updateMatrix (techniqueIndex : Z) (field : string)
    (v : jsstring) (prev : Experiment) : Experiment :=
  with_techniques prev
    (imap (fun i tech =>
             if (Z.of_nat i =? techniqueIndex)%Z
             then <["matrix" :=
                      VObj (<[field := VNum (number_or (parseInt v) (of_Z 0))]>
                              (spread (tech !! "matrix")))]> tech
             else tech)
       (techniques prev)).

(** *** Submission *)

(** What the [catch] block reads from a failed request:
    [error.response?.data?.detail] and [error.message]. The detail is the
    value the body of the response has under [detail], any value of a
    JSON text; [None] is [undefined]: no response, a body that is no
    object, or an object without the property. *)
Record AxiosError := {
  response_data_detail : option json;
  message : jsstring
}.

(** The string [error.response?.data?.detail || error.message] gives when
    it is appended to the prefix of the alert: a truthy detail converted
    to a string, whatever JSON value it is, the message otherwise; [None]
    when the conversion throws. *)
Definition error_text (error : AxiosError) : option jsstring :=
  match response_data_detail error with
  | Some detail =>
      if to_boolean detail then to_string detail else Some (message error)
  | None => Some (message error)
  end.

Inductive settled (A : Type) :=
| resolved (data : A)
| rejected (error : AxiosError).
Arguments resolved {A} data.
Arguments rejected {A} error.

(** The observable effects. A handler can end in two errors nothing
    catches: [uncaught_TypeError], thrown by [.trim] on a technique name
    that is no string, before the request; and
    [uncaught_conversion_error], the [TypeError] thrown in the [catch]
    block when the detail of the response has no string conversion, which
    leaves the handler after [finally]. *)
Inductive event :=
| alert (text : jsstring)
| console_error (error : AxiosError)
| axios_post (data : Experiment)
| axios_get
| uncaught_TypeError
| uncaught_conversion_error.

(** The outcome of the loop over the technique names. *)
Inductive names_scan := all_named | blank_name | not_a_string.

(** [for (let tech of techniques) if (!tech.technique_name.trim()) ...];
    [.trim] exists on strings only. *)
Fixpoint scan_names (techs : list object) : names_scan :=
  match techs with
  | [] => all_named
  | tech :: rest =>
      match tech !! "technique_name" with
      | Some (VStr s) =>
          if negb (string_to_boolean (trim s)) then blank_name
          else scan_names rest
      | _ => not_a_string
      end
  end.

Section Component.
(** [response.data]: what the service answers, opaque to the handlers. *)
Variable Payload : Type.

Record AppState := {
  activeTab : jsstring;
  experiments : list Payload;
  currentExperiment : Experiment;
  loading : bool;
  results : option Payload
}.

Definition initial : AppState :=
  {| activeTab := lit "input";
     experiments := [];
     currentExperiment :=
       {| experiment_name := lit ""; description := lit "";
          techniques := [] |};
     loading := false;
     results := None |}.

(** The answers of the service during one submission. *)
Record Service := {
  post_experiments : Experiment -> settled Payload;
  get_experiments : settled (list Payload)
}.

(** Handlers thread the state and log their effects. *)
Definition M (A : Type) : Type := AppState -> A * AppState * list event.

#[local] Instance M_ret : MRet M := fun _ x st => (x, st, []).
#[local] Instance M_bind : MBind M := fun _ _ k m st =>
  let '(x, st1, t1) := m st in
  let '(y, st2, t2) := k x st1 in
  (y, st2, t1 ++ t2).

Definition emit (e : event) : M unit := fun st => (tt, st, [e]).

Definition setActiveTab (v : jsstring) : M unit := fun st =>
  (tt, {| activeTab := v; experiments := experiments st;
          currentExperiment := currentExperiment st;
          loading := loading st; results := results st |}, []).

Definition setExperiments (v : list Payload) : M unit := fun st =>
  (tt, {| activeTab := activeTab st; experiments := v;
          currentExperiment := currentExperiment st;
          loading := loading st; results := results st |}, []).

Definition setCurrentExperiment (f : Experiment -> Experiment) : M unit :=
  fun st =>
  (tt, {| activeTab := activeTab st; experiments := experiments st;
          currentExperiment := f (currentExperiment st);
          loading := loading st; results := results st |}, []).

Definition setLoading (v : bool) : M unit := fun st =>
  (tt, {| activeTab := activeTab st; experiments := experiments st;
          currentExperiment := currentExperiment st;
          loading := v; results := results st |}, []).

Definition setResults (v : option Payload) : M unit := fun st =>
  (tt, {| activeTab := activeTab st; experiments := experiments st;
          currentExperiment := currentExperiment st;
          loading := loading st; results := v |}, []).

(** The request leaves when [loadExperiments] is called; its answer is
    handled at once here, which changes no field another effect of the
    same submission writes. *)
Definition loadExperiments (net : Service) : M unit :=
  emit axios_get ;;
  match get_experiments net with
  | resolved data => setExperiments data
  | rejected error => emit (console_error error)
  end.

Definition submitExperiment (net : Service) : M unit := fun st =>
  let currentExperiment := currentExperiment st in
  (if negb (string_to_boolean (trim (experiment_name currentExperiment)))
   then emit (alert (lit "กรุณาใส่ชื่อการทดลอง"))
   else if (length (techniques currentExperiment) <? 2)%nat
   then emit (alert (lit "กรุณาเพิ่มข้อมูลอย่างน้อย 2 เทคนิค"))
   else
     match scan_names (techniques currentExperiment) with
     | blank_name => emit (alert (lit "กรุณาเลือกชื่อเทคนิคให้ครบทุกรายการ"))
     | not_a_string => emit uncaught_TypeError
     | all_named =>
         setLoading true ;;
         emit (axios_post currentExperiment) ;;
         match post_experiments net currentExperiment with
         | resolved data =>
             setResults (Some data) ;;
             setActiveTab (lit "results") ;;
             loadExperiments net
         | rejected error =>
             emit (console_error error) ;;
             match error_text error with
             | Some text => emit (alert (lit "เกิดข้อผิดพลาดในการคำนวณ: " ++ text))
             | None => emit uncaught_conversion_error
             end
         end ;;
         setLoading false
     end) st.

(** *** The rendered form

    What the user can do to the form, with the handler each control is
    wired to in the JSX. *)
Inductive action :=
| change_experiment_name (v : jsstring)
| change_description (v : jsstring)
| click_addTechnique
| click_removeTechnique (index : nat)
| select_technique_name (index : nat) (item : jsstring)
| select_confidence_level (index : nat) (item : jsstring)
| change_matrix (index : nat) (field : string) (v : jsstring)
| click_submit (net : Service).

(** The controls the form offers in a state: one card per technique, the
    selects answer with the value of one of their items, the submit
    button shows once there is a technique and is disabled while
    loading. *)
Definition offered (st : AppState) (a : action) : Prop :=
  let n := length (techniques (currentExperiment st)) in
  match a with
  | change_experiment_name _ | change_description _
  | click_addTechnique => True
  | click_removeTechnique index => index < n
  | select_technique_name index item =>
      index < n /\ item ∈ AVAILABLE_TECHNIQUES
  | select_confidence_level index item =>
      index < n /\ item ∈ CONFIDENCE_ITEMS
  | change_matrix index field _ => index < n /\ field ∈ MATRIX_FIELDS
  | click_submit _ => 0 < n /\ loading st = false
  end.

Definition handle (a : action) : M unit :=
  match a with
  | change_experiment_name v =>
      setCurrentExperiment (fun prev =>
        {| experiment_name := v; description := description prev;
           techniques := techniques prev |})
  | change_description v =>
      setCurrentExperiment (fun prev =>
        {| experiment_name := experiment_name prev; description := v;
           techniques := techniques prev |})
  | click_addTechnique => setCurrentExperiment addTechnique
  | click_removeTechnique index =>
      setCurrentExperiment (removeTechnique (Z.of_nat index))
  | select_technique_name index item =>
      setCurrentExperiment
        (updateTechnique (Z.of_nat index) "technique_name" (VStr item))
  | select_confidence_level index item =>
      setCurrentExperiment
        (updateTechnique (Z.of_nat index) "confidence_level"
           (VNum (parseFloat item)))
  | change_matrix index field v =>
      setCurrentExperiment (updateMatrix (Z.of_nat index) field v)
  | click_submit net => submitExperiment net
  end.

(** The state a handler leaves and the effects it logged. *)
Definition state_after (m : M unit) (st : AppState) : AppState :=
  snd (fst (m st)).
Definition effects_of (m : M unit) (st : AppState) : list event :=
  snd (m st).

Inductive reachable : AppState -> Prop :=
| reachable_initial : reachable initial
| reachable_step st a :
    reachable st -> offered st a -> reachable (state_after (handle a) st).

End Component.

Arguments initial {Payload}.
Arguments emit {Payload} e _.
Arguments setActiveTab {Payload} v _.
Arguments setExperiments {Payload} v _.
Arguments setCurrentExperiment {Payload} f _.
Arguments setLoading {Payload} v _.
Arguments setResults {Payload} v _.
Arguments activeTab {Payload} _.
Arguments experiments {Payload} _.
Arguments currentExperiment {Payload} _.
Arguments loading {Payload} _.
Arguments results {Payload} _.
Arguments post_experiments {Payload} _ _.
Arguments get_experiments {Payload} _.
Arguments submitExperiment {Payload} net _.
Arguments loadExperiments {Payload} net _.
Arguments handle {Payload} a _.
Arguments offered {Payload} st a.
Arguments reachable {Payload} _.
Arguments state_after {Payload} m st.
Arguments effects_of {Payload} m st.
Arguments click_addTechnique {Payload}.
Arguments click_removeTechnique {Payload} index.
Arguments select_technique_name {Payload} index item.
Arguments select_confidence_level {Payload} index item.
Arguments change_matrix {Payload} index field v.
Arguments change_experiment_name {Payload} v.
Arguments change_description {Payload} v.
Arguments click_submit {Payload} net.

(** *** Shapes

    The predicates the statements below use to speak about a technique. *)

(** The number under [field] of the matrix of [tech]. *)
Definition matrix_count (tech : object) (field : string) : option number :=
  match tech !! "matrix" with
  | Some (VObj m) =>
      match m !! field with
      | Some (VNum n) => Some n
      | _ => None
      end
  | _ => None
  end.

(** A count the matrix inputs can produce: an integer or an infinity. *)
Definition whole (n : number) : bool := is_integer n || is_infinite n.

(** A non-negative integer. *)
Definition natural (n : number) : bool := is_integer n && negb (is_negative n).

(** A count that is not below zero: a non-negative integer or [+Infinity]. *)
Definition unsigned_whole (n : number) : bool :=
  whole n && negb (is_negative n).

(** An input whose numeral, if it starts with one, is below the magnitude
    that rounds to an infinity. *)
Definition within_range (v : jsstring) : bool :=
  match numeral v with
  | Some (_, n) => (n <? OVERFLOW)%Z
  | None => true
  end.

(** An input that starts with the numeral of a negative integer. *)
Definition denotes_negative (v : jsstring) : bool :=
  match numeral v with
  | Some (true, n) => (0 <? n)%Z
  | _ => false
  end.

Definition counts_satisfy (P : number -> bool) (tech : object) : Prop :=
  forall field, field ∈ MATRIX_FIELDS ->
    exists n, matrix_count tech field = Some n /\ P n = true.

Definition has_string_name (tech : object) : Prop :=
  exists s, tech !! "technique_name" = Some (VStr s).

Definition PRESETS : list number :=
  [of_decimal false 90 (-2); of_decimal false 95 (-2);
   of_decimal false 99 (-2)].

Definition has_preset_confidence (tech : object) : Prop :=
  exists c, tech !! "confidence_level" = Some (VNum c) /\ c ∈ PRESETS.

(** The shape of a technique the form builds. *)
Definition well_shaped (tech : object) : Prop :=
  has_string_name tech /\ has_preset_confidence tech
  /\ counts_satisfy whole tech.

(** One call of [updateMatrix], as data. *)
Definition matrix_update : Type := Z * string * jsstring.

Definition apply_matrix_update (e : Experiment) (u : matrix_update) :=
  let '(index, field, v) := u in updateMatrix index field v e.

(** *** The validation of a submission, in the words of the specification *)

Inductive validation_error :=
| MissingNameError
| InsufficientTechniquesError
| MissingTechniqueNameError.

Definition blank (s : jsstring) : bool :=
  match trim s with [] => true | _ => false end.

Definition technique_name_blank (tech : object) : bool :=
  match tech !! "technique_name" with
  | Some (VStr s) => blank s
  | _ => false
  end.

(** The three checks in their order; [None] when all pass. *)
Definition validate (e : Experiment) : option validation_error :=
  if blank (experiment_name e) then Some MissingNameError
  else if (length (techniques e) <? 2)%nat then Some InsufficientTechniquesError
  else if existsb technique_name_blank (techniques e)
       then Some MissingTechniqueNameError
       else None.

(** The text each failed check shows. *)
Definition error_alert (err : validation_error) : jsstring :=
  match err with
  | MissingNameError => lit "กรุณาใส่ชื่อการทดลอง"
  | InsufficientTechniquesError => lit "กรุณาเพิ่มข้อมูลอย่างน้อย 2 เทคนิค"
  | MissingTechniqueNameError => lit "กรุณาเลือกชื่อเทคนิคให้ครบทุกรายการ"
  end.

Definition is_request (e : event) : bool :=
  match e with
  | axios_post _ => true
  | _ => false
  end.

End App.

(** ** The statistics service *)

Module Engine.
Import JS.
#[local] Open Scope Q_scope.

(** Modelled from the spec: the data model of section 3. The service
    behind [POST /api/experiments] is not among the client sources. *)
Record ConfusionMatrix := {
  true_positive : Z;
  false_positive : Z;
  false_negative : Z;
  true_negative : Z
}.

(** Modelled from the spec: [TechniqueInput] of section 3; the confidence
    level is any rational in (0, 1). *)
Record TechniqueInput := {
  technique_name : jsstring;
  matrix : ConfusionMatrix;
  confidence_level : Q
}.

(** Modelled from the spec: the qualitative labels of section 4.1. *)
Inductive interpretation_label :=
| poor | slight | fair | moderate | substantial | almost_perfect.

(** Modelled from the spec: [MetricResult] of section 3, with exact
    rationals for the proportions. *)
Record MetricResult := {
  sensitivity : Q;
  specificity : Q;
  ppv : Q;
  npv : Q;
  accuracy : Q;
  prevalence : Q;
  sensitivity_ci : Q * Q;
  specificity_ci : Q * Q;
  ppv_ci : Q * Q;
  npv_ci : Q * Q;
  cohen_kappa : Q;
  cohen_kappa_ci : Q * Q;
  interpretation : interpretation_label
}.

(** Modelled from the spec: one entry of the ordered per-technique sequence
    of [ExperimentResult]. *)
Record TechniqueResult := {
  result_name : jsstring;
  stats : MetricResult
}.

(** Modelled from the spec: the comparison summary of section 3. *)
Record ComparisonSummary := {
  best_sensitivity : jsstring;
  best_specificity : jsstring;
  best_accuracy : jsstring;
  best_kappa : jsstring
}.

(** Modelled from the spec: [ExperimentResult] of section 3. *)
Record ExperimentResult := {
  result_experiment_name : jsstring;
  result_description : jsstring;
  techniques_results : list TechniqueResult;
  comparison_summary : ComparisonSummary
}.

(** Modelled from the spec: the error taxonomy of section 7. *)
Inductive error :=
| MissingNameError
| InsufficientTechniquesError
| MissingTechniqueNameError (index : nat)
| InvalidMatrixError (index : nat).

(** Modelled from the spec: the total sample size N of section 3. *)
Definition total (m : ConfusionMatrix) : Z :=
  (true_positive m + false_positive m + false_negative m + true_negative m)%Z.

(** Modelled from the spec: the matrix invariant of section 3, every count
    at least 0 and N > 0. *)
Definition valid_matrix (m : ConfusionMatrix) : bool :=
  ((0 <=? true_positive m) && (0 <=? false_positive m)
   && (0 <=? false_negative m) && (0 <=? true_negative m)
   && (0 <? total m))%Z.

(** Modelled from the spec: a point estimate [k/n], 0.0 when the
    denominator is 0 (section 4.1, zero-denominator policy). *)
Definition proportion (k n : Z) : Q :=
  if (n =? 0)%Z then 0 else Qred (inject_Z k / inject_Z n).

(** [a < b] on rationals. *)
Definition Qltb (a b : Q) : bool := negb (Qle_bool b a).

(** Modelled from the spec: clamping an interval bound to [[lo, hi]]
    (section 4.1). *)
Definition clamp (lo hi x : Q) : Q :=
  if Qltb x lo then lo else if Qltb hi x then hi else x.

Section Calculator.
(** The real-valued ingredients the specification leaves to the
    implementation: the two-sided critical value of a confidence level,
    the square root, and the standard error of kappa (section 9 leaves
    its formula open). *)
Variable z_critical : Q -> Q.
Variable sqrtQ : Q -> Q.
Variable kappa_standard_error : ConfusionMatrix -> Q.

(** Modelled from the spec: the Wilson score interval of section 4.1 for
    [k] successes out of [n], [[0.0, 0.0]] when [n] is 0. *)
Definition wilson_interval (k n : Z) (z : Q) : Q * Q :=
  if (n =? 0)%Z then (0, 0)
  else
    let p := inject_Z k / inject_Z n in
    let nq := inject_Z n in
    let denom := 1 + z * z / nq in
    let center := (p + z * z / (2 * nq)) / denom in
    let half := z * sqrtQ (p * (1 - p) / nq + z * z / (4 * nq * nq))
                / denom in
    (clamp 0 1 (center - half), clamp 0 1 (center + half)).

(** Modelled from the spec: the expected agreement by chance [p_e] of
    section 4.1. *)
Definition expected_agreement (m : ConfusionMatrix) : Q :=
  let N := inject_Z (total m) in
  let TP := inject_Z (true_positive m) in
  let FP := inject_Z (false_positive m) in
  let FN := inject_Z (false_negative m) in
  let TN := inject_Z (true_negative m) in
  ((TP + FP) / N) * ((TP + FN) / N) + ((FN + TN) / N) * ((FP + TN) / N).

(** Modelled from the spec: kappa is [(p_o - p_e) / (1 - p_e)], and 0.0
    when [p_e] is 1 (section 4.1). *)
Definition kappa (m : ConfusionMatrix) : Q :=
  let p_o := inject_Z (true_positive m + true_negative m)
             / inject_Z (total m) in
  let p_e := expected_agreement m in
  if Qeq_bool p_e 1 then 0 else Qred ((p_o - p_e) / (1 - p_e)).

(** Modelled from the spec: the Landis-Koch bands of section 4.1, each
    inclusive on its lower edge. *)
Definition interpret (k : Q) : interpretation_label :=
  if Qltb k 0 then poor
  else if Qltb k (2 # 10) then slight
  else if Qltb k (4 # 10) then fair
  else if Qltb k (6 # 10) then moderate
  else if Qltb k (8 # 10) then substantial
  else almost_perfect.

(** Modelled from the spec: [compute(matrix, confidence_level)] of
    section 4.1; [None] is [InvalidMatrixError]. *)
Definition compute (m : ConfusionMatrix) (level : Q) : option MetricResult :=
  if valid_matrix m then
    let TP := true_positive m in
    let FP := false_positive m in
    let FN := false_negative m in
    let TN := true_negative m in
    let z := z_critical level in
    let k := kappa m in
    let se := kappa_standard_error m in
    Some {| sensitivity := proportion TP (TP + FN);
            specificity := proportion TN (TN + FP);
            ppv := proportion TP (TP + FP);
            npv := proportion TN (TN + FN);
            accuracy := proportion (TP + TN) (total m);
            prevalence := proportion (TP + FN) (total m);
            sensitivity_ci := wilson_interval TP (TP + FN) z;
            specificity_ci := wilson_interval TN (TN + FP) z;
            ppv_ci := wilson_interval TP (TP + FP) z;
            npv_ci := wilson_interval TN (TN + FN) z;
            cohen_kappa := k;
            cohen_kappa_ci :=
              (clamp (-1) 1 (k - z * se), clamp (-1) 1 (k + z * se));
            interpretation := interpret k |}
  else None.

(** Modelled from the spec: the calculator runs once per technique in
    submission order (section 4.2); the first invalid matrix stops it
    with its index. *)
Fixpoint compute_all (index : nat) (techniques : list TechniqueInput)
    : nat + list TechniqueResult :=
  match techniques with
  | [] => inr []
  | t :: rest =>
      match compute (matrix t) (confidence_level t) with
      | None => inl index
      | Some r =>
          match compute_all (S index) rest with
          | inl i => inl i
          | inr rs =>
              inr ({| result_name := technique_name t; stats := r |} :: rs)
          end
      end
  end.

(** Modelled from the spec: section 4.3, the technique with the strictly
    greatest value, the earliest one on a tie. [current] is the best of
    the techniques already seen. *)
Fixpoint best_from (metric : TechniqueResult -> Q)
    (current : TechniqueResult) (rest : list TechniqueResult)
    : TechniqueResult :=
  match rest with
  | [] => current
  | r :: rest' =>
      best_from metric
        (if Qltb (metric current) (metric r) then r else current) rest'
  end.

(** Modelled from the spec: the name a field of the comparison summary
    holds (section 4.3). *)
Definition best (metric : TechniqueResult -> Q)
    (rs : list TechniqueResult) : jsstring :=
  match rs with
  | [] => []
  | r :: rest => result_name (best_from metric r rest)
  end.

(** Modelled from the spec: the four fields of the comparison summary
    (section 3). *)
Definition summarize (rs : list TechniqueResult) : ComparisonSummary :=
  {| best_sensitivity := best (fun r => sensitivity (stats r)) rs;
     best_specificity := best (fun r => specificity (stats r)) rs;
     best_accuracy := best (fun r => accuracy (stats r)) rs;
     best_kappa := best (fun r => cohen_kappa (stats r)) rs |}.

(** Modelled from the spec: the third check of section 4.2, as the position
    of the first technique whose name is blank after trimming. *)
Fixpoint first_blank_name (index : nat) (techniques : list TechniqueInput)
    : option nat :=
  match techniques with
  | [] => None
  | t :: rest =>
      match trim (technique_name t) with
      | [] => Some index
      | _ => first_blank_name (S index) rest
      end
  end.

(** Modelled from the spec: [evaluate] of section 4.2, the three checks
    in order, then the calculator, then the summary. *)
Definition evaluate (experiment_name description : jsstring)
    (techniques : list TechniqueInput) : error + ExperimentResult :=
  match trim experiment_name with
  | [] => inl MissingNameError
  | _ =>
      if (length techniques <? 2)%nat then inl InsufficientTechniquesError
      else
        match first_blank_name 0 techniques with
        | Some i => inl (MissingTechniqueNameError i)
        | None =>
            match compute_all 0 techniques with
            | inl i => inl (InvalidMatrixError i)
            | inr rs =>
                inr {| result_experiment_name := experiment_name;
                       result_description := description;
                       techniques_results := rs;
                       comparison_summary := summarize rs |}
            end
        end
  end.

End Calculator.

(** [name] is the name of the first technique of [rs] whose [metric] is
    the greatest: no technique has a greater value and every technique
    before it has a strictly smaller one. *)
Definition first_greatest (metric : TechniqueResult -> Q)
    (rs : list TechniqueResult) (name : jsstring) : Prop :=
  exists (i : nat) (r : TechniqueResult),
    rs !! i = Some r /\ name = result_name r
    /\ (forall j r', rs !! j = Some r' -> metric r' <= metric r)
    /\ (forall j r', (j < i)%nat -> rs !! j = Some r' -> metric r' < metric r).

End Engine.

(** ** Sample data *)

Module Samples.
Import JS App.

Definition three_techniques : Experiment :=
  {| experiment_name := lit "x"; description := lit "";
     techniques := [new_technique; ∅; new_technique] |}.

(** The form after one click on the add button. *)
Definition one_fresh : Experiment :=
  addTechnique {| experiment_name := lit ""; description := lit "";
                  techniques := [] |}.

(** 309 nines: an integer literal above the largest binary64 number. *)
Definition nines_309 : jsstring := repeat 57%N 309.

(** The form after a click on the add button and the choice of 99%. *)
Definition added_then_99 : AppState unit :=
  state_after (handle (select_confidence_level 0 (lit "0.99")))
    (state_after (handle click_addTechnique) initial).

(** A technique as the form holds it once a name is chosen. *)
Definition named (name : string) : object :=
  <["technique_name" := VStr (lit name)]> new_technique.

Definition form (e : Experiment) : AppState nat :=
  {| activeTab := lit "input"; experiments := [];
     currentExperiment := e; loading := false; results := Some 7%nat |}.

(** A blank name, a single technique, and that one without a name. *)
Definition nothing_filled : Experiment :=
  {| experiment_name := lit "  "; description := lit "";
     techniques := [new_technique] |}.

Definition single_technique : Experiment :=
  {| experiment_name := lit "run 1"; description := lit "";
     techniques := [named "qPCR"] |}.

Definition unnamed_technique : Experiment :=
  {| experiment_name := lit "run 1"; description := lit "";
     techniques := [named "qPCR"; new_technique] |}.

Definition complete : Experiment :=
  {| experiment_name := lit "run 1"; description := lit "";
     techniques := [named "qPCR"; named "RPA"] |}.

Definition refusing : Service nat :=
  {| post_experiments := fun _ =>
       rejected {| response_data_detail := Some (JString (lit "Invalid matrix"));
                   message := lit "Request failed with status code 400" |};
     get_experiments := resolved [] |}.

Definition answering : Service nat :=
  {| post_experiments := fun _ => resolved 8%nat;
     get_experiments := resolved [8%nat] |}.

End Samples.

Module EngineSamples.
Import JS.
#[local] Open Scope Q_scope.

(** The critical values of the three supported levels; 1.96 stands in for
    the quantile at any other level. *)
Definition z_presets (level : Q) : Q :=
  if Qeq_bool level (90 # 100) then 1645 # 1000
  else if Qeq_bool level (99 # 100) then 2576 # 1000
  else 196 # 100.

(** A square root to eight decimals. *)
Definition sqrt_8 (q : Q) : Q :=
  Z.sqrt (Qnum q * 10 ^ 16 / Z.pos (Qden q))%Z # 10 ^ 8.

(** The large-sample standard error [sqrt (p_o (1 - p_o) / (N (1 - p_e)^2))]. *)
Definition kappa_se (m : Engine.ConfusionMatrix) : Q :=
  let N := inject_Z (Engine.total m) in
  let p_o := inject_Z (Engine.true_positive m + Engine.true_negative m) / N in
  let p_e := Engine.expected_agreement m in
  sqrt_8 (p_o * (1 - p_o) / (N * (1 - p_e) * (1 - p_e))).

Definition only_true_positives : Engine.ConfusionMatrix :=
  {| Engine.true_positive := 5%Z; Engine.false_positive := 0%Z;
     Engine.false_negative := 0%Z; Engine.true_negative := 0%Z |}.

(** The two techniques of the end-to-end example of the specification. *)
Definition qPCR_and_RPA : list Engine.TechniqueInput :=
  [ {| Engine.technique_name := lit "qPCR";
       Engine.matrix := {| Engine.true_positive := 90%Z;
                           Engine.false_positive := 5%Z;
                           Engine.false_negative := 10%Z;
                           Engine.true_negative := 95%Z |};
       Engine.confidence_level := 95 # 100 |};
    {| Engine.technique_name := lit "RPA";
       Engine.matrix := {| Engine.true_positive := 80%Z;
                           Engine.false_positive := 15%Z;
                           Engine.false_negative := 20%Z;
                           Engine.true_negative := 85%Z |};
       Engine.confidence_level := 95 # 100 |} ].

Definition evaluated :=
  Engine.evaluate z_presets sqrt_8 kappa_se (lit "qPCR vs RPA") (lit "")
    qPCR_and_RPA.

End EngineSamples.

(** ** The radar chart of the results tab *)

Module Charts.
Import JS.

(** The response of the service as the results tab reads it: per technique
    a name, the proportions under [stats] and [cohen_kappa], all numbers. *)
Record Stats := {
  sensitivity : number;
  specificity : number;
  ppv : number;
  npv : number;
  accuracy : number
}.

Record TechniqueResult := {
  technique_name : jsstring;
  stats : Stats;
  cohen_kappa : number
}.

Record Results := {
  techniques_results : list TechniqueResult
}.

(** A property of a row of chart data: the label under [metric] or the
    value of a technique. *)
Inductive cell :=
| Label (s : jsstring)
| Value (v : number).

(** [x * y] *)
Definition times (x y : number) : number := SFmul prec emax x y.

(** [const metrics = ['Sensitivity', 'Specificity', 'Accuracy', 'Kappa']] *)
Definition metrics : list jsstring :=
  [lit "Sensitivity"; lit "Specificity"; lit "Accuracy"; lit "Kappa"].

(** [let value = 0; switch (metric) { ... }] *)
Definition radar_value (metric : jsstring) (tech : TechniqueResult) : number :=
  if decide (metric = lit "Sensitivity")
  then times (sensitivity (stats tech)) (of_Z 100)
  else if decide (metric = lit "Specificity")
  then times (specificity (stats tech)) (of_Z 100)
  else if decide (metric = lit "Accuracy")
  then times (accuracy (stats tech)) (of_Z 100)
  else if decide (metric = lit "Kappa")
  then times (cohen_kappa tech) (of_Z 100)
  else of_Z 0.

(** [data[key] = value] for a number [value]: an assignment to [__proto__]
    goes to the setter of [Object.prototype], which ignores a number and
    creates no property; any other key becomes an own property. *)
Definition assign (data : gmap jsstring cell) (key : jsstring) (v : number)
    : gmap jsstring cell :=
  if decide (key = lit "__proto__") then data else <[key := Value v]> data.

(** [const data = { metric }; techniques_results.forEach(tech => {
    data[tech.technique_name] = value })]; a row is the own properties of
    [data]. *)
Definition radar_row (techs : list TechniqueResult) (metric : jsstring)
    : gmap jsstring cell :=
  foldl (fun data tech =>
           assign data (technique_name tech) (radar_value metric tech))
    {[ lit "metric" := Label metric ]} techs.

Definition prepareRadarData (results : option Results)
    : list (gmap jsstring cell) :=
  match results with
  | None => []
  | Some r => map (radar_row (techniques_results r)) metrics
  end.

(** The technique whose value a row shows under [name]: the last one of
    that name. *)
Definition last_named (name : jsstring) (techs : list TechniqueResult)
    : option TechniqueResult :=
  last (filter (fun tech => technique_name tech = name) techs).

(** The value of a technique for the row at position [k]. *)
Definition headline_value (k : nat) (tech : TechniqueResult) : number :=
  match k with
  | 0 => times (sensitivity (stats tech)) (of_Z 100)
  | 1 => times (specificity (stats tech)) (of_Z 100)
  | 2 => times (accuracy (stats tech)) (of_Z 100)
  | _ => times (cohen_kappa tech) (of_Z 100)
  end.

End Charts.

(** ** Notions the further properties speak of *)

Module Notions.
Import JS App.

(** A string of white space only (the empty string included). *)
Definition only_white_space (s : jsstring) : bool :=
  forallb is_str_white_space s.

Definition is_alert (e : event) : bool :=
  match e with
  | alert _ => true
  | _ => false
  end.

(** The code units [0] to [9]. *)
Definition is_decimal_digit (c : N) : bool :=
  ((48 <=? c) && (c <=? 57))%N.

(** The integer a string of decimal digits denotes. *)
Definition decimal_value (ds : jsstring) : Z :=
  fold_left (fun acc c => acc * 10 + (Z.of_N c - 48))%Z ds 0%Z.

(** The texts of the alerts among the effects, in order. *)
Definition alerts (t : list event) : list jsstring :=
  flat_map (fun e => match e with alert text => [text] | _ => [] end) t.

(** The bodies of the requests posted among the effects, in order. *)
Definition posted (t : list event) : list Experiment :=
  flat_map (fun e => match e with axios_post body => [body] | _ => [] end) t.

(** The property names of a technique. *)
Definition THREE_PROPERTIES : gset string :=
  {[ "technique_name"; "matrix"; "confidence_level" ]}.

(** The shape every technique of the form has: exactly the three
    properties, the name empty or one of the select, the matrix an object
    with exactly the four counts, each an integer or an infinity. *)
Definition form_shaped (tech : object) : Prop :=
  dom tech = THREE_PROPERTIES
  /\ (exists s, tech !! "technique_name" = Some (VStr s)
               /\ s ∈ lit "" :: AVAILABLE_TECHNIQUES)
  /\ (exists c, tech !! "confidence_level" = Some (VNum c))
  /\ (exists m, tech !! "matrix" = Some (VObj m)
               /\ dom m = list_to_set MATRIX_FIELDS
               /\ forall f, f ∈ MATRIX_FIELDS ->
                    exists n, m !! f = Some (VNum n) /\ whole n = true).

(** The state with another experiment in the form. *)
Definition with_current {Payload} (st : AppState Payload) (e : Experiment)
    : AppState Payload :=
  {| activeTab := activeTab st; experiments := experiments st;
     currentExperiment := e; loading := loading st; results := results st |}.

(** Whether a submission sends the request to the service. *)
Definition sends_request {Payload} (net : Service Payload)
    (st : AppState Payload) : bool :=
  existsb is_request (effects_of (submitExperiment net) st).

(** The state a submission leaves when the request was sent and answered
    with [data], and the list request with [listed]. *)
Definition shown {Payload} (st : AppState Payload) (data : Payload)
    (listed : list Payload) : AppState Payload :=
  {| activeTab := lit "results"; experiments := listed;
     currentExperiment := currentExperiment st; loading := false;
     results := Some data |}.

(** The state a submission leaves when the request was rejected. *)
Definition idle {Payload} (st : AppState Payload) : AppState Payload :=
  {| activeTab := activeTab st; experiments := experiments st;
     currentExperiment := currentExperiment st; loading := false;
     results := results st |}.

(** The text in front of the reason of a rejected request. *)
Definition FAILURE_PREFIX : jsstring := lit "เกิดข้อผิดพลาดในการคำนวณ: ".

(** What [Object.prototype.toString] answers for a plain object. *)
Definition OBJECT_TEXT : jsstring := lit "[object Object]".

End Notions.

Module MoreSamples.
Import JS App.

Definition two_fresh : Experiment := addTechnique Samples.one_fresh.

Definition qPCR_view : Charts.TechniqueResult :=
  {| Charts.technique_name := lit "qPCR";
     Charts.stats := {| Charts.sensitivity := of_decimal false 9 (-1);
                        Charts.specificity := of_decimal false 95 (-2);
                        Charts.ppv := of_decimal false 9 (-1);
                        Charts.npv := of_decimal false 9 (-1);
                        Charts.accuracy := of_decimal false 925 (-3) |};
     Charts.cohen_kappa := of_decimal false 85 (-2) |}.

Definition RPA_view : Charts.TechniqueResult :=
  {| Charts.technique_name := lit "RPA";
     Charts.stats := {| Charts.sensitivity := of_decimal false 8 (-1);
                        Charts.specificity := of_decimal false 85 (-2);
                        Charts.ppv := of_decimal false 8 (-1);
                        Charts.npv := of_decimal false 8 (-1);
                        Charts.accuracy := of_decimal false 825 (-3) |};
     Charts.cohen_kappa := of_decimal false 65 (-2) |}.

(** A service that rejects the submission with [detail] in the body of
    its response. *)
Definition rejecting_with (detail : option json) : Service nat :=
  {| post_experiments := fun _ =>
       rejected {| response_data_detail := detail;
                   message := lit "Request failed with status code 422" |};
     get_experiments := resolved [] |}.

(** The detail of a response to a body that fails validation: a list with
    one object per field. *)
Definition validation_errors : json :=
  JArray
    [JObject {[ "loc" := JArray [JString (lit "body");
                                 JString (lit "techniques");
                                 JNumber (of_Z 0)];
                "msg" := JString (lit "field required");
                "type" := JString (lit "value_error.missing") ]};
     JObject {[ "msg" := JString (lit "field required") ]}].

Definition mixed_list : json :=
  JArray [JNumber (of_decimal false 15 (-1)); JNull; JString (lit "a");
          JArray [JNumber (of_Z 2); JBool true]; JArray []].

(** An object whose own property [toString] hides the inherited method. *)
Definition unprintable : json := JObject {[ "toString" := JNull ]}.

(** A second run of qPCR under the same name. *)
Definition qPCR_again : Charts.TechniqueResult :=
  {| Charts.technique_name := lit "qPCR";
     Charts.stats := Charts.stats RPA_view;
     Charts.cohen_kappa := Charts.cohen_kappa RPA_view |}.

End MoreSamples.

(** * Properties *)

Import JS.

(** ** The built-ins on sample inputs *)

Example trim_sample : trim (lit "  run 1 ") = lit "run 1".
Proof. vm_compute. reflexivity. Qed.

Example trim_white_space_only :
  trim [0x9; 0x20; 0xA0; 0x3000; 0xA; 0xFEFF]%N = [].
Proof. vm_compute. reflexivity. Qed.

Example parseInt_samples :
  parseInt (lit " 42px") = of_Z 42
  /\ parseInt (lit "0x1F") = of_Z 31
  /\ parseInt (lit "1e3") = of_Z 1
  /\ parseInt (lit "-5") = of_Z (-5)
  /\ parseInt (lit "-0") = S754_zero true
  /\ parseInt (lit "") = NaN
  /\ parseInt (lit "abc") = NaN
  /\ parseInt (lit ".5") = NaN.
Proof. vm_compute. repeat split. Qed.

Example parseInt_or_0_samples :
  number_or (parseInt (lit "abc")) (of_Z 0) = of_Z 0
  /\ number_or (parseInt (lit "-0")) (of_Z 0) = of_Z 0
  /\ number_or (parseInt (lit "12")) (of_Z 0) = of_Z 12.
Proof. vm_compute. repeat split. Qed.

Example parseFloat_samples :
  parseFloat (lit "0.90") = of_decimal false 9 (-1)
  /\ parseFloat (lit "0.95") = of_decimal false 95 (-2)
  /\ parseFloat (lit "0.99") = of_decimal false 99 (-2)
  /\ parseFloat (lit "2.5e1") = of_Z 25
  /\ parseFloat (lit "-Infinity") = S754_infinity true
  /\ parseFloat (lit "e5") = NaN.
Proof. vm_compute. repeat split. Qed.

(** 0.95 is the binary64 number 0x3FEE666666666666. *)
Example literal_0_95 :
  of_decimal false 95 (-2) = S754_finite false 0x1E666666666666 (-53).
Proof. vm_compute. reflexivity. Qed.

Example Number_toString_samples :
  Number_toString (of_Z 422) = lit "422"
  /\ Number_toString (of_decimal false 95 (-2)) = lit "0.95"
  /\ Number_toString (of_decimal true 15 (-1)) = lit "-1.5"
  /\ Number_toString (S754_zero true) = lit "0"
  /\ Number_toString (of_decimal false 1 21) = lit "1e+21"
  /\ Number_toString (of_decimal false 1 20) = lit "100000000000000000000"
  /\ Number_toString (of_decimal false 1 (-6)) = lit "0.000001"
  /\ Number_toString (of_decimal false 1 (-7)) = lit "1e-7"
  /\ Number_toString (of_decimal false 5 (-324)) = lit "5e-324"
  /\ Number_toString (of_Z (2 ^ 53 + 1)) = lit "9007199254740992"
  /\ Number_toString (of_Z (OVERFLOW - 1)) = lit "1.7976931348623157e+308"
  /\ Number_toString (SFadd prec emax (of_decimal false 1 (-1))
                         (of_decimal false 2 (-1)))
     = lit "0.30000000000000004".
Proof. vm_compute. repeat split. Qed.

Example to_string_samples :
  to_string (JArray [JNumber (of_Z 1); JNull; JString (lit "a");
                     JArray [JBool true; JArray []]; JObject ∅])
  = Some (lit "1,,a,true,,[object Object]")
  /\ to_string (JArray []) = Some []
  /\ to_string (JArray [JArray [JObject {[ "toString" := JNumber (of_Z 1) ]}]])
     = None
  /\ to_string (JObject {[ "valueOf" := JNumber (of_Z 1) ]})
     = Some (lit "[object Object]")
  /\ to_boolean (JArray []) = true
  /\ to_boolean (JNumber (S754_zero true)) = false
  /\ to_boolean (JString (lit "0")) = true.
Proof. vm_compute. repeat split. Qed.

(** ** Binary64 rounding of integers *)


Section Binary64.
#[local] Open Scope Z_scope.

Lemma iter_xO_mul (d m : positive) :
  Z.pos (Pos.iter xO m d) = Z.pos m * 2 ^ Z.pos d.
Proof.
  induction d as [|d IH] using Pos.peano_ind.
  - simpl. lia.
  - rewrite Pos.iter_succ, Pos2Z.inj_succ, Z.pow_succ_r by lia.
    change (Z.pos (Pos.iter xO m d)~0) with (2 * Z.pos (Pos.iter xO m d)).
    rewrite IH. ring.
Qed.

Lemma iter_xO_digits (d m : positive) :
  Z.pos (digits2_pos (Pos.iter xO m d)) = Z.pos (digits2_pos m) + Z.pos d.
Proof.
  induction d as [|d IH] using Pos.peano_ind.
  - simpl. lia.
  - rewrite Pos.iter_succ. simpl digits2_pos. lia.
Qed.

(** A shift never lowers the exponent. *)
Lemma shr_exponent mrs e n : e <= snd (shr mrs e n).
Proof. destruct n; simpl; lia. Qed.

Lemma shr_fexp_exponent m e l : e <= snd (shr_fexp prec emax m e l).
Proof. apply shr_exponent. Qed.

Lemma iter_pos_invariant {A} (P : A -> Prop) (f : A -> A) (n : positive) :
  (forall x, P x -> P (f x)) -> forall x, P x -> P (SpecFloat.iter_pos f n x).
Proof.
  intros Hf. induction n as [n IH|n IH|]; simpl; intros x Hx; auto.
Qed.

Lemma shr_1_nonneg mrs : 0 <= shr_m mrs -> 0 <= shr_m (shr_1 mrs).
Proof.
  destruct mrs as [m r s]. simpl.
  destruct m as [|[p|p|]|[p|p|]]; simpl; lia.
Qed.

Lemma shr_nonneg mrs e n : 0 <= shr_m mrs -> 0 <= shr_m (fst (shr mrs e n)).
Proof.
  intros H. destruct n; simpl; [done | | done].
  apply (iter_pos_invariant (fun x => 0 <= shr_m x)); [apply shr_1_nonneg | done].
Qed.

Lemma shr_fexp_nonneg m e l :
  0 <= m -> 0 <= shr_m (fst (shr_fexp prec emax m e l)).
Proof.
  intros H. apply shr_nonneg. destruct l as [|[]]; done.
Qed.

Lemma round_nearest_even_nonneg m l : 0 <= m -> 0 <= round_nearest_even m l.
Proof.
  intros H. destruct l as [|[]]; simpl; try lia. destruct (Z.even m); lia.
Qed.

(** The result of rounding a non-negative mantissa: it keeps the sign and
    never has a smaller exponent. *)
Lemma binary_round_aux_cases s mx ex lx :
  0 <= mx ->
  match binary_round_aux prec emax s mx ex lx with
  | S754_zero s' => s' = s
  | S754_infinity s' => s' = s
  | S754_finite s' _ e => s' = s /\ ex <= e
  | S754_nan => False
  end.
Proof.
  intros Hmx. unfold binary_round_aux.
  pose proof (shr_fexp_exponent mx ex lx) as H1.
  pose proof (shr_fexp_nonneg mx ex lx Hmx) as N1.
  destruct (shr_fexp prec emax mx ex lx) as [mrs' e'].
  pose proof (shr_fexp_exponent
                (round_nearest_even (shr_m mrs') (loc_of_shr_record mrs'))
                e' loc_Exact) as H2.
  pose proof (shr_fexp_nonneg
                (round_nearest_even (shr_m mrs') (loc_of_shr_record mrs'))
                e' loc_Exact
                (round_nearest_even_nonneg _ _ N1)) as N2.
  destruct (shr_fexp prec emax _ e' loc_Exact) as [mrs'' e''].
  simpl in *. destruct (shr_m mrs''); [done | | lia].
  destruct (e'' <=? emax - prec); [| done]. split; [done | lia].
Qed.

Lemma digits2_pos_bound (m : positive) :
  2 ^ (Z.pos (digits2_pos m) - 1) <= Z.pos m < 2 ^ Z.pos (digits2_pos m).
Proof.
  induction m as [m IH|m IH|]; simpl digits2_pos.
  - rewrite Pos2Z.inj_succ, Z.pow_succ_r by lia.
    replace (Z.succ (Z.pos (digits2_pos m)) - 1) with (Z.succ (Z.pos (digits2_pos m) - 1)) by lia.
    rewrite Z.pow_succ_r by lia. lia.
  - rewrite Pos2Z.inj_succ, Z.pow_succ_r by lia.
    replace (Z.succ (Z.pos (digits2_pos m)) - 1) with (Z.succ (Z.pos (digits2_pos m) - 1)) by lia.
    rewrite Z.pow_succ_r by lia. lia.
  - simpl. lia.
Qed.

(** Rounding a mantissa that already fits: nothing is shifted out. *)
Lemma binary_round_aux_fits s (m : positive) e :
  fexp prec emax (Z.pos (digits2_pos m) + e) = e -> e <= emax - prec ->
  binary_round_aux prec emax s (Z.pos m) e loc_Exact = S754_finite s m e.
Proof.
  intros Hfexp Hmax. unfold binary_round_aux, shr_fexp.
  simpl Zdigits2. rewrite Hfexp, Z.sub_diag. simpl.
  rewrite Hfexp, Z.sub_diag. simpl.
  apply Z.leb_le in Hmax. unfold emax, prec in *. now rewrite Hmax.
Qed.

Lemma binary_round_small s (m : positive) :
  Z.pos m < 2 ^ 53 ->
  exists m' e, binary_round prec emax s m 0 = S754_finite s m' e
               /\ e <= 0 /\ Z.pos m' = Z.pos m * 2 ^ (- e).
Proof.
  intros Hm. pose proof (digits2_pos_bound m) as [Hlo _].
  assert (Hd : Z.pos (digits2_pos m) <= 53).
  { destruct (Z.le_gt_cases (Z.pos (digits2_pos m)) 53) as [|Hgt]; [done|].
    assert (2 ^ 53 <= 2 ^ (Z.pos (digits2_pos m) - 1)) by (apply Z.pow_le_mono_r; lia).
    lia. }
  unfold binary_round, shl_align.
  assert (Hf : fexp prec emax (Z.pos (digits2_pos m) + 0) = Z.pos (digits2_pos m) - 53).
  { unfold fexp, emin, prec, emax. lia. }
  rewrite Hf.
  destruct (Z.pos (digits2_pos m) - 53 - 0) as [|p|p] eqn:Hdiff; [| lia |].
  - exists m, 0. split; [| split; [lia | simpl; lia]].
    apply binary_round_aux_fits; [| unfold emax, prec; lia].
    rewrite Hf. lia.
  - exists (Pos.iter xO m p), (Z.pos (digits2_pos m) - 53).
    split; [| split; [lia |]].
    + apply binary_round_aux_fits; [| unfold emax, prec; lia].
      rewrite iter_xO_digits. unfold fexp, emin, prec, emax. lia.
    + rewrite iter_xO_mul. f_equal. f_equal. lia.
Qed.

Lemma integer_value_scaled s (m' : positive) e (v : Z) :
  e <= 0 -> Z.pos m' = v * 2 ^ (- e) ->
  integer_value (S754_finite s m' e) = Some (if s then - v else v).
Proof.
  intros He Hm. unfold integer_value.
  destruct (0 <=? e) eqn:H0.
  - apply Z.leb_le in H0. assert (e = 0) as -> by lia.
    simpl in *. simpl. f_equal. destruct s; lia.
  - rewrite Hm, Z.mod_mul by (apply Z.pow_nonzero; lia). simpl.
    rewrite Z.div_mul by (apply Z.pow_nonzero; lia). done.
Qed.

(** Integers below 2^53 in magnitude are represented exactly. *)
Lemma of_Z_exact (z : Z) :
  Z.abs z < 2 ^ 53 -> integer_value (of_Z z) = Some z.
Proof.
  intros Hz. destruct z as [|m|m]; [done | |].
  - destruct (binary_round_small false m) as (m' & e & Hr & He & Hm); [lia|].
    unfold of_Z, binary_normalize. rewrite Hr.
    now rewrite (integer_value_scaled false m' e (Z.pos m)).
  - destruct (binary_round_small true m) as (m' & e & Hr & He & Hm); [lia|].
    unfold of_Z, binary_normalize. rewrite Hr.
    now rewrite (integer_value_scaled true m' e (Z.pos m)).
Qed.

Lemma binary_round_whole s (m : positive) :
  let x := binary_round prec emax s m 0 in
  (is_integer x || is_infinite x = true) /\
  match x with
  | S754_zero s' | S754_infinity s' | S754_finite s' _ _ => s' = s
  | S754_nan => False
  end.
Proof.
  destruct (Z.lt_ge_cases (Z.pos m) (2 ^ 53)) as [Hsmall|Hbig].
  - destruct (binary_round_small s m Hsmall) as (m' & e & Hr & He & Hm).
    simpl. rewrite Hr. split; [|done].
    unfold is_integer. now rewrite (integer_value_scaled s m' e (Z.pos m)).
  - simpl. unfold binary_round, shl_align.
    pose proof (digits2_pos_bound m) as [_ Hhi].
    assert (Hd : 53 < Z.pos (digits2_pos m)).
    { destruct (Z.lt_ge_cases 53 (Z.pos (digits2_pos m))) as [|Hle]; [done|].
      assert (2 ^ Z.pos (digits2_pos m) <= 2 ^ 53) by (apply Z.pow_le_mono_r; lia).
      lia. }
    assert (Hf : fexp prec emax (Z.pos (digits2_pos m) + 0) = Z.pos (digits2_pos m) - 53).
    { unfold fexp, emin, prec, emax. lia. }
    rewrite Hf.
    destruct (Z.pos (digits2_pos m) - 53 - 0) as [|p|p] eqn:Hdiff; [lia | | lia].
    pose proof (binary_round_aux_cases s (Z.pos m) 0 loc_Exact) as Hc.
    destruct (binary_round_aux prec emax s (Z.pos m) 0 loc_Exact)
      as [s'|s'| |s' m' e'].
    all: specialize (Hc ltac:(lia)).
    + done.
    + done.
    + done.
    + destruct Hc as [-> He]. split; [|done].
      unfold is_integer, integer_value.
      apply Z.leb_le in He. now rewrite He.
Qed.

Lemma of_Z_whole (z : Z) : is_integer (of_Z z) || is_infinite (of_Z z) = true.
Proof.
  destruct z as [|m|m]; [done | |]; apply binary_round_whole.
Qed.

Lemma of_Z_nonneg (z : Z) : 0 <= z -> is_negative (of_Z z) = false.
Proof.
  intros Hz. destruct z as [|m|m]; [done | | lia].
  pose proof (binary_round_whole false m) as [_ Hs]. simpl in Hs.
  unfold of_Z, binary_normalize.
  destruct (binary_round prec emax false m 0) as [s'|s'| |s' m' e'];
    [done | | done | ]; subst; done.
Qed.
(** *** Integers of 2^53 and more: where rounding ends in an infinity *)

(** One shift halves the mantissa and remembers the bit that fell out. *)
Lemma shr_1_spec mrs :
  0 <= shr_m mrs ->
  shr_m (shr_1 mrs) = shr_m mrs / 2 /\ shr_r (shr_1 mrs) = Z.odd (shr_m mrs).
Proof.
  destruct mrs as [m r s]. cbn [shr_m]. intros Hm.
  destruct m as [|[p|p|]|p]; [done | | | done | lia]; cbn [shr_1 shr_m shr_r].
  - split; [|done]. apply (Z.div_unique _ _ _ 1); lia.
  - split; [|done]. apply (Z.div_unique _ _ _ 0); lia.
Qed.

Lemma shifted_nonneg k x y : 0 < k -> shifted k x y -> 0 <= shr_m y.
Proof.
  intros Hk (Hx & -> & _). apply Z.div_pos; [done|]. apply Z.pow_pos_nonneg; lia.
Qed.

Lemma shifted_trans a b x y z :
  0 < a -> 0 < b -> shifted a x y -> shifted b y z -> shifted (a + b) x z.
Proof.
  intros Ha Hb (Hx & Hm & Hr) (Hy & Hm' & Hr'). split; [done|].
  rewrite Hm', Hr', Hm. split.
  - rewrite Z.pow_add_r, Z.div_div by (try apply Z.pow_pos_nonneg; lia). done.
  - replace (a + b - 1) with (a + (b - 1)) by lia.
    rewrite Z.pow_add_r, Z.div_div by (try apply Z.pow_pos_nonneg; lia). done.
Qed.

Lemma shifted_1 x : 0 <= shr_m x -> shifted 1 x (shr_1 x).
Proof.
  intros Hx. destruct (shr_1_spec x Hx) as [Hm Hr]. split; [done|].
  rewrite Hm, Hr. split; [done|]. cbn. by rewrite Z.div_1_r.
Qed.

Lemma iter_shr_1_shifted (n : positive) x :
  0 <= shr_m x -> shifted (Z.pos n) x (SpecFloat.iter_pos shr_1 n x).
Proof.
  revert x. induction n as [n IH|n IH|]; intros x Hx; cbn [SpecFloat.iter_pos].
  - pose proof (shifted_1 x Hx) as H1.
    pose proof (shifted_nonneg 1 _ _ ltac:(lia) H1) as Hy.
    pose proof (IH _ Hy) as H2.
    pose proof (shifted_nonneg (Z.pos n) _ _ ltac:(lia) H2) as Hz.
    pose proof (IH _ Hz) as H3.
    replace (Z.pos n~1) with (1 + Z.pos n + Z.pos n) by lia.
    eapply shifted_trans; [lia | lia | | exact H3].
    eapply shifted_trans; [lia | lia | exact H1 | exact H2].
  - pose proof (IH _ Hx) as H2.
    pose proof (shifted_nonneg (Z.pos n) _ _ ltac:(lia) H2) as Hz.
    pose proof (IH _ Hz) as H3.
    replace (Z.pos n~0) with (Z.pos n + Z.pos n) by lia.
    eapply shifted_trans; [lia | lia | exact H2 | exact H3].
  - by apply shifted_1.
Qed.

Lemma digits2_pos_unique (m : positive) (k : Z) :
  2 ^ (k - 1) <= Z.pos m < 2 ^ k -> Z.pos (digits2_pos m) = k.
Proof.
  intros [Hlo Hhi]. pose proof (digits2_pos_bound m) as [Hlo' Hhi'].
  assert (0 < k).
  { destruct (Z.lt_ge_cases 0 k) as [|Hk]; [done|].
    destruct (Z.eq_dec k 0) as [->|]; [simpl in Hhi; lia|].
    rewrite Z.pow_neg_r in Hhi by lia. lia. }
  assert (k - 1 < Z.pos (digits2_pos m)).
  { apply (Z.pow_lt_mono_r_iff 2); lia. }
  assert (Z.pos (digits2_pos m) - 1 < k).
  { apply (Z.pow_lt_mono_r_iff 2); lia. }
  lia.
Qed.

(** What the rounding does to the round bit. *)
Lemma round_nearest_even_carry mrs :
  let q := shr_m mrs in
  let q' := round_nearest_even q (loc_of_shr_record mrs) in
  q <= q' <= q + 1
  /\ (shr_r mrs = false -> q' = q)
  /\ (shr_r mrs = true -> Z.odd q = true -> q' = q + 1).
Proof.
  destruct mrs as [q [|] [|]]; cbn; rewrite <- ?Z.negb_odd;
    destruct (Z.odd q); cbn; repeat split; intros; try lia; done.
Qed.

(** The second shift of [binary_round_aux], on a mantissa of 53 digits or
    on 2^53. *)
Lemma binary_round_aux_end (q' p : Z) :
  0 < p -> 2 ^ 52 <= q' <= 2 ^ 53 ->
  exists m'' e'',
    shr_fexp prec emax q' p loc_Exact
    = ({| shr_m := Z.pos m''; shr_r := false; shr_s := false |}, e'')
    /\ e'' = if q' <? 2 ^ 53 then p else p + 1.
Proof.
  intros Hp Hq. destruct q' as [|x|x]; [lia | | lia].
  unfold shr_fexp. cbn [Zdigits2 shr_record_of_loc].
  destruct (Z.ltb_spec (Z.pos x) (2 ^ 53)) as [Hlt|Hge].
  - rewrite (digits2_pos_unique x 53) by (change (53 - 1) with 52; lia).
    replace (fexp prec emax (53 + p) - p) with 0
      by (unfold fexp, emin, prec, emax; lia).
    exists x, p. done.
  - assert (Z.pos x = 2 ^ 53) as Hx by lia.
    assert (x = Z.to_pos (2 ^ 53)) as -> by lia.
    change (Z.pos (digits2_pos (Z.to_pos (2 ^ 53)))) with 54.
    replace (fexp prec emax (54 + p) - p) with 1
      by (unfold fexp, emin, prec, emax; lia).
    exists (Z.to_pos (2 ^ 52)), (p + 1). done.
Qed.

(** An integer of 54 digits or more is rounded to a number of its sign or
    to the infinity of its sign, by the exponent [e] the rounding ends
    with. *)
Lemma binary_round_large s (m : positive) :
  2 ^ 53 <= Z.pos m ->
  exists m' e,
    binary_round prec emax s m 0
    = (if e <=? emax - prec then S754_finite s m' e else S754_infinity s)
    /\ (971 < e <-> OVERFLOW <= Z.pos m).
Proof.
  intros Hbig. unfold binary_round, shl_align.
  pose proof (digits2_pos_bound m) as [Hlo Hhi].
  set (d := Z.pos (digits2_pos m)) in *.
  assert (Hd : 53 < d).
  { destruct (Z.lt_ge_cases 53 d) as [|Hle]; [done|].
    assert (2 ^ d <= 2 ^ 53) by (apply Z.pow_le_mono_r; lia). lia. }
  assert (Hf : fexp prec emax (d + 0) = d - 53).
  { unfold fexp, emin, prec, emax. lia. }
  rewrite Hf.
  destruct (d - 53 - 0) as [|p|p] eqn:Hdiff; [lia | | lia].
  unfold binary_round_aux.
  set (x := {| shr_m := Z.pos m; shr_r := false; shr_s := false |}).
  assert (H1 : shr_fexp prec emax (Z.pos m) 0 loc_Exact
               = (SpecFloat.iter_pos shr_1 p x, 0 + Z.pos p)).
  { unfold shr_fexp. cbn [Zdigits2 shr_record_of_loc]. fold d.
    rewrite Hf, Hdiff. reflexivity. }
  rewrite H1. clear H1.
  destruct (iter_shr_1_shifted p x) as (_ & Hq & Hr); [done|].
  set (mrs := SpecFloat.iter_pos shr_1 p x) in *.
  cbn [shr_m x] in Hq, Hr.
  assert (Hpow : 2 ^ (d - 1) = 2 ^ 52 * 2 ^ Z.pos p /\ 2 ^ d = 2 ^ 53 * 2 ^ Z.pos p).
  { rewrite <- !Z.pow_add_r by lia. split; f_equal; lia. }
  destruct Hpow as [Hpow1 Hpow2].
  assert (H2p : 0 < 2 ^ Z.pos p) by (apply Z.pow_pos_nonneg; lia).
  assert (Hqb : 2 ^ 52 <= shr_m mrs < 2 ^ 53).
  { rewrite Hq. split.
    - apply Z.div_le_lower_bound; lia.
    - apply Z.div_lt_upper_bound; lia. }
  destruct (round_nearest_even_carry mrs) as (Hq' & Hdown & Hup).
  set (q' := round_nearest_even (shr_m mrs) (loc_of_shr_record mrs)) in *.
  destruct (binary_round_aux_end q' (0 + Z.pos p)) as (m'' & e'' & -> & He'');
    [lia | lia |].
  cbn [shr_m]. exists m'', e''. split; [reflexivity|]. unfold OVERFLOW.
  destruct (Z.lt_trichotomy (Z.pos p) 971) as [Hp|[Hp|Hp]].
  - (* at most 1023 digits *)
    assert (2 ^ d <= 2 ^ 1023) by (apply Z.pow_le_mono_r; lia).
    assert (2 ^ 1023 < 2 ^ 1024 - 2 ^ 970) by done.
    destruct (q' <? 2 ^ 53); lia.
  - (* 1024 digits *)
    assert (d = 1024) as Hd1024 by lia.
    rewrite Hd1024 in *. rewrite Hp in *.
    set (h := Z.pos m / 2 ^ 970).
    assert (Hh : shr_m mrs = h / 2).
    { rewrite Hq. unfold h. rewrite Z.div_div by lia.
      change (2 ^ 970 * 2) with (2 ^ 971). done. }
    change (971 - 1) with 970 in Hr. fold h in Hr.
    assert (Hhb : h < 2 ^ 54).
    { unfold h. apply Z.div_lt_upper_bound; [done|].
      change (2 ^ 970 * 2 ^ 54) with (2 ^ 1024). lia. }
    assert (Hge : 2 ^ 1024 - 2 ^ 970 <= Z.pos m <-> 2 ^ 54 - 1 <= h).
    { unfold h. split; intros Hm.
      - apply Z.div_le_lower_bound; [done|].
        change (2 ^ 970 * (2 ^ 54 - 1)) with (2 ^ 1024 - 2 ^ 970). done.
      - change (2 ^ 1024 - 2 ^ 970) with (2 ^ 970 * (2 ^ 54 - 1)).
        pose proof (Z.mul_div_le (Z.pos m) (2 ^ 970) ltac:(done)).
        nia. }
    rewrite Hge. pose proof (Zdiv2_odd_eqn h) as Heq.
    rewrite Z.div2_div in Heq. rewrite <- Hh in Heq.
    destruct (shr_r mrs) eqn:Hrb.
    + rewrite <- Hr in Heq.
      destruct (Z.odd (shr_m mrs)) eqn:Hodd.
      * rewrite (Hup eq_refl eq_refl) in He''.
        destruct (Z.ltb_spec (shr_m mrs + 1) (2 ^ 53)); lia.
      * assert (shr_m mrs <> 2 ^ 53 - 1).
        { intros E. rewrite E in Hodd. done. }
        destruct (Z.ltb_spec q' (2 ^ 53)); lia.
    + rewrite <- Hr in Heq. rewrite (Hdown eq_refl) in He''.
      destruct (Z.ltb_spec (shr_m mrs) (2 ^ 53)); lia.
  - (* more than 1024 digits *)
    assert (2 ^ 1024 <= 2 ^ (d - 1)) by (apply Z.pow_le_mono_r; lia).
    destruct (q' <? 2 ^ 53); lia.
Qed.

Lemma binary_round_large_infinite s (m : positive) :
  2 ^ 53 <= Z.pos m ->
  is_infinite (binary_round prec emax s m 0) = true <-> OVERFLOW <= Z.pos m.
Proof.
  intros Hbig. destruct (binary_round_large s m Hbig) as (m' & e & -> & <-).
  unfold emax, prec. destruct (Z.leb_spec e (1024 - 53)); cbn; split; intros;
    try done; lia.
Qed.

(** An integer becomes an infinity exactly from [OVERFLOW] on, in
    magnitude, and the infinity has its sign. *)
Lemma of_Z_infinite (z : Z) :
  is_infinite (of_Z z) = true <-> OVERFLOW <= Z.abs z.
Proof.
  destruct (Z.lt_ge_cases (Z.abs z) (2 ^ 53)) as [Hsmall|Hbig].
  - pose proof (of_Z_exact z Hsmall) as Hex.
    assert (Z.abs z < OVERFLOW) by (unfold OVERFLOW; lia).
    destruct (of_Z z); cbn in *; split; intros; try done; lia.
  - destruct z as [|m|m]; [cbn in Hbig; lia | |];
      apply binary_round_large_infinite; lia.
Qed.

Lemma of_Z_infinity (z : Z) :
  OVERFLOW <= Z.abs z -> of_Z z = S754_infinity (z <? 0).
Proof.
  intros H. apply of_Z_infinite in H.
  destruct z as [|m|m]; [done | |].
  - pose proof (binary_round_whole false m) as [_ Hs]. cbn zeta in Hs.
    unfold of_Z, binary_normalize in *.
    destruct (binary_round prec emax false m 0); try done. by subst.
  - pose proof (binary_round_whole true m) as [_ Hs]. cbn zeta in Hs.
    unfold of_Z, binary_normalize in *.
    destruct (binary_round prec emax true m 0); try done. by subst.
Qed.

Lemma of_Z_integer (z : Z) :
  Z.abs z < OVERFLOW -> is_integer (of_Z z) = true.
Proof.
  intros H. pose proof (of_Z_whole z) as Hw.
  destruct (is_infinite (of_Z z)) eqn:Hinf.
  - apply of_Z_infinite in Hinf. lia.
  - by rewrite orb_false_r in Hw.
Qed.

Lemma of_Z_negative (z : Z) :
  z < 0 -> is_negative (of_Z z) = true /\ number_to_boolean (of_Z z) = true.
Proof.
  intros Hz. destruct (Z.lt_ge_cases (Z.abs z) (2 ^ 53)) as [Hsmall|Hbig].
  - pose proof (of_Z_exact z Hsmall) as Hex.
    destruct (of_Z z) as [s|s| |s m e]; cbn in Hex;
      [injection Hex; lia | done | done |].
    destruct s; [done|]. exfalso.
    destruct (0 <=? e); [cbn in Hex; injection Hex; lia|].
    destruct (_ =? 0); cbn in Hex; [|done]. injection Hex as Hex.
    assert (0 <= Z.pos m / 2 ^ (- e))
      by (apply Z_div_nonneg_nonneg; [lia | apply Z.pow_nonneg; lia]).
    lia.
  - destruct z as [|m|m]; [lia | lia |].
    destruct (binary_round_large true m ltac:(lia)) as (m' & e & Hr & _).
    unfold of_Z, binary_normalize. rewrite Hr. by destruct (e <=? _).
Qed.
End Binary64.
(** ** [parseInt] *)

Section ParseInt.
#[local] Open Scope Z_scope.

Lemma digit_value_nonneg c d : digit_value c = Some d -> 0 <= d.
Proof.
  unfold digit_value. intros H.
  repeat match type of H with
         | context [if ?b then _ else _] =>
             let E := fresh "E" in
             destruct b eqn:E;
             [apply andb_prop in E as [E _]; apply N.leb_le in E|]
         end; simplify_eq; lia.
Qed.

Lemma radix_digit_nonneg R c d : radix_digit R c = Some d -> 0 <= d.
Proof.
  unfold radix_digit. intros H.
  destruct (digit_value c) as [d'|] eqn:Hd; [|done].
  destruct (d' <? R); simplify_eq. by eapply digit_value_nonneg.
Qed.

Lemma parse_digits_nonneg R s acc z :
  0 <= R -> 0 <= default 0 acc ->
  parse_digits R s acc = Some z -> 0 <= z.
Proof.
  intros HR. revert acc. induction s as [|c s IH]; simpl; intros acc Hacc H.
  - subst. done.
  - destruct (radix_digit R c) as [d|] eqn:Hd.
    + apply (IH (Some (default 0 acc * R + d))); [|done].
      pose proof (radix_digit_nonneg _ _ _ Hd).
      change (0 <= default 0 acc * R + d). nia.
    + subst. done.
Qed.

Lemma numeral_sign (v : jsstring) sign n :
  numeral v = Some (sign, n) -> sign = has_minus_sign v /\ 0 <= n.
Proof.
  unfold numeral, has_minus_sign.
  set (str := match trim_start v with
              | 43%N :: rest | 45%N :: rest => rest
              | _ => trim_start v
              end).
  destruct (match str with
            | 48%N :: 120%N :: rest | 48%N :: 88%N :: rest => (16, rest)
            | _ => (10, str)
            end) as [R s'] eqn:HR.
  assert (0 <= R).
  { repeat match type of HR with
           | context [match ?x with _ => _ end] => destruct x
           end; simplify_eq; lia. }
  destruct (parse_digits R s' None) as [z|] eqn:Hz; [|done].
  intros ?; simplify_eq. split; [done|].
  by apply (parse_digits_nonneg R s' None).
Qed.

(** What [parseInt(value) || 0] is, from the numeral of the input. *)
Lemma parseInt_or_0_cases (v : jsstring) :
  number_or (parseInt v) (of_Z 0)
  = match numeral v with
    | None => of_Z 0
    | Some (sign, n) =>
        number_or (of_Z (if sign then - n else n)) (of_Z 0)
    end.
Proof.
  unfold parseInt. destruct (numeral v) as [[sign [|n|n]]|]; try done.
  by destruct sign.
Qed.

Lemma of_Z_or_0_whole (z : Z) : App.whole (number_or (of_Z z) (of_Z 0)) = true.
Proof.
  unfold number_or. destruct (number_to_boolean (of_Z z)); [|done].
  apply of_Z_whole.
Qed.

Lemma parseInt_or_0_whole (v : jsstring) :
  App.whole (number_or (parseInt v) (of_Z 0)) = true.
Proof.
  rewrite parseInt_or_0_cases. destruct (numeral v) as [[sign n]|]; [|done].
  apply of_Z_or_0_whole.
Qed.

Lemma parseInt_or_0_nonneg (v : jsstring) :
  has_minus_sign v = false ->
  is_negative (number_or (parseInt v) (of_Z 0)) = false.
Proof.
  intros H. rewrite parseInt_or_0_cases.
  destruct (numeral v) as [[sign n]|] eqn:Hn; [|done].
  apply numeral_sign in Hn as [-> Hn]. rewrite H.
  unfold number_or. destruct (number_to_boolean (of_Z n)); [|done].
  by apply of_Z_nonneg.
Qed.

(** Below 2^53 the stored number is the integer that was read. *)
Lemma parseInt_or_0_exact (v : jsstring) sign n :
  numeral v = Some (sign, n) -> n < 2 ^ 53 ->
  integer_value (number_or (parseInt v) (of_Z 0))
  = Some (if sign then - n else n).
Proof.
  intros Hv Hn. rewrite parseInt_or_0_cases, Hv.
  pose proof (numeral_sign v sign n Hv) as [_ H0].
  set (z := if sign then - n else n).
  assert (Hex : integer_value (of_Z z) = Some z).
  { apply of_Z_exact. subst z. destruct sign; lia. }
  unfold number_or. destruct (of_Z z) as [s| | |]; done.
Qed.

(** From [OVERFLOW] on the stored number is the infinity of the sign. *)
Lemma parseInt_or_0_infinity (v : jsstring) sign n :
  numeral v = Some (sign, n) -> OVERFLOW <= n ->
  number_or (parseInt v) (of_Z 0) = S754_infinity sign.
Proof.
  intros Hv Hn. rewrite parseInt_or_0_cases, Hv.
  assert (0 < OVERFLOW) by done.
  rewrite of_Z_infinity by (destruct sign; lia).
  destruct sign; cbn [number_or number_to_boolean].
  - by destruct (Z.ltb_spec (- n) 0); [|lia].
  - by destruct (Z.ltb_spec n 0); [lia|].
Qed.

(** Below [OVERFLOW] it is an integer. *)
Lemma parseInt_or_0_integer (v : jsstring) :
  App.within_range v = true ->
  is_integer (number_or (parseInt v) (of_Z 0)) = true.
Proof.
  unfold App.within_range. intros Hv. rewrite parseInt_or_0_cases.
  destruct (numeral v) as [[sign n]|] eqn:Hn; [|done].
  apply numeral_sign in Hn as [_ Hn]. apply Z.ltb_lt in Hv.
  unfold number_or. destruct (number_to_boolean _); [|done].
  apply of_Z_integer. destruct sign; lia.
Qed.

(** The stored number is an integer exactly for the inputs within range,
    and negative exactly for the inputs that denote a negative integer. *)
Lemma parseInt_or_0_is_integer (v : jsstring) :
  is_integer (number_or (parseInt v) (of_Z 0)) = App.within_range v.
Proof.
  destruct (App.within_range v) eqn:Hv; [by apply parseInt_or_0_integer|].
  unfold App.within_range in Hv.
  destruct (numeral v) as [[sign n]|] eqn:Hn; [|done].
  apply Z.ltb_ge in Hv. by rewrite (parseInt_or_0_infinity v sign n).
Qed.

Lemma parseInt_or_0_is_negative (v : jsstring) :
  is_negative (number_or (parseInt v) (of_Z 0)) = App.denotes_negative v.
Proof.
  unfold App.denotes_negative. rewrite parseInt_or_0_cases.
  destruct (numeral v) as [[sign n]|] eqn:Hn; [|done].
  apply numeral_sign in Hn as [_ Hn]. destruct sign.
  - destruct (Z.ltb_spec 0 n) as [Hpos|Hzero].
    + destruct (of_Z_negative (- n)) as [Hneg Htruthy]; [lia|].
      unfold number_or. by rewrite Htruthy.
    + by assert (n = 0) as -> by lia.
  - unfold number_or. destruct (number_to_boolean (of_Z n)); [|done].
    by apply of_Z_nonneg.
Qed.

End ParseInt.

(** ** The updaters of the technique list *)

Import App.

Section Updaters.

Lemma filter_from_all {A} (f : A -> nat -> bool) (l : list A) k :
  (forall x i, (k <= i)%nat -> f x i = true) -> filter_from k f l = l.
Proof.
  revert k. induction l as [|x l IH]; intros k H; simpl; [done|].
  rewrite H by lia. f_equal. apply IH. intros; apply H; lia.
Qed.

(** Filtering out position [k + n], counted from [k], deletes element [n]. *)
Lemma filter_from_delete {A} (l : list A) k n :
  filter_from k (fun _ i => negb (Z.of_nat i =? Z.of_nat (k + n))%Z) l
  = delete n l.
Proof.
  revert k n. induction l as [|x l IH]; intros k n; simpl; [done|].
  destruct n as [|n].
  - replace (Z.of_nat k =? Z.of_nat (k + 0))%Z with true
      by (symmetry; apply Z.eqb_eq; lia).
    simpl. apply filter_from_all. intros _ i Hi.
    apply negb_true_iff, Z.eqb_neq. lia.
  - replace (Z.of_nat k =? Z.of_nat (k + S n))%Z with false
      by (symmetry; apply Z.eqb_neq; lia).
    simpl. f_equal. replace (k + S n)%nat with (S k + n)%nat by lia. apply IH.
Qed.

Lemma removeTechnique_techniques (index : Z) (prev : Experiment) :
  techniques (removeTechnique index prev)
  = if (0 <=? index)%Z then delete (Z.to_nat index) (techniques prev)
    else techniques prev.
Proof.
  unfold removeTechnique, Array_filter. simpl.
  destruct (0 <=? index)%Z eqn:H.
  - apply Z.leb_le in H.
    rewrite <- (filter_from_delete (techniques prev) 0 (Z.to_nat index)).
    simpl. replace (Z.of_nat (Z.to_nat index)) with index by lia. done.
  - apply Z.leb_gt in H. apply filter_from_all. intros _ i _.
    apply negb_true_iff, Z.eqb_neq. lia.
Qed.

(** C10: [removeTechnique(i)] leaves the list with exactly the element at
    position [i] deleted and the others in their order: the elements before
    [i] followed by the elements after it. When [i] is not a position of the
    list (negative, or the length or more), the list is unchanged. The name
    and the description of the experiment are kept. *)
Theorem removeTechnique_deletes_position (index : Z) (prev : Experiment) :
  let next := removeTechnique index prev in
  experiment_name next = experiment_name prev
  /\ description next = description prev
  /\ (forall i : nat, index = Z.of_nat i -> i < length (techniques prev) ->
        techniques next
        = take i (techniques prev) ++ drop (S i) (techniques prev)
        /\ length (techniques next) = pred (length (techniques prev)))
  /\ ((index < 0 \/ Z.of_nat (length (techniques prev)) <= index)%Z ->
        techniques next = techniques prev).
Proof.
  intros next. subst next. rewrite removeTechnique_techniques.
  split; [done|]. split; [done|]. split.
  - intros i -> Hi.
    replace (0 <=? Z.of_nat i)%Z with true by (symmetry; apply Z.leb_le; lia).
    rewrite Nat2Z.id, delete_take_drop. split; [done|].
    rewrite length_app, length_take, length_drop. lia.
  - intros [Hneg|Hbig].
    + by replace (0 <=? index)%Z with false by (symmetry; apply Z.leb_gt; lia).
    + replace (0 <=? index)%Z with true by (symmetry; apply Z.leb_le; lia).
      rewrite delete_take_drop, take_ge, drop_ge, app_nil_r by lia. done.
Qed.

Lemma removeTechnique_deletes_position_witness :
  techniques (removeTechnique 1 Samples.three_techniques)
  = [new_technique; new_technique]
  /\ techniques (removeTechnique 3 Samples.three_techniques)
     = techniques Samples.three_techniques.
Proof.
  split.
  - destruct (removeTechnique_deletes_position 1 Samples.three_techniques)
      as (_ & _ & Hin & _).
    apply (Hin 1%nat); [reflexivity | simpl; lia].
  - destruct (removeTechnique_deletes_position 3 Samples.three_techniques)
      as (_ & _ & _ & Hout).
    apply Hout. right. simpl. lia.
Defined.

(** How [imap] with a test on the position acts on one element. *)
Lemma lookup_update_at {A} (g : A -> A) (index : Z) (l : list A) (i : nat) :
  imap (fun j x => if (Z.of_nat j =? index)%Z then g x else x) l !! i
  = (fun x => if (Z.of_nat i =? index)%Z then g x else x) <$> l !! i.
Proof. apply list_lookup_imap. Qed.

(** C9: [updateTechnique(index, field, value)] and
    [updateMatrix(index, field, value)] keep the name and the description of
    the experiment and the length of the list; every technique at another
    position is the same object at the same position; in the technique at
    [index], [updateTechnique] sets [field] and leaves every other property
    as it was, and [updateMatrix] leaves every property but [matrix] as it
    was, sets [field] of the matrix to [parseInt(value) || 0] and leaves
    every other property of the matrix as it was (the matrix being read
    through the object spread, which for an object is the object itself). *)
Theorem update_changes_only_named_field
    (index : Z) (field : string) (prev : Experiment) :
  (forall v : value,
     let next := updateTechnique index field v prev in
     experiment_name next = experiment_name prev
     /\ description next = description prev
     /\ length (techniques next) = length (techniques prev)
     /\ (forall i : nat, Z.of_nat i <> index ->
           techniques next !! i = techniques prev !! i)
     /\ (forall (i : nat) tech, Z.of_nat i = index ->
           techniques prev !! i = Some tech ->
           exists tech', techniques next !! i = Some tech'
             /\ tech' !! field = Some v
             /\ forall f, f <> field -> tech' !! f = tech !! f))
  /\ (forall s : jsstring,
       let next := updateMatrix index field s prev in
       experiment_name next = experiment_name prev
       /\ description next = description prev
       /\ length (techniques next) = length (techniques prev)
       /\ (forall i : nat, Z.of_nat i <> index ->
             techniques next !! i = techniques prev !! i)
       /\ (forall (i : nat) tech, Z.of_nat i = index ->
             techniques prev !! i = Some tech ->
             exists tech' m', techniques next !! i = Some tech'
               /\ (forall f, f <> "matrix" -> tech' !! f = tech !! f)
               /\ tech' !! "matrix" = Some (VObj m')
               /\ m' !! field = Some (VNum (number_or (parseInt s) (of_Z 0)))
               /\ (forall f, f <> field ->
                     m' !! f = spread (tech !! "matrix") !! f)
               /\ (forall m, tech !! "matrix" = Some (VObj m) ->
                     forall f, f <> field -> m' !! f = m !! f))).
Proof.
  split.
  - intros v next. subst next. unfold updateTechnique. simpl.
    repeat split.
    + apply length_imap.
    + intros i Hi. rewrite lookup_update_at.
      apply Z.eqb_neq in Hi. rewrite Hi. by destruct (techniques prev !! i).
    + intros i tech Hi Hl. rewrite lookup_update_at, Hl. simpl.
      apply Z.eqb_eq in Hi. rewrite Hi.
      eexists. split; [done|]. split; [apply lookup_insert_eq|].
      intros f Hf. by apply lookup_insert_ne.
  - intros s next. subst next. unfold updateMatrix. simpl.
    repeat split.
    + apply length_imap.
    + intros i Hi. rewrite lookup_update_at.
      apply Z.eqb_neq in Hi. rewrite Hi. by destruct (techniques prev !! i).
    + intros i tech Hi Hl. rewrite lookup_update_at, Hl. simpl.
      apply Z.eqb_eq in Hi. rewrite Hi.
      do 2 eexists. split; [done|].
      split; [|split; [apply lookup_insert_eq|split; [|split]]].
      * intros f Hf. by apply lookup_insert_ne.
      * apply lookup_insert_eq.
      * intros f Hf. by apply lookup_insert_ne.
      * intros m Hm f Hf. rewrite Hm. by apply lookup_insert_ne.
Qed.

Lemma update_changes_only_named_field_witness :
  techniques (updateTechnique 1 "technique_name" (VStr (lit "LAMP"))
                Samples.three_techniques) !! 0%nat
  = Some new_technique
  /\ (exists tech' m',
        techniques (updateMatrix 0 "true_positive" (lit "7")
                      Samples.three_techniques) !! 0%nat = Some tech'
        /\ (forall f, f <> "matrix" -> tech' !! f = new_technique !! f)
        /\ tech' !! "matrix" = Some (VObj m')
        /\ m' !! "true_positive" = Some (VNum (of_Z 7))
        /\ forall f, f <> "true_positive" -> m' !! f = new_matrix !! f).
Proof.
  destruct (update_changes_only_named_field 1 "technique_name"
              Samples.three_techniques) as [Htech _].
  destruct (update_changes_only_named_field 0 "true_positive"
              Samples.three_techniques) as [_ Hmatrix].
  split.
  - destruct (Htech (VStr (lit "LAMP"))) as (_ & _ & _ & Hother & _).
    apply (Hother 0%nat). simpl. lia.
  - destruct (Hmatrix (lit "7")) as (_ & _ & _ & _ & Hat).
    destruct (Hat 0%nat new_technique) as (tech' & m' & H1 & H2 & H3 & H4 & _ & H5);
      [reflexivity | reflexivity |].
    exists tech', m'. split; [exact H1|]. split; [exact H2|].
    split; [exact H3|]. split; [exact H4|].
    apply H5. vm_compute. reflexivity.
Defined.

End Updaters.

(** ** What the matrix holds *)

Section MatrixCounts.

Lemma counts_satisfy_matrix P tech :
  counts_satisfy P tech -> exists m, tech !! "matrix" = Some (VObj m).
Proof.
  intros H. destruct (H "true_positive") as (n & Hn & _); [set_solver|].
  unfold matrix_count in Hn.
  destruct (tech !! "matrix") as [[| |m]|]; try done. eauto.
Qed.

(** One update keeps any property of the counts that the stored number has. *)
Lemma updateMatrix_counts (P : number -> bool) index field v (e : Experiment) :
  P (number_or (parseInt v) (of_Z 0)) = true ->
  Forall (counts_satisfy P) (techniques e) ->
  Forall (counts_satisfy P) (techniques (updateMatrix index field v e)).
Proof.
  intros Hv Hall. apply Forall_lookup. intros i tech' Hi.
  unfold updateMatrix in Hi. simpl in Hi. rewrite lookup_update_at in Hi.
  destruct (techniques e !! i) as [tech|] eqn:Hl; [|done].
  pose proof (proj1 (Forall_lookup _ _) Hall i tech Hl) as Htech.
  simpl in Hi. destruct (Z.of_nat i =? index)%Z; [|by simplify_eq].
  simplify_eq. destruct (counts_satisfy_matrix P tech Htech) as [m Hm].
  intros f Hf. destruct (Htech f Hf) as (n & Hn & HP).
  unfold matrix_count in *. rewrite lookup_insert_eq, Hm. simpl.
  rewrite Hm in Hn. destruct (decide (field = f)) as [->|Hne].
  - rewrite lookup_insert_eq. eauto.
  - rewrite lookup_insert_ne by done. eauto.
Qed.

Lemma updateMatrix_sequence_counts (P : number -> bool) (Q : jsstring -> Prop)
    (updates : list matrix_update) (e : Experiment) :
  (forall v, Q v -> P (number_or (parseInt v) (of_Z 0)) = true) ->
  Forall (fun u => Q u.2) updates ->
  Forall (counts_satisfy P) (techniques e) ->
  Forall (counts_satisfy P) (techniques (foldl apply_matrix_update e updates)).
Proof.
  intros HP. revert e. induction updates as [|[[index field] v] us IH];
    intros e Hus He; simpl; [done|].
  inversion_clear Hus. apply IH; [done|].
  apply updateMatrix_counts; auto.
Qed.

Lemma new_technique_counts : counts_satisfy natural new_technique.
Proof.
  intros f Hf. exists (of_Z 0).
  repeat (apply elem_of_cons in Hf as [->|Hf]; [by vm_compute|]).
  by apply elem_of_nil in Hf.
Qed.

Lemma natural_whole n : natural n = true -> whole n = true.
Proof.
  unfold natural, whole. intros [H _]%andb_prop. by rewrite H.
Qed.

Lemma counts_satisfy_weaken (P Q : number -> bool) tech :
  (forall n, P n = true -> Q n = true) ->
  counts_satisfy P tech -> counts_satisfy Q tech.
Proof.
  intros HPQ H f Hf. destruct (H f Hf) as (n & Hn & HP). eauto.
Qed.

(** What [updateMatrix] leaves under [field] of the addressed matrix,
    whatever was under [matrix] before. *)
Lemma updateMatrix_stores index field v (e : Experiment) (i : nat) tech :
  Z.of_nat i = index -> techniques e !! i = Some tech ->
  exists tech', techniques (updateMatrix index field v e) !! i = Some tech'
    /\ matrix_count tech' field = Some (number_or (parseInt v) (of_Z 0)).
Proof.
  intros Hi Hl. unfold updateMatrix. simpl.
  rewrite lookup_update_at, Hl. simpl.
  apply Z.eqb_eq in Hi. rewrite Hi. eexists. split; [done|].
  unfold matrix_count. by rewrite !lookup_insert_eq.
Qed.

(** C5, as the code has it. The number [updateMatrix] stores for an input
    [v] is [parseInt(v) || 0]: 0 when [v] starts with no numeral; an
    integer exactly when the numeral is below [OVERFLOW] (2^1024 - 2^970)
    in magnitude, and then the integer read, with its sign, when that is
    below 2^53; the infinity of the sign of the input from [OVERFLOW] on;
    negative exactly when the input denotes a negative integer. So after
    any sequence of [updateMatrix] calls whose inputs denote no negative
    integer and no numeral of [OVERFLOW] or more, techniques whose four
    counts were non-negative integers (a freshly added technique has four
    zeros) have four non-negative integers again; without the condition
    on the sign the counts stay integers, without the one on the size
    they stay non-negative integers or [+Infinity], and without both they
    stay integers or infinities, never [NaN] and never a fraction. *)
Theorem updateMatrix_keeps_counts
    (updates : list matrix_update) (e : Experiment) :
  let e' := foldl apply_matrix_update e updates in
  let unsigned (u : matrix_update) := denotes_negative u.2 = false in
  let bounded (u : matrix_update) := within_range u.2 = true in
  Forall (counts_satisfy whole) (techniques e) ->
  Forall (counts_satisfy whole) (techniques e')
  /\ (Forall unsigned updates -> Forall bounded updates ->
      Forall (counts_satisfy natural) (techniques e) ->
      Forall (counts_satisfy natural) (techniques e'))
  /\ (Forall bounded updates ->
      Forall (counts_satisfy is_integer) (techniques e) ->
      Forall (counts_satisfy is_integer) (techniques e'))
  /\ (Forall unsigned updates ->
      Forall (counts_satisfy unsigned_whole) (techniques e) ->
      Forall (counts_satisfy unsigned_whole) (techniques e'))
  /\ (forall (i : nat) tech field v, techniques e !! i = Some tech ->
        let stored := number_or (parseInt v) (of_Z 0) in
        (exists tech',
            techniques (updateMatrix (Z.of_nat i) field v e) !! i = Some tech'
            /\ matrix_count tech' field = Some stored)
        /\ whole stored = true
        /\ is_integer stored = within_range v
        /\ is_negative stored = denotes_negative v
        /\ (numeral v = None -> stored = of_Z 0)
        /\ (forall sign n, numeral v = Some (sign, n) ->
              ((n < 2 ^ 53)%Z ->
               integer_value stored = Some (if sign then (- n)%Z else n))
              /\ ((OVERFLOW <= n)%Z -> stored = S754_infinity sign))).
Proof.
  intros e' unsigned bounded He. subst e' unsigned bounded.
  split; [|split; [|split; [|split]]].
  - apply (updateMatrix_sequence_counts whole (fun _ => True)); [| |done].
    + intros v _. apply parseInt_or_0_whole.
    + by apply Forall_forall.
  - intros Hsign Hsize.
    apply (updateMatrix_sequence_counts natural
             (fun v => denotes_negative v = false /\ within_range v = true)).
    + intros v [Hs Hr]. unfold natural.
      by rewrite parseInt_or_0_is_integer, parseInt_or_0_is_negative, Hs, Hr.
    + apply Forall_lookup. intros k u Hk. split.
      * apply (proj1 (Forall_lookup _ _) Hsign k u Hk).
      * apply (proj1 (Forall_lookup _ _) Hsize k u Hk).
  - apply (updateMatrix_sequence_counts is_integer
             (fun v => within_range v = true)).
    intros v Hv. by rewrite parseInt_or_0_is_integer.
  - apply (updateMatrix_sequence_counts unsigned_whole
             (fun v => denotes_negative v = false)).
    intros v Hv. unfold unsigned_whole.
    by rewrite parseInt_or_0_whole, parseInt_or_0_is_negative, Hv.
  - intros i tech field v Hl stored. subst stored.
    split; [by eapply updateMatrix_stores|].
    split; [apply parseInt_or_0_whole|].
    split; [apply parseInt_or_0_is_integer|].
    split; [apply parseInt_or_0_is_negative|].
    split.
    + intros Hn. by rewrite parseInt_or_0_cases, Hn.
    + intros sign n Hn. split.
      * by apply parseInt_or_0_exact.
      * by apply parseInt_or_0_infinity.
Qed.

Lemma updateMatrix_keeps_counts_witness :
  Forall (counts_satisfy natural)
    (techniques (foldl apply_matrix_update Samples.one_fresh
                   [(0%Z, "true_positive", lit "40");
                    (0%Z, "false_negative", lit "12abc");
                    (0%Z, "true_negative", lit "-0")]))
  /\ Forall (counts_satisfy whole)
       (techniques (foldl apply_matrix_update Samples.one_fresh
                      [(0%Z, "true_positive", lit "-5");
                       (0%Z, "false_negative", Samples.nines_309)])).
Proof.
  assert (Hfresh : Forall (counts_satisfy natural)
                     (techniques Samples.one_fresh)).
  { constructor; [apply new_technique_counts | constructor]. }
  assert (Hwhole : Forall (counts_satisfy whole)
                     (techniques Samples.one_fresh)).
  { eapply Forall_impl; [exact Hfresh|]. intros tech.
    apply counts_satisfy_weaken, natural_whole. }
  split.
  - destruct (updateMatrix_keeps_counts
                [(0%Z, "true_positive", lit "40");
                 (0%Z, "false_negative", lit "12abc");
                 (0%Z, "true_negative", lit "-0")]
                Samples.one_fresh Hwhole) as (_ & Hnatural & _).
    apply Hnatural; [| |exact Hfresh];
      repeat constructor; vm_compute; reflexivity.
  - destruct (updateMatrix_keeps_counts
                [(0%Z, "true_positive", lit "-5");
                 (0%Z, "false_negative", Samples.nines_309)]
                Samples.one_fresh Hwhole) as (Hall & _).
    exact Hall.
Defined.

(** C5 as the specification words it does not hold, for two reasons.
    Typing [-5] into a count of a fresh technique stores the negative
    integer -5; typing 309 nines stores [Infinity], which is no integer. *)
Lemma updateMatrix_counts_not_natural :
  Forall (counts_satisfy natural) (techniques Samples.one_fresh)
  /\ ~ Forall (counts_satisfy natural)
         (techniques (updateMatrix 0 "true_positive" (lit "-5")
                        Samples.one_fresh))
  /\ ~ Forall (counts_satisfy is_integer)
         (techniques (updateMatrix 0 "true_positive" Samples.nines_309
                        Samples.one_fresh)).
Proof.
  split; [|split].
  - constructor; [apply new_technique_counts | constructor].
  - intros H. apply Forall_cons in H as [H _].
    destruct (H "true_positive") as (n & Hn & Hnat); [set_solver|].
    vm_compute in Hn. injection Hn as <-. vm_compute in Hnat. discriminate Hnat.
  - intros H. apply Forall_cons in H as [H _].
    destruct (H "true_positive") as (n & Hn & Hint); [set_solver|].
    vm_compute in Hn. injection Hn as <-. vm_compute in Hint. discriminate Hint.
Qed.

(** What the two inputs leave in the matrix, and the two numerals next to
    the bound: the largest that is stored as a number, which is the
    largest binary64 number, and the least that is stored as
    [Infinity]. *)
Example updateMatrix_stored_samples :
  (tech ← techniques (updateMatrix 0 "true_positive" (lit "-5")
                        Samples.one_fresh) !! 0%nat;
   matrix_count tech "true_positive") = Some (of_Z (-5))
  /\ (tech ← techniques (updateMatrix 0 "true_positive" Samples.nines_309
                           Samples.one_fresh) !! 0%nat;
      matrix_count tech "true_positive") = Some (S754_infinity false)
  /\ parseInt (decimal_digits (OVERFLOW - 1))
     = S754_finite false (2 ^ 53 - 1) 971
  /\ parseInt (decimal_digits OVERFLOW) = S754_infinity false.
Proof. vm_compute. done. Qed.

End MatrixCounts.

(** ** The shape of the techniques the form builds *)

Section Shapes.
Context {Payload : Type}.
Implicit Types st : AppState Payload.

Lemma Forall_update_at {A} (P : A -> Prop) (g : A -> A) index (l : list A) :
  (forall x, P x -> P (g x)) -> Forall P l ->
  Forall P (imap (fun j x => if (Z.of_nat j =? index)%Z then g x else x) l).
Proof.
  intros Hg Hl. apply Forall_lookup. intros i y Hy.
  rewrite lookup_update_at in Hy.
  destruct (l !! i) as [x|] eqn:Hx; [|done]. simpl in Hy. simplify_eq.
  pose proof (proj1 (Forall_lookup _ _) Hl i x Hx).
  destruct (Z.of_nat i =? index)%Z; auto.
Qed.

Lemma new_technique_well_shaped : well_shaped new_technique.
Proof.
  split; [|split].
  - by exists (lit "").
  - exists (of_decimal false 95 (-2)). split; [done|].
    unfold PRESETS. set_solver.
  - eapply counts_satisfy_weaken; [apply natural_whole|].
    apply new_technique_counts.
Qed.

Lemma parseFloat_item_preset (item : jsstring) :
  item ∈ CONFIDENCE_ITEMS -> parseFloat item ∈ PRESETS.
Proof.
  intros H. unfold CONFIDENCE_ITEMS in H.
  repeat (apply elem_of_cons in H as [->|H];
          [vm_compute; repeat first [apply list_elem_of_here | apply list_elem_of_further] |]).
  by apply elem_of_nil in H.
Qed.

Lemma counts_satisfy_insert P tech k v :
  k <> "matrix" -> counts_satisfy P tech -> counts_satisfy P (<[k := v]> tech).
Proof.
  intros Hk H f Hf. destruct (H f Hf) as (n & Hn & HP). exists n.
  split; [|done]. unfold matrix_count in *. by rewrite lookup_insert_ne.
Qed.

Lemma well_shaped_set_name tech item :
  well_shaped tech -> well_shaped (<["technique_name" := VStr item]> tech).
Proof.
  intros (_ & (c & Hc & Hin) & Hm). split; [|split].
  - exists item. apply lookup_insert_eq.
  - exists c. by rewrite lookup_insert_ne.
  - by apply counts_satisfy_insert.
Qed.

Lemma well_shaped_set_confidence tech c :
  c ∈ PRESETS -> well_shaped tech ->
  well_shaped (<["confidence_level" := VNum c]> tech).
Proof.
  intros Hc ((s & Hs) & _ & Hm). split; [|split].
  - exists s. by rewrite lookup_insert_ne.
  - exists c. by rewrite lookup_insert_eq.
  - by apply counts_satisfy_insert.
Qed.

Lemma well_shaped_updateMatrix index field v (e : Experiment) :
  Forall well_shaped (techniques e) ->
  Forall well_shaped (techniques (updateMatrix index field v e)).
Proof.
  intros H.
  assert (Hc : Forall (counts_satisfy whole) (techniques (updateMatrix index field v e))).
  { apply updateMatrix_counts; [apply parseInt_or_0_whole|].
    eapply Forall_impl; [done|]. by intros ? (_ & _ & ?). }
  apply Forall_lookup. intros i tech' Hi.
  pose proof (proj1 (Forall_lookup _ _) Hc i tech' Hi) as Hcounts.
  unfold updateMatrix in Hi. simpl in Hi. rewrite lookup_update_at in Hi.
  destruct (techniques e !! i) as [tech|] eqn:Hl; [|done].
  destruct (proj1 (Forall_lookup _ _) H i tech Hl) as ((s & Hs) & (c & Hcl & Hin) & _).
  simpl in Hi. split; [|split; [|done]].
  - exists s. destruct (Z.of_nat i =? index)%Z; simplify_eq; [|done].
    by rewrite lookup_insert_ne.
  - exists c. destruct (Z.of_nat i =? index)%Z; simplify_eq; [|done].
    by rewrite lookup_insert_ne.
Qed.

Lemma submitExperiment_currentExperiment (net : Service Payload) st :
  currentExperiment (state_after (submitExperiment net) st) = currentExperiment st.
Proof.
  unfold state_after, submitExperiment.
  destruct (negb _); [done|]. destruct (_ <? _)%nat; [done|].
  destruct (scan_names _); [|done|done].
  unfold mbind, M_bind. simpl.
  destruct (post_experiments net (currentExperiment st)) as [data|error];
    [simpl | by destruct (error_text error)].
  unfold loadExperiments, mbind, M_bind. simpl.
  by destruct (get_experiments net).
Qed.

Lemma setCurrentExperiment_state (f : Experiment -> Experiment) st :
  currentExperiment (state_after (setCurrentExperiment f) st)
  = f (currentExperiment st).
Proof. reflexivity. Qed.

Lemma handle_well_shaped (a : action Payload) st :
  offered st a ->
  Forall well_shaped (techniques (currentExperiment st)) ->
  Forall well_shaped (techniques (currentExperiment (state_after (handle a) st))).
Proof.
  intros Ha H. destruct a as [v|v| |index|index item|index item|index field v|net];
    cbn [handle]; rewrite ?setCurrentExperiment_state.
  - done.
  - done.
  - apply Forall_app. split; [done|].
    constructor; [apply new_technique_well_shaped | constructor].
  - rewrite removeTechnique_techniques.
    destruct (0 <=? _)%Z; [|done]. by apply Forall_delete.
  - apply Forall_update_at; [|done].
    intros; by apply well_shaped_set_name.
  - apply Forall_update_at; [|done].
    intros; apply well_shaped_set_confidence; [|done].
    apply parseFloat_item_preset, Ha.
  - by apply well_shaped_updateMatrix.
  - by rewrite submitExperiment_currentExperiment.
Qed.

Lemma reachable_well_shaped st :
  reachable st -> Forall well_shaped (techniques (currentExperiment st)).
Proof.
  induction 1 as [|st a _ IH Ha]; [constructor|]. by apply handle_well_shaped.
Qed.

(** C6: every technique of every state the form can reach has, under
    [confidence_level], one of the three numbers 0.90, 0.95 and 0.99. In
    such a state, the add button appends one technique, whose
    [confidence_level] is 0.95, and the confidence select of a technique
    stores there [parseFloat] of the value of the chosen item, which is one
    of the three numbers, and leaves the other techniques as they were. *)
Theorem client_confidence_is_preset st :
  reachable st ->
  let techs := techniques (currentExperiment st) in
  Forall has_preset_confidence techs
  /\ (exists tech,
        techniques (addTechnique (currentExperiment st)) = techs ++ [tech]
        /\ techniques
             (currentExperiment (state_after (handle click_addTechnique) st))
           = techs ++ [tech]
        /\ tech !! "confidence_level"
           = Some (VNum (of_decimal false 95 (-2))))
  /\ (forall index item, offered st (select_confidence_level index item) ->
        let techs' :=
          techniques (currentExperiment
                        (state_after
                           (handle (select_confidence_level index item)) st)) in
        parseFloat item ∈ PRESETS
        /\ (exists tech, techs' !! index = Some tech
                         /\ tech !! "confidence_level"
                            = Some (VNum (parseFloat item)))
        /\ (forall j, j <> index -> techs' !! j = techs !! j)).
Proof.
  intros H techs. subst techs. split; [|split].
  - eapply Forall_impl; [by apply reachable_well_shaped|].
    by intros ? (_ & ? & _).
  - exists new_technique. done.
  - intros index item [Hindex Hitem]. cbn zeta.
    cbn [handle]. rewrite setCurrentExperiment_state.
    unfold updateTechnique. cbn [techniques with_techniques].
    split; [by apply parseFloat_item_preset|]. split.
    + destruct (lookup_lt_is_Some_2 _ _ Hindex) as [tech Htech].
      exists (<["confidence_level" := VNum (parseFloat item)]> tech).
      rewrite lookup_update_at, Htech. cbn [fmap option_fmap option_map].
      rewrite Z.eqb_refl. split; [done | apply lookup_insert_eq].
    + intros j Hj. rewrite lookup_update_at.
      destruct (techniques (currentExperiment st) !! j); [|done].
      cbn [fmap option_fmap option_map].
      destruct (Z.eqb_spec (Z.of_nat j) (Z.of_nat index)); [lia | done].
Qed.

End Shapes.

Lemma client_confidence_is_preset_witness :
  Forall has_preset_confidence
    (techniques (currentExperiment Samples.added_then_99))
  /\ exists tech,
       techniques (addTechnique (currentExperiment Samples.added_then_99))
       = techniques (currentExperiment Samples.added_then_99) ++ [tech]
       /\ tech !! "confidence_level" = Some (VNum (of_decimal false 95 (-2))).
Proof.
  destruct (client_confidence_is_preset Samples.added_then_99)
    as (Hall & (tech & Hadd & _ & Hlevel) & _).
  - apply reachable_step; [apply reachable_step; [apply reachable_initial|]|].
    + exact I.
    + split; [simpl; lia|]. unfold CONFIDENCE_ITEMS. set_solver.
  - split; [exact Hall|]. exists tech. split; [exact Hadd | exact Hlevel].
Defined.

(** ** Submission *)

Section Submission.
Context {Payload : Type}.
Implicit Types (st : AppState Payload) (net : Service Payload).

Lemma not_truthy_trim (s : jsstring) :
  negb (string_to_boolean (trim s)) = blank s.
Proof. unfold blank. by destruct (trim s). Qed.

(** The loop over the names against the check of the specification. *)
Lemma scan_names_strings (techs : list object) :
  Forall has_string_name techs ->
  scan_names techs
  = if existsb technique_name_blank techs then blank_name else all_named.
Proof.
  induction 1 as [|tech techs [s Hs] _ IH]; simpl; [done|].
  unfold technique_name_blank at 1. rewrite Hs, not_truthy_trim.
  by destruct (blank s).
Qed.

Lemma scan_names_passed (techs : list object) :
  scan_names techs = all_named -> existsb technique_name_blank techs = false.
Proof.
  induction techs as [|tech techs IH]; simpl; [done|].
  unfold technique_name_blank at 1.
  destruct (tech !! "technique_name") as [[|s|]|]; try done.
  rewrite not_truthy_trim. destruct (blank s); [done|]. apply IH.
Qed.

Lemma submitExperiment_blank_name net st :
  blank (experiment_name (currentExperiment st)) = true ->
  submitExperiment net st = (tt, st, [alert (error_alert MissingNameError)]).
Proof.
  intros H. unfold submitExperiment. rewrite not_truthy_trim, H.
  unfold emit, error_alert. reflexivity.
Qed.

Lemma submitExperiment_too_few net st :
  blank (experiment_name (currentExperiment st)) = false ->
  length (techniques (currentExperiment st)) < 2 ->
  submitExperiment net st
  = (tt, st, [alert (error_alert InsufficientTechniquesError)]).
Proof.
  intros H Hlen. unfold submitExperiment. rewrite not_truthy_trim, H.
  apply Nat.ltb_lt in Hlen. rewrite Hlen.
  unfold emit, error_alert. reflexivity.
Qed.

Lemma submitExperiment_blank_technique net st :
  blank (experiment_name (currentExperiment st)) = false ->
  2 <= length (techniques (currentExperiment st)) ->
  Forall has_string_name (techniques (currentExperiment st)) ->
  existsb technique_name_blank (techniques (currentExperiment st)) = true ->
  submitExperiment net st
  = (tt, st, [alert (error_alert MissingTechniqueNameError)]).
Proof.
  intros H Hlen Hstr Hex. unfold submitExperiment. rewrite not_truthy_trim, H.
  replace (_ <? 2)%nat with false by (symmetry; apply Nat.ltb_ge; lia).
  rewrite scan_names_strings, Hex by done.
  unfold emit, error_alert. reflexivity.
Qed.

(** A submission that passes the three checks: the request goes out first. *)
Lemma submitExperiment_passed net st :
  blank (experiment_name (currentExperiment st)) = false ->
  2 <= length (techniques (currentExperiment st)) ->
  scan_names (techniques (currentExperiment st)) = all_named ->
  exists st' t,
    submitExperiment net st = (tt, st', axios_post (currentExperiment st) :: t)
    /\ currentExperiment st' = currentExperiment st
    /\ loading st' = false
    /\ match post_experiments net (currentExperiment st) with
       | resolved data =>
           results st' = Some data /\ activeTab st' = lit "results"
       | rejected error =>
           results st' = results st /\ activeTab st' = activeTab st
           /\ experiments st' = experiments st
           /\ t = [console_error error;
                   match error_text error with
                   | Some text => alert (lit "เกิดข้อผิดพลาดในการคำนวณ: " ++ text)
                   | None => uncaught_conversion_error
                   end]
       end.
Proof.
  intros H Hlen Hscan. unfold submitExperiment. rewrite not_truthy_trim, H.
  replace (_ <? 2)%nat with false by (symmetry; apply Nat.ltb_ge; lia).
  rewrite Hscan.
  unfold mbind, M_bind, setLoading, setResults, setActiveTab, emit,
    loadExperiments.
  destruct (post_experiments net (currentExperiment st)) as [data|error].
  - unfold mbind, M_bind, emit, setExperiments.
    destruct (get_experiments net); cbn -[lit]; do 2 eexists;
      repeat split; reflexivity.
  - destruct (error_text error); cbn -[lit]; do 2 eexists;
      repeat split; reflexivity.
Qed.

Lemma error_alert_inj (a b : validation_error) :
  error_alert a = error_alert b -> a = b.
Proof.
  destruct a, b; intros H; try reflexivity; vm_compute in H; discriminate H.
Qed.

(** C1: the three checks of a submission run in the order name, count,
    technique names, and the first one that fails alone is reported: the
    submission shows the alert of that check and nothing else, sends no
    request and leaves the state as it was. When every check passes, the
    first effect is the request. A blank experiment name is reported
    whatever the techniques are. The three alerts are pairwise different. *)
Theorem submitExperiment_checks_in_order net st :
  let e := currentExperiment st in
  (forall err, Forall has_string_name (techniques e) ->
     validate e = Some err ->
     submitExperiment net st = (tt, st, [alert (error_alert err)]))
  /\ (Forall has_string_name (techniques e) -> validate e = None ->
      exists st' t, submitExperiment net st = (tt, st', axios_post e :: t))
  /\ (blank (experiment_name e) = true ->
      submitExperiment net st = (tt, st, [alert (error_alert MissingNameError)]))
  /\ (forall a b, error_alert a = error_alert b -> a = b).
Proof.
  intros e. subst e. split; [|split; [|split]].
  - intros err Hstr Hv. unfold validate in Hv.
    destruct (blank _) eqn:Hname.
    { simplify_eq. by apply submitExperiment_blank_name. }
    destruct (_ <? 2)%nat eqn:Hlen.
    { simplify_eq. apply Nat.ltb_lt in Hlen. by apply submitExperiment_too_few. }
    apply Nat.ltb_ge in Hlen.
    destruct (existsb _ _) eqn:Hex; [|done].
    simplify_eq. by apply submitExperiment_blank_technique.
  - intros Hstr Hv. unfold validate in Hv.
    destruct (blank _) eqn:Hname; [done|].
    destruct (_ <? 2)%nat eqn:Hlen; [done|]. apply Nat.ltb_ge in Hlen.
    destruct (existsb _ _) eqn:Hex; [done|].
    destruct (submitExperiment_passed net st Hname Hlen) as (st' & t & Heq & _).
    { by rewrite scan_names_strings, Hex. }
    eauto.
  - apply submitExperiment_blank_name.
  - apply error_alert_inj.
Qed.

Lemma submitExperiment_stopped net st :
  blank (experiment_name (currentExperiment st)) = true
  \/ length (techniques (currentExperiment st)) < 2
  \/ scan_names (techniques (currentExperiment st)) <> all_named ->
  state_after (submitExperiment net) st = st
  /\ Forall (fun ev => is_request ev = false)
       (effects_of (submitExperiment net) st).
Proof.
  intros H. unfold state_after, effects_of, submitExperiment.
  rewrite not_truthy_trim.
  destruct (blank _) eqn:Hname;
    [unfold emit; cbn -[lit]; split; [reflexivity | repeat constructor]|].
  destruct (_ <? 2)%nat eqn:Hlen;
    [unfold emit; cbn -[lit]; split; [reflexivity | repeat constructor]|].
  apply Nat.ltb_ge in Hlen.
  destruct (scan_names _);
    [|unfold emit; cbn -[lit]; split; [reflexivity | repeat constructor]..].
  destruct H as [H|[H|H]]; [discriminate H | lia | by destruct H].
Qed.

Lemma validate_failed_stopped (e : Experiment) :
  validate e <> None ->
  blank (experiment_name e) = true \/ length (techniques e) < 2
  \/ scan_names (techniques e) <> all_named.
Proof.
  unfold validate. intros H.
  destruct (blank _); [by left|].
  destruct (_ <? 2)%nat eqn:Hlen; [apply Nat.ltb_lt in Hlen; by right; left|].
  destruct (existsb _ _) eqn:Hex; [|done].
  right; right. intros Hs. apply scan_names_passed in Hs. congruence.
Qed.

(** C2: with a name that is not blank and fewer than two techniques, the
    submission shows the alert of the count check and nothing else: no
    request is sent and the state stays as it was. *)
Theorem submitExperiment_insufficient_techniques net st :
  blank (experiment_name (currentExperiment st)) = false ->
  length (techniques (currentExperiment st)) < 2 ->
  effects_of (submitExperiment net) st
  = [alert (error_alert InsufficientTechniquesError)]
  /\ state_after (submitExperiment net) st = st
  /\ Forall (fun ev => is_request ev = false)
       (effects_of (submitExperiment net) st).
Proof.
  intros Hname Hlen. unfold effects_of, state_after.
  rewrite (submitExperiment_too_few net st Hname Hlen). cbn -[error_alert].
  split; [reflexivity|]. split; [reflexivity | repeat constructor].
Qed.

(** C3: with a name that is not blank and at least two techniques, each
    holding a string under [technique_name], if one of these strings is
    blank the submission shows the alert of the technique-name check and
    nothing else: no request is sent and the state stays as it was. *)
Theorem submitExperiment_missing_technique_name net st :
  blank (experiment_name (currentExperiment st)) = false ->
  2 <= length (techniques (currentExperiment st)) ->
  Forall has_string_name (techniques (currentExperiment st)) ->
  Exists (fun tech => technique_name_blank tech = true)
    (techniques (currentExperiment st)) ->
  effects_of (submitExperiment net) st
  = [alert (error_alert MissingTechniqueNameError)]
  /\ state_after (submitExperiment net) st = st
  /\ Forall (fun ev => is_request ev = false)
       (effects_of (submitExperiment net) st).
Proof.
  intros Hname Hlen Hstr Hex. unfold effects_of, state_after.
  rewrite (submitExperiment_blank_technique net st Hname Hlen Hstr).
  - cbn -[error_alert].
    split; [reflexivity|]. split; [reflexivity | repeat constructor].
  - apply existsb_exists. apply Exists_exists in Hex as (tech & Hin & Hb).
    exists tech. split; [by apply list_elem_of_In | done].
Qed.

(** C4: a submission that fails leaves the results as they were. If one of
    the three checks fails the whole state is unchanged; if the request is
    rejected the results, the tab and the stored list are unchanged. The
    results change only when every check passed and the request resolved,
    and then they are the data of the response. *)
Theorem failed_submission_keeps_results net st :
  let e := currentExperiment st in
  let st' := state_after (submitExperiment net) st in
  (validate e <> None -> st' = st)
  /\ (forall error, post_experiments net e = rejected error ->
        results st' = results st /\ activeTab st' = activeTab st
        /\ experiments st' = experiments st)
  /\ (results st' = results st
      \/ exists data, validate e = None
           /\ post_experiments net e = resolved data
           /\ results st' = Some data).
Proof.
  intros e st'. subst e st'.
  destruct (blank (experiment_name (currentExperiment st))) eqn:Hname.
  { destruct (submitExperiment_stopped net st) as [-> _]; [by left|].
    split; [done|]. split; [done|]. by left. }
  destruct (Nat.lt_ge_cases (length (techniques (currentExperiment st))) 2)
    as [Hlen|Hlen].
  { destruct (submitExperiment_stopped net st) as [-> _]; [right; by left|].
    split; [done|]. split; [done|]. by left. }
  destruct (scan_names (techniques (currentExperiment st))) eqn:Hscan.
  2,3: destruct (submitExperiment_stopped net st) as [-> _];
         [right; right; congruence|];
       (split; [done|]); (split; [done|]); by left.
  destruct (submitExperiment_passed net st Hname Hlen Hscan)
    as (st' & t & Heq & _ & _ & Hpost).
  unfold state_after. rewrite Heq. simpl. split; [|split].
  - intros Hv. apply validate_failed_stopped in Hv as [Hv|[Hv|Hv]];
      [congruence | lia | done].
  - intros error Herr. rewrite Herr in Hpost.
    destruct Hpost as (Hr & Ht & He & _). done.
  - destruct (post_experiments net (currentExperiment st)) as [data|error].
    + right. exists data. destruct Hpost as [Hr _]. split; [|done].
      unfold validate. rewrite Hname.
      replace (_ <? 2)%nat with false by (symmetry; apply Nat.ltb_ge; lia).
      by rewrite (scan_names_passed _ Hscan).
    + left. by destruct Hpost as [Hr _].
Qed.

End Submission.

Lemma submitExperiment_checks_in_order_witness :
  submitExperiment Samples.answering (Samples.form Samples.nothing_filled)
  = (tt, Samples.form Samples.nothing_filled,
     [alert (error_alert MissingNameError)])
  /\ submitExperiment Samples.answering (Samples.form Samples.unnamed_technique)
     = (tt, Samples.form Samples.unnamed_technique,
        [alert (error_alert MissingTechniqueNameError)]).
Proof.
  destruct (submitExperiment_checks_in_order Samples.answering
              (Samples.form Samples.nothing_filled)) as (_ & _ & Hname & _).
  destruct (submitExperiment_checks_in_order Samples.answering
              (Samples.form Samples.unnamed_technique)) as (Hfirst & _).
  split.
  - apply Hname. vm_compute. reflexivity.
  - apply Hfirst.
    + repeat constructor; eexists; vm_compute; reflexivity.
    + vm_compute. reflexivity.
Defined.

Lemma submitExperiment_insufficient_techniques_witness :
  effects_of (submitExperiment Samples.answering)
    (Samples.form Samples.single_technique)
  = [alert (error_alert InsufficientTechniquesError)].
Proof.
  apply (submitExperiment_insufficient_techniques Samples.answering
           (Samples.form Samples.single_technique)).
  - vm_compute. reflexivity.
  - simpl. lia.
Defined.

Lemma submitExperiment_missing_technique_name_witness :
  effects_of (submitExperiment Samples.answering)
    (Samples.form Samples.unnamed_technique)
  = [alert (error_alert MissingTechniqueNameError)].
Proof.
  apply (submitExperiment_missing_technique_name Samples.answering
           (Samples.form Samples.unnamed_technique)).
  - vm_compute. reflexivity.
  - simpl. lia.
  - repeat constructor; eexists; vm_compute; reflexivity.
  - apply Exists_cons_tl, Exists_cons_hd. vm_compute. reflexivity.
Defined.

Lemma failed_submission_keeps_results_witness :
  state_after (submitExperiment Samples.refusing)
    (Samples.form Samples.single_technique)
  = Samples.form Samples.single_technique
  /\ results (state_after (submitExperiment Samples.refusing)
                (Samples.form Samples.complete)) = Some 7%nat.
Proof.
  destruct (failed_submission_keeps_results Samples.refusing
              (Samples.form Samples.single_technique)) as (Hchecks & _).
  destruct (failed_submission_keeps_results Samples.refusing
              (Samples.form Samples.complete)) as (_ & Hrejected & _).
  split.
  - apply Hchecks. vm_compute. discriminate.
  - eapply Hrejected. reflexivity.
Defined.

(** ** The statistics service *)

Section Service.
Variable z_critical : Q -> Q.
Variable sqrtQ : Q -> Q.
Variable kappa_standard_error : Engine.ConfusionMatrix -> Q.

#[local] Open Scope Q_scope.

#[local] Abbreviation compute :=
  (Engine.compute z_critical sqrtQ kappa_standard_error).
#[local] Abbreviation evaluate :=
  (Engine.evaluate z_critical sqrtQ kappa_standard_error).
#[local] Abbreviation compute_all :=
  (Engine.compute_all z_critical sqrtQ kappa_standard_error).

Lemma Qltb_lt (a b : Q) : Engine.Qltb a b = true <-> a < b.
Proof.
  unfold Engine.Qltb. rewrite negb_true_iff. split.
  - intros H. apply Qnot_le_lt. intros Hle.
    apply Qle_bool_iff in Hle. congruence.
  - intros H. destruct (Qle_bool b a) eqn:Hle; [|done].
    apply Qle_bool_iff in Hle. by apply Qlt_not_le in H.
Qed.

Lemma Qltb_ge (a b : Q) : Engine.Qltb a b = false <-> b <= a.
Proof.
  unfold Engine.Qltb. rewrite negb_false_iff. apply Qle_bool_iff.
Qed.

(** The scan of section 4.3 returns the first greatest element. *)
Lemma best_from_first_greatest metric current rest :
  Engine.first_greatest metric (current :: rest)
    (Engine.result_name (Engine.best_from metric current rest)).
Proof.
  revert current. induction rest as [|x rest IH]; intros current; simpl.
  - exists 0%nat, current. split; [done|]. split; [done|]. split.
    + intros [|j] r' Hj; simplify_eq/=. apply Qle_refl.
    + intros j r' Hj. lia.
  - destruct (Engine.Qltb (metric current) (metric x)) eqn:Hlt.
    + apply Qltb_lt in Hlt.
      destruct (IH x) as (i & r & Hi & Hname & Hall & Hbefore).
      exists (S i), r. split; [done|]. split; [done|].
      assert (Hx : metric x <= metric r) by (apply (Hall 0%nat); done).
      split.
      * intros [|j] r' Hj; simplify_eq/=; [|by eapply Hall].
        apply Qlt_le_weak. by eapply Qlt_le_trans.
      * intros [|j] r' Hji Hj; simplify_eq/=.
        -- by eapply Qlt_le_trans.
        -- apply (Hbefore j); [lia | done].
    + apply Qltb_ge in Hlt.
      destruct (IH current) as (i & r & Hi & Hname & Hall & Hbefore).
      assert (Hc : metric current <= metric r) by (apply (Hall 0%nat); done).
      destruct i as [|i].
      * simplify_eq/=. exists 0%nat, r. split; [done|]. split; [done|]. split.
        -- intros [|[|j]] r' Hj; simplify_eq/=; [done | done |].
           by apply (Hall (S j)).
        -- intros j r' Hj. lia.
      * exists (S (S i)), r. split; [done|]. split; [done|]. split.
        -- intros [|[|j]] r' Hj; simplify_eq/=; [done | |].
           ++ by eapply Qle_trans.
           ++ by apply (Hall (S j)).
        -- intros [|[|j]] r' Hji Hj; simplify_eq/=.
           ++ apply (Hbefore 0%nat); [lia | done].
           ++ eapply Qle_lt_trans; [done|]. apply (Hbefore 0%nat); [lia | done].
           ++ apply (Hbefore (S j)); [lia | done].
Qed.

Lemma best_first_greatest metric r rs :
  Engine.first_greatest metric (r :: rs) (Engine.best metric (r :: rs)).
Proof. apply best_from_first_greatest. Qed.

(** The results come in submission order, one per technique. *)
Lemma compute_all_names index techs rs :
  compute_all index techs = inr rs ->
  map Engine.result_name rs = map Engine.technique_name techs.
Proof.
  revert index rs. induction techs as [|t techs IH]; intros index rs H; simpl in H.
  - by simplify_eq.
  - destruct (compute _ _) as [r|]; [|done].
    destruct (compute_all (S index) techs) as [i|rs'] eqn:Hrest; [done|].
    simplify_eq. simpl. f_equal. by eapply IH.
Qed.

(** C7: in the result of an evaluation the techniques are in submission
    order, and for each of sensitivity, specificity, accuracy and kappa the
    summary names the first technique whose value is the greatest: no
    technique has a greater value and every technique submitted before the
    named one has a strictly smaller value. So when two techniques are
    submitted and their accuracies are equal, [best_accuracy] is the name
    of the first. *)
Theorem comparison_summary_first_greatest
    experiment_name description techs (res : Engine.ExperimentResult) :
  evaluate experiment_name description techs = inr res ->
  let rs := Engine.techniques_results res in
  let summary := Engine.comparison_summary res in
  map Engine.result_name rs = map Engine.technique_name techs
  /\ Engine.first_greatest (fun r => Engine.sensitivity (Engine.stats r)) rs
       (Engine.best_sensitivity summary)
  /\ Engine.first_greatest (fun r => Engine.specificity (Engine.stats r)) rs
       (Engine.best_specificity summary)
  /\ Engine.first_greatest (fun r => Engine.accuracy (Engine.stats r)) rs
       (Engine.best_accuracy summary)
  /\ Engine.first_greatest (fun r => Engine.cohen_kappa (Engine.stats r)) rs
       (Engine.best_kappa summary)
  /\ (forall r1 r2, rs = [r1; r2] ->
        Engine.accuracy (Engine.stats r1) == Engine.accuracy (Engine.stats r2) ->
        Engine.best_accuracy summary = Engine.result_name r1).
Proof.
  intros Hev rs summary. subst rs summary.
  unfold Engine.evaluate in Hev.
  destruct (trim experiment_name); [done|].
  destruct (_ <? 2)%nat eqn:Hlen; [done|]. apply Nat.ltb_ge in Hlen.
  destruct (Engine.first_blank_name 0 techs); [done|].
  destruct (compute_all 0%nat techs) as [i|rs] eqn:Hrs; [done|].
  simplify_eq. simpl.
  pose proof (compute_all_names 0%nat techs rs Hrs) as Hnames.
  assert (Hrs2 : (2 <= length rs)%nat).
  { rewrite <- (length_map Engine.result_name), Hnames, length_map. done. }
  destruct rs as [|r rs]; [simpl in Hrs2; lia|].
  split; [done|]. do 4 (split; [apply best_first_greatest|]).
  intros r1 r2 Heq Hacc. simplify_eq. simpl.
  replace (Engine.Qltb _ _) with false; [done|].
  symmetry. apply Qltb_ge. rewrite Hacc. apply Qle_refl.
Qed.

Lemma proportion_zero_denominator (k : Z) : Engine.proportion k 0 = 0.
Proof. reflexivity. Qed.

Lemma wilson_zero_denominator (k : Z) (z : Q) :
  Engine.wilson_interval sqrtQ k 0 z = (0, 0).
Proof. reflexivity. Qed.

(** The calculator answers on exactly the valid matrices. *)
Lemma compute_total (m : Engine.ConfusionMatrix) (level : Q) :
  Engine.valid_matrix m = true <-> is_Some (compute m level).
Proof.
  unfold Engine.compute. destruct (Engine.valid_matrix m); split; done.
Qed.

(** C8: for every matrix with non-negative counts and N > 0 the calculator
    returns a result, and in it a proportion whose denominator is 0 has the
    point estimate 0 and the interval [0, 0]: sensitivity when TP + FN = 0,
    specificity when TN + FP = 0, PPV when TP + FP = 0, NPV when
    TN + FN = 0. For the matrix TP = 5, FP = FN = TN = 0 the specificity is
    0 with the interval [0, 0] and the sensitivity is 1. *)
Theorem zero_denominator_policy (m : Engine.ConfusionMatrix) (level : Q) :
  (Engine.valid_matrix m = true ->
   exists r, compute m level = Some r
     /\ ((Engine.true_positive m + Engine.false_negative m = 0)%Z ->
         Engine.sensitivity r = 0 /\ Engine.sensitivity_ci r = (0, 0))
     /\ ((Engine.true_negative m + Engine.false_positive m = 0)%Z ->
         Engine.specificity r = 0 /\ Engine.specificity_ci r = (0, 0))
     /\ ((Engine.true_positive m + Engine.false_positive m = 0)%Z ->
         Engine.ppv r = 0 /\ Engine.ppv_ci r = (0, 0))
     /\ ((Engine.true_negative m + Engine.false_negative m = 0)%Z ->
         Engine.npv r = 0 /\ Engine.npv_ci r = (0, 0)))
  /\ (exists r, compute EngineSamples.only_true_positives level = Some r
        /\ Engine.specificity r = 0 /\ Engine.specificity_ci r = (0, 0)
        /\ Engine.sensitivity r = 1).
Proof.
  split.
  - intros Hvalid. unfold Engine.compute. rewrite Hvalid.
    eexists. split; [reflexivity|]. simpl.
    split; [|split; [|split]]; intros ->;
      by rewrite proportion_zero_denominator, wilson_zero_denominator.
  - eexists. split; [reflexivity|]. simpl. done.
Qed.

(** The name check comes before the calculator: a blank experiment name is
    reported whatever the matrices are. *)
Lemma evaluate_blank_name experiment_name description techs :
  trim experiment_name = [] ->
  evaluate experiment_name description techs = inl Engine.MissingNameError.
Proof. intros H. unfold Engine.evaluate. by rewrite H. Qed.

Lemma evaluate_single_technique experiment_name description t :
  trim experiment_name <> [] ->
  evaluate experiment_name description [t]
  = inl Engine.InsufficientTechniquesError.
Proof.
  intros H. unfold Engine.evaluate. by destruct (trim experiment_name).
Qed.

End Service.

Lemma zero_denominator_policy_witness :
  exists r,
    Engine.compute EngineSamples.z_presets EngineSamples.sqrt_8
      EngineSamples.kappa_se EngineSamples.only_true_positives (95 # 100)
    = Some r
    /\ Engine.specificity r = 0%Q /\ Engine.specificity_ci r = (0%Q, 0%Q)
    /\ Engine.npv r = 0%Q /\ Engine.npv_ci r = (0%Q, 0%Q).
Proof.
  destruct (zero_denominator_policy EngineSamples.z_presets
              EngineSamples.sqrt_8 EngineSamples.kappa_se
              EngineSamples.only_true_positives (95 # 100)) as [Hpolicy _].
  destruct Hpolicy as (r & Hr & _ & Hspec & _ & Hnpv); [reflexivity|].
  exists r. split; [exact Hr|].
  destruct Hspec as [? ?]; [reflexivity|].
  destruct Hnpv as [? ?]; [reflexivity|]. done.
Defined.

(** The end-to-end example of the specification: qPCR against RPA. *)
Lemma comparison_summary_first_greatest_witness :
  exists res,
    EngineSamples.evaluated = inr res
    /\ Engine.first_greatest (fun r => Engine.accuracy (Engine.stats r))
         (Engine.techniques_results res)
         (Engine.best_accuracy (Engine.comparison_summary res))
    /\ Engine.best_accuracy (Engine.comparison_summary res) = lit "qPCR"
    /\ Engine.best_sensitivity (Engine.comparison_summary res) = lit "qPCR".
Proof.
  destruct EngineSamples.evaluated as [err|res] eqn:Hev;
    [vm_compute in Hev; discriminate Hev|].
  exists res. split; [reflexivity|].
  destruct (comparison_summary_first_greatest EngineSamples.z_presets
              EngineSamples.sqrt_8 EngineSamples.kappa_se
              (lit "qPCR vs RPA") (lit "") EngineSamples.qPCR_and_RPA res Hev)
    as (_ & _ & _ & Hacc & _).
  split; [exact Hacc|].
  vm_compute in Hev. injection Hev as <-. vm_compute. done.
Defined.

(** * Further properties of the client *)

(** ** The blank check *)

Section Blank.
Import Notions.

Lemma trim_start_nil (s : jsstring) :
  trim_start s = [] <-> only_white_space s = true.
Proof.
  unfold only_white_space. induction s as [|c s IH]; simpl; [done|].
  destruct (is_str_white_space c); simpl; [done|]. split; done.
Qed.

Lemma trim_start_head (s : jsstring) c r :
  trim_start s = c :: r -> is_str_white_space c = false.
Proof.
  induction s as [|d s IH]; simpl; [done|].
  destruct (is_str_white_space d) eqn:Hd; [done|]. intros ?. by simplify_eq.
Qed.

Lemma trim_start_suffix (s : jsstring) :
  exists pre, s = pre ++ trim_start s /\ only_white_space pre = true.
Proof.
  induction s as [|c s (pre & Hs & Hpre)]; simpl; [by exists []|].
  destruct (is_str_white_space c) eqn:Hc.
  - exists (c :: pre). simpl. rewrite <- Hs. unfold only_white_space in *.
    simpl. by rewrite Hc.
  - by exists [].
Qed.

Lemma only_white_space_app (a b : jsstring) :
  only_white_space (a ++ b) = only_white_space a && only_white_space b.
Proof. apply forallb_app. Qed.

Lemma only_white_space_rev (s : jsstring) :
  only_white_space (rev s) = only_white_space s.
Proof.
  unfold only_white_space. induction s as [|c s IH]; simpl; [done|].
  rewrite forallb_app, IH. simpl. rewrite andb_true_r. apply andb_comm.
Qed.

(** X1: the name checks of [submitExperiment] ([!s.trim()]) reject exactly
    the strings made of white space only, the empty string among them. *)
Theorem blank_iff_only_white_space (s : jsstring) :
  App.blank s = true <-> only_white_space s = true.
Proof.
  destruct (trim_start_suffix s) as (pre & Hs & Hpre).
  assert (Hall : only_white_space s = only_white_space (trim_start s)).
  { rewrite Hs at 1. by rewrite only_white_space_app, Hpre. }
  rewrite Hall. unfold App.blank, trim, trim_end.
  destruct (trim_start s) as [|c r] eqn:Hts; [done|].
  pose proof (trim_start_head s c r Hts) as Hc.
  assert (Hne : only_white_space (rev (c :: r)) = false).
  { rewrite only_white_space_rev. unfold only_white_space. simpl. by rewrite Hc. }
  destruct (trim_start (rev (c :: r))) as [|d r'] eqn:Hrev.
  - apply trim_start_nil in Hrev. congruence.
  - split.
    + destruct (rev (d :: r')) eqn:Hr; [|done].
      apply (f_equal (@length N)) in Hr. rewrite length_rev in Hr. done.
    + unfold only_white_space. simpl. by rewrite Hc.
Qed.

(** X2: [trim] keeps a middle part of the string and drops only white
    space from its two ends: what is left neither starts nor ends with white
    space. *)
Theorem trim_drops_white_space_only (s : jsstring) :
  exists pre post,
    s = pre ++ trim s ++ post
    /\ only_white_space pre = true /\ only_white_space post = true
    /\ (forall c r, trim s = c :: r -> is_str_white_space c = false)
    /\ (forall c r, trim s = r ++ [c] -> is_str_white_space c = false).
Proof.
  destruct (trim_start_suffix s) as (pre & Hs & Hpre).
  destruct (trim_start_suffix (rev (trim_start s))) as (post & Hr & Hpost).
  exists pre, (rev post).
  assert (Hmid : trim_start s = trim s ++ rev post).
  { unfold trim, trim_end. rewrite <- rev_app_distr, <- Hr. by rewrite rev_involutive. }
  split; [by rewrite <- Hmid|]. split; [done|].
  split; [by rewrite only_white_space_rev|]. split.
  - intros c r Ht. destruct (trim_start s) as [|d r'] eqn:Hts.
    + unfold trim in Ht. rewrite Hts in Ht. done.
    + rewrite Ht in Hmid. simpl in Hmid. simplify_eq.
      by eapply trim_start_head.
  - intros c r Ht. unfold trim, trim_end in Ht.
    apply (f_equal (@rev N)) in Ht. rewrite rev_involutive, rev_app_distr in Ht.
    simpl in Ht. by eapply trim_start_head.
Qed.

End Blank.

Lemma blank_iff_only_white_space_witness : blank (lit "  ") = true.
Proof. apply (blank_iff_only_white_space (lit "  ")). reflexivity. Defined.

Lemma trim_drops_white_space_only_witness :
  (exists pre post,
     lit " qPCR " = pre ++ trim (lit " qPCR ") ++ post
     /\ Notions.only_white_space pre = true
     /\ Notions.only_white_space post = true)
  /\ is_str_white_space 113%N = false.
Proof.
  destruct (trim_drops_white_space_only (lit " qPCR "))
    as (pre & post & H1 & H2 & H3 & H4 & _).
  split.
  - exists pre, post. split; [exact H1|]. split; [exact H2 | exact H3].
  - apply (H4 113%N (lit "PCR")). vm_compute. reflexivity.
Defined.

(** ** How the updaters compose *)

Section Composition.

Lemma with_techniques_eq (prev : Experiment) :
  with_techniques prev (techniques prev) = prev.
Proof. by destruct prev. Qed.

Lemma update_at_ext {A} (g h : A -> A) index (l : list A) :
  (forall i x, l !! i = Some x -> Z.of_nat i = index -> g x = h x) ->
  imap (fun j x => if (Z.of_nat j =? index)%Z then g x else x) l
  = imap (fun j x => if (Z.of_nat j =? index)%Z then h x else x) l.
Proof.
  intros H. apply list_eq. intros i. rewrite !lookup_update_at.
  destruct (l !! i) as [x|] eqn:Hx; [|done]. simpl.
  destruct (Z.of_nat i =? index)%Z eqn:Hi; [|done].
  apply Z.eqb_eq in Hi. by rewrite (H i x).
Qed.

Lemma update_at_miss {A} (g : A -> A) index (l : list A) :
  (index < 0 \/ Z.of_nat (length l) <= index)%Z ->
  imap (fun j x => if (Z.of_nat j =? index)%Z then g x else x) l = l.
Proof.
  intros H. apply list_eq. intros i. rewrite lookup_update_at.
  destruct (l !! i) as [x|] eqn:Hx; [|done]. simpl.
  apply lookup_lt_Some in Hx.
  by replace (Z.of_nat i =? index)%Z with false by (symmetry; apply Z.eqb_neq; lia).
Qed.

(** Two updates in a row, as one [imap]. *)
Lemma update_at_twice {A} (g h : A -> A) index index' (l : list A) (i : nat) :
  imap (fun j x => if (Z.of_nat j =? index)%Z then g x else x)
    (imap (fun j x => if (Z.of_nat j =? index')%Z then h x else x) l) !! i
  = (fun x =>
       let y := if (Z.of_nat i =? index')%Z then h x else x in
       if (Z.of_nat i =? index)%Z then g y else y) <$> l !! i.
Proof.
  rewrite !lookup_update_at. by destruct (l !! i).
Qed.

(** X3: [addTechnique] appends one technique, blank and with four zero
    counts, after the existing ones, which it leaves as they are; removing
    the position it filled gives the experiment back. *)
Theorem addTechnique_appends (prev : Experiment) :
  let next := addTechnique prev in
  let n := length (techniques prev) in
  length (techniques next) = S n
  /\ (forall i : nat, i < n -> techniques next !! i = techniques prev !! i)
  /\ techniques next !! n = Some new_technique
  /\ experiment_name next = experiment_name prev
  /\ description next = description prev
  /\ removeTechnique (Z.of_nat n) next = prev.
Proof.
  intros next n. subst next n. unfold addTechnique. simpl.
  split; [rewrite length_app; simpl; lia|].
  split; [intros i Hi; by apply lookup_app_l|].
  split; [by rewrite lookup_app_r, Nat.sub_diag|].
  split; [done|]. split; [done|].
  destruct prev as [name desc techs]. unfold removeTechnique, with_techniques.
  simpl. f_equal. unfold Array_filter.
  pose proof (filter_from_delete (techs ++ [new_technique]) 0 (length techs))
    as Hdel.
  simpl in Hdel. rewrite Hdel, delete_take_drop.
  rewrite take_app_length, drop_ge, app_nil_r by (rewrite length_app; simpl; lia).
  done.
Qed.

Lemma addTechnique_appends_witness :
  techniques (addTechnique Samples.one_fresh) !! 0%nat
  = techniques Samples.one_fresh !! 0%nat.
Proof.
  destruct (addTechnique_appends Samples.one_fresh) as (_ & Hkept & _).
  apply (Hkept 0%nat). simpl. lia.
Defined.

(** X4: with an index that is not a position of the list (negative, or
    the length or more), [updateTechnique] and [updateMatrix] leave the
    experiment as it is, whatever the field and the value. *)
Theorem update_out_of_range (index : Z) (field : string) (prev : Experiment) :
  (index < 0 \/ Z.of_nat (length (techniques prev)) <= index)%Z ->
  (forall v, updateTechnique index field v prev = prev)
  /\ (forall s, updateMatrix index field s prev = prev).
Proof.
  intros H. split; intros v.
  - unfold updateTechnique. rewrite update_at_miss by done.
    apply with_techniques_eq.
  - unfold updateMatrix. rewrite update_at_miss by done.
    apply with_techniques_eq.
Qed.

Lemma update_out_of_range_witness :
  updateMatrix 1 "true_positive" (lit "9") Samples.one_fresh
  = Samples.one_fresh
  /\ updateTechnique (-1) "technique_name" (VStr (lit "LAMP"))
       Samples.one_fresh = Samples.one_fresh.
Proof.
  split.
  - apply (update_out_of_range 1 "true_positive" Samples.one_fresh).
    right. simpl. lia.
  - apply (update_out_of_range (-1) "technique_name" Samples.one_fresh).
    left. lia.
Defined.

(** X5: of two [updateTechnique] calls on the same position and field the
    later one wins; calls on different positions or different fields can
    be swapped. *)
Theorem updateTechnique_compose
    (index : Z) (field : string) (v : value) (prev : Experiment) :
  (forall v0, updateTechnique index field v (updateTechnique index field v0 prev)
              = updateTechnique index field v prev)
  /\ (forall index' field' v', index <> index' \/ field <> field' ->
        updateTechnique index field v (updateTechnique index' field' v' prev)
        = updateTechnique index' field' v' (updateTechnique index field v prev)).
Proof.
  split.
  - intros v0. unfold updateTechnique, with_techniques. simpl. f_equal.
    apply list_eq. intros i. rewrite update_at_twice, lookup_update_at.
    destruct (techniques prev !! i); [|done]. simpl.
    destruct (Z.of_nat i =? index)%Z; [|done]. by rewrite insert_insert_eq.
  - intros index' field' v' Hne. unfold updateTechnique, with_techniques.
    simpl. f_equal. apply list_eq. intros i. rewrite !update_at_twice.
    destruct (techniques prev !! i); [|done]. simpl.
    destruct (Z.of_nat i =? index)%Z eqn:H1;
      destruct (Z.of_nat i =? index')%Z eqn:H2; try done.
    apply Z.eqb_eq in H1. apply Z.eqb_eq in H2.
    destruct Hne as [Hne|Hne]; [congruence|]. by rewrite insert_insert_ne.
Qed.

Lemma updateTechnique_compose_witness :
  updateTechnique 0 "technique_name" (VStr (lit "LAMP"))
    (updateTechnique 0 "confidence_level" (VNum (parseFloat (lit "0.99")))
       Samples.one_fresh)
  = updateTechnique 0 "confidence_level" (VNum (parseFloat (lit "0.99")))
      (updateTechnique 0 "technique_name" (VStr (lit "LAMP"))
         Samples.one_fresh).
Proof.
  apply (updateTechnique_compose 0 "technique_name" (VStr (lit "LAMP"))
           Samples.one_fresh).
  right. discriminate.
Defined.

(** X6: of two [updateMatrix] calls on the same position and field the
    later one wins; calls on different positions or different fields can
    be swapped. *)
Theorem updateMatrix_compose
    (index : Z) (field : string) (s : jsstring) (prev : Experiment) :
  (forall s0, updateMatrix index field s (updateMatrix index field s0 prev)
              = updateMatrix index field s prev)
  /\ (forall index' field' s', index <> index' \/ field <> field' ->
        updateMatrix index field s (updateMatrix index' field' s' prev)
        = updateMatrix index' field' s' (updateMatrix index field s prev)).
Proof.
  split.
  - intros s0. unfold updateMatrix, with_techniques. simpl. f_equal.
    apply list_eq. intros i. rewrite update_at_twice, lookup_update_at.
    destruct (techniques prev !! i); [|done]. simpl.
    destruct (Z.of_nat i =? index)%Z; [|done].
    rewrite lookup_insert_eq. simpl. by rewrite !insert_insert_eq.
  - intros index' field' s' Hne. unfold updateMatrix, with_techniques.
    simpl. f_equal. apply list_eq. intros i. rewrite !update_at_twice.
    destruct (techniques prev !! i); [|done]. simpl.
    destruct (Z.of_nat i =? index)%Z eqn:H1;
      destruct (Z.of_nat i =? index')%Z eqn:H2; try done.
    apply Z.eqb_eq in H1. apply Z.eqb_eq in H2.
    destruct Hne as [Hne|Hne]; [congruence|].
    rewrite !lookup_insert_eq. simpl. rewrite !insert_insert_eq.
    by rewrite (insert_insert_ne _ field field').
Qed.

Lemma updateMatrix_compose_witness :
  updateMatrix 0 "true_positive" (lit "90")
    (updateMatrix 0 "false_negative" (lit "10") Samples.one_fresh)
  = updateMatrix 0 "false_negative" (lit "10")
      (updateMatrix 0 "true_positive" (lit "90") Samples.one_fresh).
Proof.
  apply (updateMatrix_compose 0 "true_positive" (lit "90") Samples.one_fresh).
  right. discriminate.
Defined.

(** X7: a name or a confidence level can be set before or after a count:
    [updateTechnique] on a field other than [matrix] and [updateMatrix]
    can be swapped, whatever their positions. *)
Theorem updateTechnique_updateMatrix_swap
    (index index' : Z) (field field' : string) (v : value) (s : jsstring)
    (prev : Experiment) :
  field <> "matrix" ->
  updateTechnique index field v (updateMatrix index' field' s prev)
  = updateMatrix index' field' s (updateTechnique index field v prev).
Proof.
  intros Hf. unfold updateTechnique, updateMatrix, with_techniques.
  simpl. f_equal. apply list_eq. intros i. rewrite !update_at_twice.
  destruct (techniques prev !! i); [|done]. simpl.
  destruct (Z.of_nat i =? index)%Z; destruct (Z.of_nat i =? index')%Z;
    try done.
  rewrite lookup_insert_ne by done. by rewrite insert_insert_ne.
Qed.

Lemma updateTechnique_updateMatrix_swap_witness :
  updateTechnique 0 "technique_name" (VStr (lit "LAMP"))
    (updateMatrix 0 "true_positive" (lit "90") Samples.one_fresh)
  = updateMatrix 0 "true_positive" (lit "90")
      (updateTechnique 0 "technique_name" (VStr (lit "LAMP"))
         Samples.one_fresh).
Proof.
  apply (updateTechnique_updateMatrix_swap 0 0 "technique_name"
           "true_positive" (VStr (lit "LAMP")) (lit "90") Samples.one_fresh).
  discriminate.
Defined.

(** Deleting a position after an update at [index]: the update is lost when
    it was on the deleted position, and is otherwise an update of the list
    without that position, one place lower when it was behind it. *)
Lemma delete_update_at {A} (g : A -> A) (i : nat) (index : Z) (l : list A) :
  delete i (imap (fun j x => if (Z.of_nat j =? index)%Z then g x else x) l)
  = if (index =? Z.of_nat i)%Z then delete i l
    else imap (fun j x =>
                 if (Z.of_nat j =? (if (index <? Z.of_nat i)%Z
                                    then index else index - 1))%Z
                 then g x else x) (delete i l).
Proof.
  apply list_eq. intros k.
  destruct (Z.eqb_spec index (Z.of_nat i)) as [Hii|Hii].
  - rewrite !list_lookup_delete.
    destruct (decide (k < i)); rewrite lookup_update_at.
    + destruct (l !! k); [|done]. cbn -[Z.of_nat].
      destruct (Z.eqb_spec (Z.of_nat k) index); [lia | done].
    + destruct (l !! S k); [|done]. cbn -[Z.of_nat].
      destruct (Z.eqb_spec (Z.of_nat (S k)) index); [lia | done].
  - rewrite lookup_update_at, !list_lookup_delete.
    destruct (decide (k < i)); rewrite lookup_update_at.
    + destruct (l !! k); [|done]. cbn -[Z.of_nat]. f_equal.
      destruct (Z.ltb_spec index (Z.of_nat i)); [done|].
      destruct (Z.eqb_spec (Z.of_nat k) index); [lia|].
      destruct (Z.eqb_spec (Z.of_nat k) (index - 1)); [lia | done].
    + destruct (l !! S k); [|done]. cbn -[Z.of_nat]. f_equal.
      destruct (Z.ltb_spec index (Z.of_nat i)).
      * destruct (Z.eqb_spec (Z.of_nat (S k)) index); [lia|].
        destruct (Z.eqb_spec (Z.of_nat k) index); [lia | done].
      * destruct (Z.eqb_spec (Z.of_nat (S k)) index);
          destruct (Z.eqb_spec (Z.of_nat k) (index - 1)); try lia; done.
Qed.

(** X8: an edit of a technique that is then removed leaves no trace, and
    an edit of another technique can be made after the removal instead, at
    the same position when it is before the removed one and one position
    lower when it is behind it. This holds for [updateTechnique] and for
    [updateMatrix]. *)
Theorem removeTechnique_after_update
    (i : nat) (index : Z) (field : string) (prev : Experiment) :
  let index' := if (index <? Z.of_nat i)%Z then index else (index - 1)%Z in
  (forall v,
     removeTechnique (Z.of_nat i) (updateTechnique index field v prev)
     = if (index =? Z.of_nat i)%Z then removeTechnique (Z.of_nat i) prev
       else updateTechnique index' field v (removeTechnique (Z.of_nat i) prev))
  /\ (forall s,
       removeTechnique (Z.of_nat i) (updateMatrix index field s prev)
       = if (index =? Z.of_nat i)%Z then removeTechnique (Z.of_nat i) prev
         else updateMatrix index' field s (removeTechnique (Z.of_nat i) prev)).
Proof.
  intros index'. subst index'.
  assert (Hrm : forall e ts,
            removeTechnique (Z.of_nat i) (with_techniques e ts)
            = with_techniques e (delete i ts)).
  { intros e ts. unfold removeTechnique, with_techniques. simpl. f_equal.
    pose proof (filter_from_delete ts 0 i) as Hdel. simpl in Hdel. apply Hdel. }
  assert (Hprev : removeTechnique (Z.of_nat i) prev
                  = with_techniques prev (delete i (techniques prev))).
  { rewrite <- Hrm. by rewrite with_techniques_eq. }
  split; intros v.
  - unfold updateTechnique at 1. rewrite Hrm, delete_update_at, Hprev.
    by destruct (index =? Z.of_nat i)%Z.
  - unfold updateMatrix at 1. rewrite Hrm, delete_update_at, Hprev.
    by destruct (index =? Z.of_nat i)%Z.
Qed.

End Composition.

(** ** What a submission does *)

Section Outcome.
Import Notions.
Context {Payload : Type}.
Implicit Types (st : AppState Payload) (net : Service Payload).

(** A submission whose three checks pass, written out. *)
Lemma submitExperiment_sent net st :
  blank (experiment_name (currentExperiment st)) = false ->
  2 <= length (techniques (currentExperiment st)) ->
  scan_names (techniques (currentExperiment st)) = all_named ->
  submitExperiment net st
  = match post_experiments net (currentExperiment st) with
    | resolved data =>
        match get_experiments net with
        | resolved listed =>
            (tt, shown st data listed,
             [axios_post (currentExperiment st); axios_get])
        | rejected error =>
            (tt, shown st data (experiments st),
             [axios_post (currentExperiment st); axios_get;
              console_error error])
        end
    | rejected error =>
        (tt, idle st,
         [axios_post (currentExperiment st); console_error error;
          match error_text error with
          | Some text => alert (FAILURE_PREFIX ++ text)
          | None => uncaught_conversion_error
          end])
    end.
Proof.
  intros H Hlen Hscan. unfold submitExperiment. rewrite not_truthy_trim, H.
  replace (_ <? 2)%nat with false by (symmetry; apply Nat.ltb_ge; lia).
  rewrite Hscan.
  unfold mbind, M_bind, setLoading, setResults, setActiveTab, emit,
    loadExperiments, shown, idle, FAILURE_PREFIX.
  destruct (post_experiments net (currentExperiment st)) as [data|error].
  - unfold mbind, M_bind, emit, setExperiments.
    destruct (get_experiments net); cbn -[lit]; reflexivity.
  - destruct (error_text error); cbn -[lit]; reflexivity.
Qed.

(** A submission that one of the checks stops, written out. *)
Lemma submitExperiment_refused net st :
  blank (experiment_name (currentExperiment st)) = true
  \/ length (techniques (currentExperiment st)) < 2
  \/ scan_names (techniques (currentExperiment st)) <> all_named ->
  exists ev, submitExperiment net st = (tt, st, [ev]) /\ is_request ev = false
    /\ (scan_names (techniques (currentExperiment st)) <> not_a_string ->
        exists text, ev = alert text).
Proof.
  intros H. unfold submitExperiment. rewrite not_truthy_trim.
  destruct (blank _) eqn:Hname.
  { eexists. unfold emit. split; [reflexivity|]. split; [done|]. eauto. }
  destruct (_ <? 2)%nat eqn:Hlen.
  { eexists. unfold emit. split; [reflexivity|]. split; [done|]. eauto. }
  apply Nat.ltb_ge in Hlen.
  destruct (scan_names _) eqn:Hscan.
  - destruct H as [H|[H|H]]; [discriminate H | lia | by destruct H].
  - eexists. unfold emit. split; [reflexivity|]. split; [done|]. eauto.
  - eexists. unfold emit. split; [reflexivity|]. split; [done|]. done.
Qed.

Lemma scan_names_not_thrown (techs : list object) :
  Forall has_string_name techs -> scan_names techs <> not_a_string.
Proof.
  intros H. rewrite scan_names_strings by done. by destruct (existsb _ _).
Qed.

Lemma validate_passed (e : Experiment) :
  validate e = None <->
  blank (experiment_name e) = false /\ 2 <= length (techniques e)
  /\ existsb technique_name_blank (techniques e) = false.
Proof.
  unfold validate. destruct (blank _); [split; [done | by intros [? _]]|].
  destruct (Nat.ltb_spec (length (techniques e)) 2);
    [split; [done | intros (_ & ? & _); lia]|].
  destruct (existsb _ _); [split; [done | by intros (_ & _ & ?)]|].
  done.
Qed.

Lemma submitExperiment_never_throws net st :
  Forall has_string_name (techniques (currentExperiment st)) ->
  uncaught_TypeError ∉ effects_of (submitExperiment net) st.
Proof.
  intros Hstr. unfold effects_of.
  destruct (validate (currentExperiment st)) as [err|] eqn:Hv.
  - destruct (submitExperiment_refused net st) as (ev & -> & Hev & Htext).
    { apply validate_failed_stopped. congruence. }
    destruct Htext as [text ->]; [by apply scan_names_not_thrown|].
    intros Hin. apply list_elem_of_singleton in Hin. done.
  - apply validate_passed in Hv as (Hname & Hlen & Hex).
    rewrite submitExperiment_sent; [|done|done|by rewrite scan_names_strings, Hex].
    destruct (post_experiments net (currentExperiment st)) as [data|error];
      [destruct (get_experiments net)|destruct (error_text error)].
    all: intros Hin;
         repeat (apply elem_of_cons in Hin as [Hin|Hin]; [discriminate Hin|]);
         by apply elem_of_nil in Hin.
Qed.

(** X9: when every technique holds a string under [technique_name], a
    submission posts one request, with the experiment of the form as it is
    for body, if the three checks pass, and posts nothing otherwise; its
    check of the names never fails with a [TypeError]. *)
Theorem request_iff_checks_pass net st :
  let e := currentExperiment st in
  let effects := effects_of (submitExperiment net) st in
  Forall has_string_name (techniques e) ->
  posted effects = match validate e with None => [e] | Some _ => [] end
  /\ uncaught_TypeError ∉ effects.
Proof.
  intros e effects Hstr. subst e effects.
  split; [|by apply submitExperiment_never_throws]. unfold effects_of.
  destruct (validate (currentExperiment st)) as [err|] eqn:Hv.
  - destruct (submitExperiment_refused net st) as (ev & -> & Hev & Htext).
    { apply validate_failed_stopped. congruence. }
    destruct Htext as [text ->]; [by apply scan_names_not_thrown|]. done.
  - apply validate_passed in Hv as (Hname & Hlen & Hex).
    rewrite submitExperiment_sent; [|done|done|by rewrite scan_names_strings, Hex].
    destruct (post_experiments net (currentExperiment st)) as [data|error];
      [destruct (get_experiments net)|destruct (error_text error)];
      reflexivity.
Qed.

(** X10: a submission that passes the checks and is answered stores the
    answer as the results, switches to the results tab, keeps the form and
    ends with loading off; it then asks for the list of experiments, takes
    the list it gets, or keeps the list it had and logs the error when that
    request fails. It shows no alert. *)
Theorem submission_resolved net st data :
  let e := currentExperiment st in
  validate e = None -> Forall has_string_name (techniques e) ->
  post_experiments net e = resolved data ->
  let st' := state_after (submitExperiment net) st in
  let effects := effects_of (submitExperiment net) st in
  results st' = Some data /\ activeTab st' = lit "results"
  /\ loading st' = false /\ currentExperiment st' = e
  /\ alerts effects = []
  /\ match get_experiments net with
     | resolved listed =>
         experiments st' = listed /\ effects = [axios_post e; axios_get]
     | rejected error =>
         experiments st' = experiments st
         /\ effects = [axios_post e; axios_get; console_error error]
     end.
Proof.
  intros e Hv Hstr Hpost st' effects. subst e st' effects.
  unfold state_after, effects_of.
  apply validate_passed in Hv as (Hname & Hlen & Hex).
  rewrite submitExperiment_sent; [|done|done|by rewrite scan_names_strings, Hex].
  rewrite Hpost. destruct (get_experiments net); cbn -[lit]; done.
Qed.

(** The text of a list of plain objects. *)
Lemma to_string_objects (os : list (gmap string json)) :
  Forall (fun o => o !! "toString" = None) os ->
  to_string (JArray (JObject <$> os))
  = Some (join (replicate (length os) OBJECT_TEXT)).
Proof.
  intros H. cbn [to_string]. set (texts := mapM _ _).
  enough (texts = Some (replicate (length os) OBJECT_TEXT)) as -> by done.
  subst texts. induction H as [|o os Ho _ IH]; [done|].
  cbn [fmap list_fmap mapM length replicate]. cbn [to_string].
  rewrite Ho. cbn [mbind option_bind]. rewrite IH. done.
Qed.

(** Induction over a JSON value, with the hypothesis for every element of
    a list. *)
Lemma json_elements_ind (P : json -> Prop) :
  P JNull -> (forall b, P (JBool b)) -> (forall n, P (JNumber n)) ->
  (forall s, P (JString s)) ->
  (forall items, Forall P items -> P (JArray items)) ->
  (forall properties, P (JObject properties)) ->
  forall j, P j.
Proof.
  intros Hnull Hbool Hnumber Hstring Harray Hobject. fix IH 1.
  intros [|b|n|s|items|properties];
    [apply Hnull | apply Hbool | apply Hnumber | apply Hstring |
     | apply Hobject].
  apply Harray. induction items as [|item items IHitems]; constructor;
    [apply IH | apply IHitems].
Qed.

(** The conversion to a string throws exactly on the values that hold an
    object with its own [toString]. *)
Lemma to_string_throws (j : json) :
  to_string j = None <-> has_own_toString j = true.
Proof.
  induction j as [|b|n|s|items IH|properties] using json_elements_ind;
    try done.
  - cbn [to_string has_own_toString]. set (text := fun item : json => _).
    rewrite fmap_None. rewrite existsb_exists.
    induction IH as [|item items Hitem _ IHitems].
    + split; [done | by intros (? & [] & _)].
    + cbn [mapM]. split.
      * intros Hnone. destruct (text item) as [t|] eqn:Ht.
        -- cbn [mbind option_bind] in Hnone.
           destruct (mapM text items) as [ts|] eqn:Hts; [done|].
           destruct (proj1 IHitems eq_refl) as (x & Hin & Hx).
           exists x. split; [by right | done].
        -- exists item. split; [by left|]. apply Hitem.
           subst text. by destruct item.
      * intros (x & [Heq | Hin] & Hx).
        -- subst x. apply Hitem in Hx. subst text. cbn beta.
           destruct item; try done; by rewrite Hx.
        -- destruct (text item); [|done]. cbn [mbind option_bind].
           rewrite (proj2 IHitems); [done|]. by exists x.
  - cbn [to_string has_own_toString].
    destruct (properties !! "toString") eqn:Hp.
    + split; [intros _|done]. by apply bool_decide_eq_true.
    + split; [done|]. intros [? ?]%bool_decide_eq_true. done.
Qed.

(** X11: a submission that passes the checks and is rejected logs the
    error and asks for no list; it leaves the state as it was but for
    loading, which is off. After the log it shows one alert, the fixed
    prefix followed by the detail of the response converted to a string
    when the detail is truthy, whatever JSON value it is (a non-empty
    string as it is, a number in decimal, a list of plain objects as that
    many ["[object Object]"] with commas between), and by the message of
    the error when there is no detail or the detail is falsy. A detail
    that has no string conversion gives no alert, the handler ends in the
    error of the conversion; these are the details that are, or hold in
    their lists, an object with a property [toString] of its own. *)
Theorem submission_rejected net st error :
  let e := currentExperiment st in
  let detail := response_data_detail error in
  validate e = None -> Forall has_string_name (techniques e) ->
  post_experiments net e = rejected error ->
  state_after (submitExperiment net) st = idle st
  /\ effects_of (submitExperiment net) st
     = [axios_post e; console_error error;
        match error_text error with
        | Some text => alert (FAILURE_PREFIX ++ text)
        | None => uncaught_conversion_error
        end]
  /\ (detail = None \/ (exists j, detail = Some j /\ to_boolean j = false) ->
      error_text error = Some (message error))
  /\ (forall j, detail = Some j -> to_boolean j = true ->
        error_text error = to_string j)
  /\ (forall d, detail = Some (JString d) -> d <> [] ->
        error_text error = Some d)
  /\ (forall n, detail = Some (JNumber n) -> number_to_boolean n = true ->
        error_text error = Some (Number_toString n))
  /\ (forall os, detail = Some (JArray (JObject <$> os)) ->
        Forall (fun o => o !! "toString" = None) os ->
        error_text error = Some (join (replicate (length os) OBJECT_TEXT)))
  /\ (forall o, detail = Some (JObject o) ->
        error_text error
        = if decide (o !! "toString" = None) then Some OBJECT_TEXT else None)
  /\ (error_text error = None <->
      exists j, detail = Some j /\ has_own_toString j = true).
Proof.
  intros e detail Hv Hstr Hpost. subst e detail. unfold state_after, effects_of.
  apply validate_passed in Hv as (Hname & Hlen & Hex).
  rewrite submitExperiment_sent; [|done|done|by rewrite scan_names_strings, Hex].
  rewrite Hpost. split; [done|]. split; [done|]. unfold error_text.
  split; [|split; [|split; [|split; [|split; [|split]]]]].
  - by intros [-> | (j & -> & ->)].
  - by intros j -> ->.
  - intros d -> Hd. by destruct d.
  - intros n -> Hn. cbn [to_boolean]. by rewrite Hn.
  - intros os -> Hos. cbn [to_boolean]. by apply to_string_objects.
  - intros o ->. cbn [to_boolean to_string].
    destruct (o !! "toString"), (decide _); done.
  - destruct (response_data_detail error) as [j|]; split.
    + destruct (to_boolean j); [|done]. intros Hj%to_string_throws. eauto.
    + intros (j' & [= <-] & Hj). pose proof Hj as Hthrows%to_string_throws.
      by destruct j.
    + done.
    + by intros (j & ? & _).
Qed.

(** X12: a submission fails silently in one case only. When every
    technique holds a string under [technique_name], a submission either
    stores the answer of the service and shows no alert, or shows exactly
    one alert and leaves the results as they were, or, when the request
    was rejected with a detail that has no string conversion, logs the
    error, shows no alert and leaves the results as they were. In all
    cases the form is kept, and loading is off afterwards if it was off
    before. *)
Theorem submission_alerts_or_stores net st :
  let e := currentExperiment st in
  let st' := state_after (submitExperiment net) st in
  let effects := effects_of (submitExperiment net) st in
  Forall has_string_name (techniques e) ->
  ((exists data, post_experiments net e = resolved data
                 /\ validate e = None
                 /\ results st' = Some data /\ alerts effects = [])
   \/ (exists text, alerts effects = [text] /\ results st' = results st)
   \/ (exists error, post_experiments net e = rejected error
                     /\ validate e = None
                     /\ error_text error = None
                     /\ effects = [axios_post e; console_error error;
                                   uncaught_conversion_error]
                     /\ results st' = results st))
  /\ currentExperiment st' = e
  /\ (loading st = false -> loading st' = false).
Proof.
  intros e st' effects Hstr. subst e st' effects.
  unfold state_after, effects_of.
  destruct (validate (currentExperiment st)) as [err|] eqn:Hv.
  - destruct (submitExperiment_refused net st) as (ev & -> & Hev & Htext).
    { apply validate_failed_stopped. congruence. }
    destruct Htext as [text ->]; [by apply scan_names_not_thrown|].
    split; [right; left; by exists text|]. done.
  - pose proof Hv as Hv'. apply validate_passed in Hv' as (Hname & Hlen & Hex).
    rewrite submitExperiment_sent; [|done|done|by rewrite scan_names_strings, Hex].
    destruct (post_experiments net (currentExperiment st)) as [data|error].
    + split; [left; exists data; by destruct (get_experiments net)|].
      by destruct (get_experiments net).
    + destruct (error_text error) as [text|] eqn:Htext.
      * split; [right; left; by eexists|]. done.
      * split; [right; right; by exists error|]. done.
Qed.

End Outcome.

Lemma request_iff_checks_pass_witness :
  Notions.posted (effects_of (submitExperiment Samples.answering)
                    (Samples.form Samples.complete))
  = [Samples.complete].
Proof.
  apply (request_iff_checks_pass Samples.answering
           (Samples.form Samples.complete)).
  repeat constructor; eexists; vm_compute; reflexivity.
Defined.


Lemma submission_resolved_witness :
  results (state_after (submitExperiment Samples.answering)
             (Samples.form Samples.complete)) = Some 8%nat.
Proof.
  eapply (submission_resolved Samples.answering
            (Samples.form Samples.complete) 8%nat).
  - vm_compute. reflexivity.
  - repeat constructor; eexists; vm_compute; reflexivity.
  - reflexivity.
Defined.

Lemma submission_rejected_witness :
  effects_of
    (submitExperiment
       (MoreSamples.rejecting_with (Some MoreSamples.validation_errors)))
    (Samples.form Samples.complete)
  = [axios_post Samples.complete;
     console_error
       {| response_data_detail := Some MoreSamples.validation_errors;
          message := lit "Request failed with status code 422" |};
     alert (Notions.FAILURE_PREFIX ++ lit "[object Object],[object Object]")].
Proof.
  destruct (submission_rejected
              (MoreSamples.rejecting_with (Some MoreSamples.validation_errors))
              (Samples.form Samples.complete)
              {| response_data_detail := Some MoreSamples.validation_errors;
                 message := lit "Request failed with status code 422" |})
    as (_ & -> & _).
  - vm_compute. reflexivity.
  - repeat constructor; eexists; vm_compute; reflexivity.
  - reflexivity.
  - vm_compute. reflexivity.
Defined.

(** What the alert adds to the prefix, for some details of a response. *)
Example error_text_samples :
  let failed detail :=
    error_text {| response_data_detail := detail;
                  message := lit "Network Error" |} in
  failed None = Some (lit "Network Error")
  /\ failed (Some JNull) = Some (lit "Network Error")
  /\ failed (Some (JString (lit ""))) = Some (lit "Network Error")
  /\ failed (Some (JNumber (of_Z 0))) = Some (lit "Network Error")
  /\ failed (Some (JBool false)) = Some (lit "Network Error")
  /\ failed (Some (JString (lit "Invalid matrix"))) = Some (lit "Invalid matrix")
  /\ failed (Some (JNumber (of_Z 422))) = Some (lit "422")
  /\ failed (Some (JBool true)) = Some (lit "true")
  /\ failed (Some (JArray [])) = Some []
  /\ failed (Some (JObject ∅)) = Some (lit "[object Object]")
  /\ failed (Some MoreSamples.validation_errors)
     = Some (lit "[object Object],[object Object]")
  /\ failed (Some MoreSamples.mixed_list) = Some (lit "1.5,,a,2,true,")
  /\ failed (Some MoreSamples.unprintable) = None.
Proof. vm_compute. repeat split. Qed.

(** A rejected submission that shows no alert: the detail of the response
    has a property [toString] of its own. *)
Example rejected_without_alert :
  let st := Samples.form Samples.complete in
  let net := MoreSamples.rejecting_with (Some MoreSamples.unprintable) in
  effects_of (submitExperiment net) st
  = [axios_post Samples.complete;
     console_error
       {| response_data_detail := Some MoreSamples.unprintable;
          message := lit "Request failed with status code 422" |};
     uncaught_conversion_error]
  /\ Notions.alerts (effects_of (submitExperiment net) st) = []
  /\ results (state_after (submitExperiment net) st) = Some 7%nat
  /\ loading (state_after (submitExperiment net) st) = false.
Proof. vm_compute. repeat split. Qed.

Lemma submission_alerts_or_stores_witness :
  currentExperiment (state_after (submitExperiment Samples.refusing)
                       (Samples.form Samples.unnamed_technique))
  = Samples.unnamed_technique.
Proof.
  eapply (submission_alerts_or_stores Samples.refusing
            (Samples.form Samples.unnamed_technique)).
  repeat constructor; eexists; vm_compute; reflexivity.
Defined.

(** ** The checks and the other inputs *)

Section Submittability.
Import Notions.
Context {Payload : Type}.
Implicit Types (st : AppState Payload) (net : Service Payload).

(** Whether the request is sent, from the three checks. *)
Lemma sends_request_checks net st :
  sends_request net st
  = negb (blank (experiment_name (currentExperiment st)))
    && negb (length (techniques (currentExperiment st)) <? 2)%nat
    && match scan_names (techniques (currentExperiment st)) with
       | all_named => true
       | _ => false
       end.
Proof.
  unfold sends_request, effects_of.
  destruct (blank _) eqn:Hname.
  { destruct (submitExperiment_refused net st) as (ev & -> & Hev & _);
      [by left|]. simpl. by rewrite Hev. }
  destruct (Nat.ltb_spec (length (techniques (currentExperiment st))) 2).
  { destruct (submitExperiment_refused net st) as (ev & -> & Hev & _);
      [right; by left|]. simpl. by rewrite Hev. }
  destruct (scan_names _) eqn:Hscan.
  - rewrite submitExperiment_sent by done.
    destruct (post_experiments net (currentExperiment st));
      [destruct (get_experiments net)|]; done.
  - destruct (submitExperiment_refused net st) as (ev & -> & Hev & _);
      [right; right; congruence|]. simpl. by rewrite Hev.
  - destruct (submitExperiment_refused net st) as (ev & -> & Hev & _);
      [right; right; congruence|]. simpl. by rewrite Hev.
Qed.

(** The loop over the names sees only the names. *)
Lemma scan_names_update_at (g : object -> object) index (techs : list object) :
  (forall tech, g tech !! "technique_name" = tech !! "technique_name") ->
  scan_names
    (imap (fun j x => if (Z.of_nat j =? index)%Z then g x else x) techs)
  = scan_names techs.
Proof.
  intros Hg. revert index. induction techs as [|tech techs IH]; intros index;
    [done|].
  rewrite imap_cons. cbn [scan_names].
  assert (Hhead : (if (Z.of_nat 0 =? index)%Z then g tech else tech)
                  !! "technique_name" = tech !! "technique_name").
  { destruct (Z.of_nat 0 =? index)%Z; [apply Hg | done]. }
  rewrite Hhead.
  assert (Htail : imap ((fun j x => if (Z.of_nat j =? index)%Z then g x else x) ∘ S) techs
                  = imap (fun j x => if (Z.of_nat j =? index - 1)%Z then g x else x) techs).
  { apply imap_ext. intros j x _. unfold compose.
    destruct (Z.eqb_spec (Z.of_nat (S j)) index);
      destruct (Z.eqb_spec (Z.of_nat j) (index - 1)); try lia; done. }
  rewrite Htail, IH. done.
Qed.

(** X13: what the counts and the confidence levels hold has no part in the
    checks of a submission: after [updateMatrix], or after
    [updateTechnique] on a field other than [technique_name], a submission
    sends the request exactly if it did before. *)
Theorem edits_keep_submittability net st (index : Z) (field : string) :
  let e := currentExperiment st in
  (forall s, sends_request net (with_current st (updateMatrix index field s e))
             = sends_request net st)
  /\ (field <> "technique_name" ->
      forall v, sends_request net
                  (with_current st (updateTechnique index field v e))
                = sends_request net st).
Proof.
  intros e. subst e. split.
  - intros s. rewrite !sends_request_checks. simpl.
    rewrite length_imap, scan_names_update_at; [done|].
    intros tech. by rewrite lookup_insert_ne.
  - intros Hf v. rewrite !sends_request_checks. simpl.
    rewrite length_imap, scan_names_update_at; [done|].
    intros tech. by rewrite lookup_insert_ne.
Qed.

End Submittability.

Lemma edits_keep_submittability_witness :
  Notions.sends_request Samples.answering
    (Notions.with_current (Samples.form Samples.complete)
       (updateTechnique 0 "confidence_level" (VNum (parseFloat (lit "0.99")))
          Samples.complete))
  = Notions.sends_request Samples.answering (Samples.form Samples.complete).
Proof.
  apply (edits_keep_submittability Samples.answering
           (Samples.form Samples.complete) 0 "confidence_level").
  discriminate.
Defined.

(** ** The states the form reaches *)

Section Reached.
Import Notions.
Context {Payload : Type}.
Implicit Types (st : AppState Payload).

Lemma new_technique_form_shaped : form_shaped new_technique.
Proof.
  split; [|split; [|split]].
  - unfold new_technique, THREE_PROPERTIES. rewrite !dom_insert_L, dom_singleton_L.
    set_solver.
  - exists (lit ""). split; [done|]. apply list_elem_of_here.
  - by eexists.
  - exists new_matrix. split; [done|]. split.
    + unfold new_matrix, MATRIX_FIELDS. rewrite !dom_insert_L, dom_singleton_L.
      set_solver.
    + intros f Hf. exists (of_Z 0). split; [|done].
      unfold MATRIX_FIELDS in Hf.
      repeat (apply elem_of_cons in Hf as [->|Hf]; [by vm_compute|]).
      by apply elem_of_nil in Hf.
Qed.

Lemma dom_insert_present {A} (m : gmap string A) k v :
  k ∈ dom m -> dom (<[k := v]> m) = dom m.
Proof. intros H. rewrite dom_insert_L. set_solver. Qed.

Lemma form_shaped_set_name tech item :
  item ∈ AVAILABLE_TECHNIQUES -> form_shaped tech ->
  form_shaped (<["technique_name" := VStr item]> tech).
Proof.
  intros Hitem (Hdom & _ & (c & Hc) & (m & Hm & Hrest)).
  split; [|split; [|split]].
  - rewrite dom_insert_present; [done|]. rewrite Hdom.
    unfold THREE_PROPERTIES. set_solver.
  - exists item. split; [apply lookup_insert_eq | by apply list_elem_of_further].
  - exists c. by rewrite lookup_insert_ne.
  - exists m. by rewrite lookup_insert_ne.
Qed.

Lemma form_shaped_set_confidence tech c :
  form_shaped tech -> form_shaped (<["confidence_level" := VNum c]> tech).
Proof.
  intros (Hdom & (s & Hs & Hin) & _ & (m & Hm & Hrest)).
  split; [|split; [|split]].
  - rewrite dom_insert_present; [done|]. rewrite Hdom.
    unfold THREE_PROPERTIES. set_solver.
  - exists s. by rewrite lookup_insert_ne.
  - exists c. apply lookup_insert_eq.
  - exists m. by rewrite lookup_insert_ne.
Qed.

Lemma form_shaped_set_count tech field s :
  field ∈ MATRIX_FIELDS -> form_shaped tech ->
  form_shaped (<["matrix" :=
                   VObj (<[field := VNum (number_or (parseInt s) (of_Z 0))]>
                           (spread (tech !! "matrix")))]> tech).
Proof.
  intros Hfield (Hdom & (n & Hn & Hin) & (c & Hc) & (m & Hm & Hdm & Hcounts)).
  split; [|split; [|split]].
  - rewrite dom_insert_present; [done|]. rewrite Hdom.
    unfold THREE_PROPERTIES. set_solver.
  - exists n. by rewrite lookup_insert_ne.
  - exists c. by rewrite lookup_insert_ne.
  - eexists. split; [apply lookup_insert_eq|]. rewrite Hm. simpl. split.
    + rewrite dom_insert_present; [done|]. rewrite Hdm.
      by apply elem_of_list_to_set.
    + intros f Hf. destruct (decide (field = f)) as [->|Hne].
      * eexists. split; [apply lookup_insert_eq | apply parseInt_or_0_whole].
      * rewrite lookup_insert_ne by done. by apply Hcounts.
Qed.

Lemma handle_form_shaped (a : action Payload) st :
  offered st a ->
  Forall form_shaped (techniques (currentExperiment st)) ->
  Forall form_shaped
    (techniques (currentExperiment (state_after (handle a) st))).
Proof.
  intros Ha H. destruct a as [v|v| |index|index item|index item|index field v|net];
    cbn [handle]; rewrite ?setCurrentExperiment_state.
  - done.
  - done.
  - apply Forall_app. split; [done|].
    constructor; [apply new_technique_form_shaped | constructor].
  - rewrite removeTechnique_techniques.
    destruct (0 <=? _)%Z; [|done]. by apply Forall_delete.
  - apply Forall_update_at; [|done].
    intros; apply form_shaped_set_name; [apply Ha | done].
  - apply Forall_update_at; [|done].
    intros; by apply form_shaped_set_confidence.
  - unfold updateMatrix. simpl. apply Forall_update_at; [|done].
    intros; apply form_shaped_set_count; [apply Ha | done].
  - by rewrite submitExperiment_currentExperiment.
Qed.

Lemma available_not_blank (s : jsstring) :
  s ∈ AVAILABLE_TECHNIQUES -> blank s = false.
Proof.
  intros H. unfold AVAILABLE_TECHNIQUES in H.
  repeat (apply elem_of_cons in H as [->|H]; [by vm_compute|]).
  by apply elem_of_nil in H.
Qed.

(** X14: in every state the form reaches, each technique has exactly the
    properties [technique_name], [matrix] and [confidence_level]; the name
    is the empty string or one of the ten names of the select; the matrix
    has exactly the four counts, each an integer or an infinity. So in a
    submission from such a state the check of the names never fails with
    a [TypeError], and the request is sent exactly when the experiment
    name is not blank, there are at least two techniques and each of them
    has one of the ten names. *)
Theorem reachable_form_shaped st (net : Service Payload) :
  reachable st ->
  let e := currentExperiment st in
  Forall form_shaped (techniques e)
  /\ (uncaught_TypeError ∉ effects_of (submitExperiment net) st)
  /\ (sends_request net st = true <->
      (blank (experiment_name e) = false /\ 2 <= length (techniques e)
       /\ Forall (fun tech => exists s, tech !! "technique_name" = Some (VStr s)
                                        /\ s ∈ AVAILABLE_TECHNIQUES)
            (techniques e))).
Proof.
  intros Hreach e. subst e.
  assert (Hshape : Forall form_shaped (techniques (currentExperiment st))).
  { induction Hreach as [|st a _ IH Ha]; [constructor|].
    by apply handle_form_shaped. }
  assert (Hstr : Forall has_string_name (techniques (currentExperiment st))).
  { eapply Forall_impl; [done|]. intros tech (_ & (s & Hs & _) & _). by exists s. }
  split; [done|]. split; [by apply submitExperiment_never_throws|].
  rewrite sends_request_checks, scan_names_strings by done.
  assert (Hnames :
    existsb technique_name_blank (techniques (currentExperiment st)) = false
    <-> Forall (fun tech => exists s, tech !! "technique_name" = Some (VStr s)
                                      /\ s ∈ AVAILABLE_TECHNIQUES)
          (techniques (currentExperiment st))).
  { clear Hstr Hreach. induction Hshape as [|tech techs Htech _ IH]; simpl.
    - split; [constructor | done].
    - destruct Htech as (_ & (s & Hs & Hin) & _).
      unfold technique_name_blank at 1. rewrite Hs.
      apply elem_of_cons in Hin as [->|Hin].
      + split; [done|]. intros Hall. apply Forall_cons in Hall as [(s' & Hs' & Hin') _].
        rewrite Hs in Hs'. simplify_eq. apply available_not_blank in Hin'. done.
      + rewrite (available_not_blank s Hin). simpl. rewrite IH.
        split; [intros ?; constructor; eauto | by intros [_ ?]%Forall_cons]. }
  rewrite <- Hnames.
  destruct (blank _); [split; [done | by intros [? _]]|].
  destruct (Nat.ltb_spec (length (techniques (currentExperiment st))) 2);
    [split; [done | intros (_ & ? & _); lia]|].
  destruct (existsb _ _); [split; [done | by intros (_ & _ & ?)]|].
  done.
Qed.

End Reached.

Lemma reachable_form_shaped_witness :
  Forall Notions.form_shaped
    (techniques (currentExperiment Samples.added_then_99)).
Proof.
  apply (reachable_form_shaped Samples.added_then_99
           {| post_experiments := fun _ => resolved tt;
              get_experiments := resolved [] |}).
  apply reachable_step; [apply reachable_step; [apply reachable_initial|]|].
  - exact I.
  - split; [simpl; lia|]. unfold CONFIDENCE_ITEMS. set_solver.
Defined.

(** ** The data of the radar chart *)

Section Radar.
Import Charts.

(** What a row holds under a name after the loop over the techniques. *)
Lemma radar_fold_lookup (metric name : jsstring) (techs : list TechniqueResult)
    (acc : gmap jsstring cell) :
  name <> lit "__proto__" ->
  foldl (fun data tech =>
           assign data (technique_name tech) (radar_value metric tech))
    acc techs !! name
  = match last_named name techs with
    | Some tech => Some (Value (radar_value metric tech))
    | None => acc !! name
    end.
Proof.
  intros Hname. unfold last_named. revert acc.
  induction techs as [|t techs IH]; intros acc; simpl; [done|].
  rewrite IH. destruct (decide (technique_name t = name)) as [Heq|Hne].
  - rewrite filter_cons_True by done. rewrite last_cons.
    destruct (last (filter _ techs)); [done|].
    unfold assign. rewrite decide_False by congruence.
    rewrite Heq. apply lookup_insert_eq.
  - rewrite filter_cons_False by done.
    destruct (last (filter _ techs)); [done|]. unfold assign.
    destruct (decide (technique_name t = lit "__proto__")); [done|].
    by apply lookup_insert_ne.
Qed.

Lemma radar_fold_proto (metric : jsstring) (techs : list TechniqueResult)
    (acc : gmap jsstring cell) :
  foldl (fun data tech =>
           assign data (technique_name tech) (radar_value metric tech))
    acc techs !! lit "__proto__"
  = acc !! lit "__proto__".
Proof.
  revert acc. induction techs as [|t techs IH]; intros acc; simpl; [done|].
  rewrite IH. unfold assign.
  destruct (decide (technique_name t = lit "__proto__")); [done|].
  by apply lookup_insert_ne.
Qed.

Lemma metric_is_not_proto : lit "metric" <> lit "__proto__".
Proof. intros H. vm_compute in H. discriminate H. Qed.

Lemma radar_value_at (k : nat) (metric : jsstring) (tech : TechniqueResult) :
  metrics !! k = Some metric -> radar_value metric tech = headline_value k tech.
Proof.
  unfold metrics, radar_value. intros Hk.
  destruct k as [|[|[|[|k]]]]; simplify_eq/=.
  all: repeat match goal with
         | |- context [decide (?a = ?b)] =>
             destruct (decide (a = b)) as [H|H];
             [try (vm_compute in H; discriminate H)
             |try (exfalso; apply H; reflexivity)]
         end; reflexivity.
Qed.

(** The rows of the chart and what each holds under a key. *)
Lemma prepareRadarData_rows_lookup (r : Results) (k : nat) row :
  prepareRadarData (Some r) !! k = Some row ->
  exists metric, metrics !! k = Some metric
    /\ forall name,
         row !! name
         = if decide (name = lit "__proto__") then None
           else match last_named name (techniques_results r) with
                | Some tech => Some (Value (headline_value k tech))
                | None => if decide (name = lit "metric")
                          then Some (Label metric) else None
                end.
Proof.
  intros Hrow.
  unfold prepareRadarData in Hrow. rewrite list_lookup_fmap in Hrow.
  destruct (metrics !! k) as [metric|] eqn:Hk; [|done].
  simpl in Hrow. simplify_eq. exists metric. split; [done|]. intros name.
  unfold radar_row. destruct (decide (name = lit "__proto__")) as [->|Hproto].
  { rewrite radar_fold_proto. apply lookup_singleton_ne, metric_is_not_proto. }
  rewrite radar_fold_lookup by done.
  destruct (last_named name (techniques_results r)) as [tech|].
  - by rewrite (radar_value_at k).
  - destruct (decide (name = lit "metric")) as [->|Hne].
    + apply lookup_singleton_eq.
    + by apply lookup_singleton_ne.
Qed.

(** X15: without results [prepareRadarData] gives no rows. With results it
    gives four rows, for sensitivity, specificity, accuracy and kappa in
    this order. Under a technique name a row holds 100 times the value of
    the last technique of that name, so of two techniques with one name
    only the later one is charted; it holds the label of the row under
    [metric], unless a technique is named [metric], and nothing under any
    other key. A technique named [__proto__] leaves no property. *)
Theorem prepareRadarData_rows (r : Results) :
  prepareRadarData None = []
  /\ length (prepareRadarData (Some r)) = 4
  /\ forall (k : nat) row, prepareRadarData (Some r) !! k = Some row ->
       exists metric, metrics !! k = Some metric
         /\ forall name,
              row !! name
              = if decide (name = lit "__proto__") then None
                else match last_named name (techniques_results r) with
                     | Some tech => Some (Value (headline_value k tech))
                     | None => if decide (name = lit "metric")
                               then Some (Label metric) else None
                     end.
Proof.
  split; [done|]. split; [done|]. apply prepareRadarData_rows_lookup.
Qed.

Lemma filter_name_none (name : jsstring) (techs : list TechniqueResult) :
  name ∉ map technique_name techs ->
  filter (fun tech => technique_name tech = name) techs = [].
Proof.
  induction techs as [|t techs IH]; simpl; intros Hn; [done|].
  apply not_elem_of_cons in Hn as [Hne Hn].
  rewrite filter_cons_False by done. by apply IH.
Qed.

Lemma last_named_unique (tech : TechniqueResult) (techs : list TechniqueResult) :
  NoDup (map technique_name techs) -> tech ∈ techs ->
  last_named (technique_name tech) techs = Some tech.
Proof.
  unfold last_named. induction techs as [|t techs IH]; intros Hnd Hin.
  { by apply elem_of_nil in Hin. }
  simpl in Hnd. apply NoDup_cons in Hnd as [Hfresh Hnd].
  apply elem_of_cons in Hin as [->|Hin].
  - rewrite filter_cons_True by done. by rewrite last_cons, filter_name_none.
  - rewrite filter_cons_False; [by apply IH|].
    intros Heq. apply Hfresh. rewrite Heq.
    apply list_elem_of_fmap. by exists tech.
Qed.

(** X16: when the techniques of the results have different names and none
    is named [metric] or [__proto__], each of the four rows holds its label
    under [metric] and, under the name of each technique, 100 times the
    value of that technique: the sensitivity in the first row, the
    specificity in the second, the accuracy in the third and kappa in the
    fourth; its keys are [metric] and the names. *)
Theorem prepareRadarData_distinct_names (r : Results) :
  let names := map technique_name (techniques_results r) in
  NoDup names -> lit "metric" ∉ names -> lit "__proto__" ∉ names ->
  forall (k : nat) row, prepareRadarData (Some r) !! k = Some row ->
    (exists metric, metrics !! k = Some metric
                    /\ row !! lit "metric" = Some (Label metric))
    /\ (forall tech, tech ∈ techniques_results r ->
          row !! technique_name tech = Some (Value (headline_value k tech)))
    /\ (forall name, is_Some (row !! name) <->
          (name = lit "metric" \/ name ∈ names)).
Proof.
  intros names Hnd Hmetric Hproto k row Hrow. subst names.
  destruct (prepareRadarData_rows_lookup r k row Hrow) as (metric & Hk & Hlook).
  split; [|split].
  - exists metric. split; [done|]. rewrite Hlook.
    rewrite decide_False by apply metric_is_not_proto.
    assert (last_named (lit "metric") (techniques_results r) = None) as ->.
    { unfold last_named. by rewrite filter_name_none. }
    destruct (decide (lit "metric" = lit "metric")) as [_|Hne]; [done|].
    by destruct Hne.
  - intros tech Hin. rewrite Hlook, last_named_unique by done.
    rewrite decide_False; [done|]. intros Heq. apply Hproto. rewrite <- Heq.
    apply list_elem_of_fmap. by exists tech.
  - intros name. rewrite Hlook. unfold last_named.
    destruct (decide (name = lit "__proto__")) as [->|Hnp].
    { split; [by intros [? ?]|]. intros [Hm|Hin]; [|done].
      symmetry in Hm. by apply metric_is_not_proto in Hm. }
    destruct (decide (name ∈ map technique_name (techniques_results r)))
      as [Hin|Hnin].
    + split; [by right|]. intros _.
      apply list_elem_of_fmap in Hin as (tech & -> & Hin).
      fold (last_named (technique_name tech) (techniques_results r)).
      by rewrite last_named_unique.
    + rewrite filter_name_none by done. cbn [last].
      destruct (decide (name = lit "metric")) as [Heq|Hne].
      * split; [by left | by intros _].
      * split; [by intros [? ?] | by intros [?|?]].
Qed.

End Radar.

Lemma prepareRadarData_rows_witness :
  exists row,
    Charts.prepareRadarData
      (Some {| Charts.techniques_results :=
                 [MoreSamples.qPCR_view; MoreSamples.RPA_view;
                  MoreSamples.qPCR_again] |}) !! 0%nat = Some row
    /\ row !! lit "qPCR"
       = Some (Charts.Value (Charts.headline_value 0 MoreSamples.qPCR_again)).
Proof.
  eexists. split; [reflexivity|].
  destruct (prepareRadarData_rows
              {| Charts.techniques_results :=
                   [MoreSamples.qPCR_view; MoreSamples.RPA_view;
                    MoreSamples.qPCR_again] |}) as (_ & _ & Hrows).
  destruct (Hrows 0%nat _ eq_refl) as (metric & _ & Hlook).
  rewrite Hlook. vm_compute. reflexivity.
Defined.

Lemma prepareRadarData_distinct_names_witness :
  exists row,
    Charts.prepareRadarData
      (Some {| Charts.techniques_results :=
                 [MoreSamples.qPCR_view; MoreSamples.RPA_view] |}) !! 2%nat
    = Some row
    /\ row !! lit "RPA"
       = Some (Charts.Value (Charts.headline_value 2 MoreSamples.RPA_view)).
Proof.
  eexists. split; [reflexivity|].
  assert (Hnd : NoDup (map Charts.technique_name
                         [MoreSamples.qPCR_view; MoreSamples.RPA_view])).
  { repeat constructor; vm_compute; intros H;
      repeat (apply elem_of_cons in H as [H|H]; [discriminate H|]);
      by apply elem_of_nil in H. }
  assert (Hm : lit "metric" ∉ map Charts.technique_name
                 [MoreSamples.qPCR_view; MoreSamples.RPA_view]).
  { vm_compute. intros H.
    repeat (apply elem_of_cons in H as [H|H]; [discriminate H|]).
    by apply elem_of_nil in H. }
  assert (Hp : lit "__proto__" ∉ map Charts.technique_name
                 [MoreSamples.qPCR_view; MoreSamples.RPA_view]).
  { vm_compute. intros H.
    repeat (apply elem_of_cons in H as [H|H]; [discriminate H|]).
    by apply elem_of_nil in H. }
  destruct (prepareRadarData_distinct_names
              {| Charts.techniques_results :=
                   [MoreSamples.qPCR_view; MoreSamples.RPA_view] |}
              Hnd Hm Hp 2%nat _ eq_refl) as (_ & Hval & _).
  apply (Hval MoreSamples.RPA_view).
  apply list_elem_of_further, list_elem_of_here.
Defined.

(** ** What a count keeps of the input *)

Section Truncation.
Import Notions.
#[local] Open Scope Z_scope.

Lemma decimal_digit_radix (c : N) :
  is_decimal_digit c = true -> radix_digit 10 c = Some (Z.of_N c - 48).
Proof.
  unfold is_decimal_digit, radix_digit, digit_value. intros H. rewrite H.
  apply andb_prop in H as [H1 H2]. apply N.leb_le in H1, H2.
  by replace (Z.of_N c - 48 <? 10) with true by (symmetry; apply Z.ltb_lt; lia).
Qed.

Lemma decimal_digit_not_white_space (c : N) :
  is_decimal_digit c = true -> is_str_white_space c = false.
Proof.
  unfold is_decimal_digit. intros H.
  apply andb_prop in H as [H1 H2]. apply N.leb_le in H1, H2.
  unfold is_str_white_space, is_white_space, is_line_terminator.
  repeat match goal with
         | |- context [(c =? ?n)%N] =>
             replace (c =? n)%N with false by (symmetry; apply N.eqb_neq; lia)
         end.
  by replace (8192 <=? c)%N with false by (symmetry; apply N.leb_gt; lia).
Qed.

(** Reading digits stops at the first code unit that is not one. *)
Lemma parse_digits_prefix (ds : jsstring) (c : N) (rest : jsstring) acc :
  forallb is_decimal_digit ds = true -> radix_digit 10 c = None ->
  parse_digits 10 (ds ++ c :: rest) acc = parse_digits 10 ds acc.
Proof.
  revert acc. induction ds as [|d ds IH]; intros acc Hds Hc; simpl.
  - by rewrite Hc.
  - simpl in Hds. apply andb_prop in Hds as [Hd Hds].
    rewrite (decimal_digit_radix d Hd). by apply IH.
Qed.

Lemma parse_digits_decimal (ds : jsstring) (acc : Z) :
  forallb is_decimal_digit ds = true ->
  parse_digits 10 ds (Some acc)
  = Some (fold_left (fun a c => a * 10 + (Z.of_N c - 48)) ds acc).
Proof.
  revert acc. induction ds as [|d ds IH]; intros acc Hds; simpl; [done|].
  simpl in Hds. apply andb_prop in Hds as [Hd Hds].
  rewrite (decimal_digit_radix d Hd). by apply IH.
Qed.

(** The numeral of a string that starts with decimal digits. *)
Lemma numeral_digits (d : N) (ds tail : jsstring) :
  forallb is_decimal_digit (d :: ds) = true ->
  match tail with
  | [] => True
  | c :: _ => radix_digit 10 c = None /\ (ds = [] -> c <> 120%N /\ c <> 88%N)
  end ->
  numeral ((d :: ds) ++ tail) = Some (false, decimal_value (d :: ds)).
Proof.
  intros Hds Htail. pose proof Hds as Hall.
  simpl in Hds. apply andb_prop in Hds as [Hd Hds].
  pose proof (decimal_digit_not_white_space d Hd) as Hws.
  assert (Htrim : trim_start ((d :: ds) ++ tail) = d :: ds ++ tail).
  { simpl. by rewrite Hws. }
  unfold numeral. rewrite Htrim.
  assert (Hd' : (48 <= d <= 57)%N).
  { unfold is_decimal_digit in Hd. apply andb_prop in Hd as [H1 H2].
    apply N.leb_le in H1, H2. lia. }
  assert (Hsign : match d :: ds ++ tail with 45%N :: _ => true | _ => false end
                  = false).
  { destruct d as [|p]; [lia|]. repeat (destruct p as [p|p|]; try done); lia. }
  assert (Hstrip : match d :: ds ++ tail with
                   | 43%N :: r | 45%N :: r => r
                   | _ => d :: ds ++ tail
                   end = d :: ds ++ tail).
  { destruct d as [|p]; [lia|]. repeat (destruct p as [p|p|]; try done); lia. }
  rewrite Hsign, Hstrip.
  assert (Hradix : match d :: ds ++ tail with
                   | 48%N :: 120%N :: r | 48%N :: 88%N :: r => (16, r)
                   | _ => (10, d :: ds ++ tail)
                   end = (10, d :: ds ++ tail)).
  { destruct ds as [|d2 ds].
    - destruct tail as [|c tail]; simpl.
      + destruct d as [|p]; [done|]. by repeat (destruct p as [p|p|]; try done).
      + destruct Htail as [_ Hx]. destruct (Hx eq_refl) as [H120 H88].
        destruct d as [|p]; [done|]. repeat (destruct p as [p|p|]; try done).
        destruct c as [|q]; [done|]. by repeat (destruct q as [q|q|]; try done).
    - simpl in Hds. apply andb_prop in Hds as [Hd2 _].
      unfold is_decimal_digit in Hd2. apply andb_prop in Hd2 as [H1 H2].
      apply N.leb_le in H1, H2. simpl.
      destruct d as [|p]; [done|]. repeat (destruct p as [p|p|]; try done).
      destruct d2 as [|q]; [done|]. repeat (destruct q as [q|q|]; try done); lia. }
  rewrite Hradix.
  assert (Hparse : parse_digits 10 (d :: ds ++ tail) None
                   = Some (decimal_value (d :: ds))).
  { change (d :: ds ++ tail) with ((d :: ds) ++ tail).
    destruct tail as [|c tail].
    - rewrite app_nil_r. simpl. rewrite (decimal_digit_radix d Hd).
      by rewrite parse_digits_decimal.
    - destruct Htail as [Hc _]. rewrite parse_digits_prefix by done.
      simpl. rewrite (decimal_digit_radix d Hd).
      by rewrite parse_digits_decimal. }
  by rewrite Hparse.
Qed.

(** X17: a count keeps the leading digits of the input and nothing else:
    for an input that starts with decimal digits and goes on with a code
    unit that is no digit (a decimal point, an exponent mark), [updateMatrix]
    stores what it stores for the digits alone, so [12.7] stores 12 and
    [1e3] stores 1; below 2^53 that is the integer the digits denote. (After
    a single digit the next code unit is not [x] or [X], which would make
    [0x] a radix prefix.) *)
Theorem count_keeps_leading_digits (d : N) (ds : jsstring) (c : N)
    (rest : jsstring) :
  forallb is_decimal_digit (d :: ds) = true ->
  radix_digit 10 c = None -> (ds = [] -> c <> 120%N /\ c <> 88%N) ->
  let stored v := number_or (parseInt v) (of_Z 0) in
  stored ((d :: ds) ++ c :: rest) = stored (d :: ds)
  /\ (decimal_value (d :: ds) < 2 ^ 53 ->
      integer_value (stored ((d :: ds) ++ c :: rest))
      = Some (decimal_value (d :: ds))).
Proof.
  intros Hds Hc Hx stored. subst stored.
  pose proof (numeral_digits d ds (c :: rest) Hds (conj Hc Hx)) as Hlong.
  pose proof (numeral_digits d ds [] Hds I) as Hshort.
  rewrite app_nil_r in Hshort.
  split.
  - by rewrite !parseInt_or_0_cases, Hlong, Hshort.
  - intros Hsmall. by rewrite (parseInt_or_0_exact _ false _ Hlong Hsmall).
Qed.

End Truncation.

Lemma count_keeps_leading_digits_witness :
  number_or (parseInt (lit "12.7")) (of_Z 0)
  = number_or (parseInt (lit "12")) (of_Z 0)
  /\ integer_value (number_or (parseInt (lit "1e3")) (of_Z 0)) = Some 1%Z.
Proof.
  split.
  - apply (count_keeps_leading_digits 49 [50%N] 46 [55%N]);
      [reflexivity | reflexivity | discriminate].
  - apply (count_keeps_leading_digits 49 [] 101 [51%N]);
      [reflexivity | reflexivity | |].
    + intros _. split; discriminate.
    + vm_compute. reflexivity.
Defined.
